(** * Collation-and-load pipeline: a shallow embedding of
      [old-scripts/collate_and_migrate_data.py]

    The development follows the Python source function by function.
    Python values are an inductive type, Python [str] is [string] (the
    UTF-8 encoding of the text), dictionaries keyed by strings are
    [gmap string _], dictionaries whose key order matters (the merged
    record, whose keys become the column list of the INSERT) are
    association lists, a DataFrame is the list of its rows paired with
    their index labels, and the two database connections are explicit
    state.  Library functions whose result is not fixed by the script
    (decimal-to-binary rounding of [float], [repr] of a float, [lower]
    and [float] on text that is not ASCII, [json.loads], [datetime.now],
    the constraints of the destination table and the outcome of a
    rollback) are fields of two interfaces, [PyRuntime] and
    [Catalogue]. *)

From Stdlib Require Import ZArith Ascii String List Bool Lia DecimalString.
From stdpp Require Import base option list strings gmap fin_maps.

Local Open Scope string_scope.
Local Open Scope list_scope.
Local Set Warnings "-register-all".

(** ** Python strings *)

Module PyStr.

Definition chars (s : string) : list ascii := list_ascii_of_string s.
Definition of_chars (l : list ascii) : string := string_of_list_ascii l.

Definition code (c : ascii) : nat := nat_of_ascii c.

Definition comma : ascii := ","%char.
Definition lbrace : ascii := "{"%char.
Definition rbrace : ascii := "}"%char.
Definition lbracket : ascii := "["%char.
Definition rbracket : ascii := "]"%char.
Definition dquote : ascii := "034"%char.
Definition squote : ascii := "039"%char.
Definition backslash : ascii := "092"%char.

(** [str.isspace] on the characters of one byte: TAB, LF, VT, FF, CR,
    the four separators FS, GS, RS, US, and the space. *)
Definition is_space (c : ascii) : bool :=
  let n := code c in
  ((9 <=? n)%nat && (n <=? 13)%nat) || ((28 <=? n)%nat && (n <=? 31)%nat)
  || (n =? 32)%nat.

(** [str.isspace] on the characters of two bytes: U+0085 and U+00A0. *)
Definition is_space2 (a b : ascii) : bool :=
  (code a =? 194)%nat && ((code b =? 133)%nat || (code b =? 160)%nat).

(** [str.isspace] on the characters of three bytes: U+1680, U+2000 to
    U+200A, U+2028, U+2029, U+202F, U+205F and U+3000. *)
Definition is_space3 (a b c : ascii) : bool :=
  ((code a =? 225)%nat && (code b =? 154)%nat && (code c =? 128)%nat)
  || ((code a =? 226)%nat && (code b =? 128)%nat
      && (((128 <=? code c)%nat && (code c <=? 138)%nat)
          || (code c =? 168)%nat || (code c =? 169)%nat || (code c =? 175)%nat))
  || ((code a =? 226)%nat && (code b =? 129)%nat && (code c =? 159)%nat)
  || ((code a =? 227)%nat && (code b =? 128)%nat && (code c =? 128)%nat).

(** The whitespace [float] skips around an ASCII literal: TAB, LF, VT,
    FF, CR and the space. *)
Definition is_float_space (c : ascii) : bool :=
  let n := code c in
  ((9 <=? n)%nat && (n <=? 13)%nat) || (n =? 32)%nat.

Definition is_brace (c : ascii) : bool :=
  Ascii.eqb c lbrace || Ascii.eqb c rbrace.

Fixpoint lstrip_with (f : ascii -> bool) (l : list ascii) : list ascii :=
  match l with
  | c :: r => if f c then lstrip_with f r else l
  | [] => []
  end.

Definition rstrip_with (f : ascii -> bool) (l : list ascii) : list ascii :=
  rev (lstrip_with f (rev l)).

Definition strip_with (f : ascii -> bool) (l : list ascii) : list ascii :=
  rstrip_with f (lstrip_with f l).

(** Removes from the head of a text the characters of one, two or three
    bytes that [f1], [f2], [f3] select. *)
Fixpoint lstrip_by (f1 : ascii -> bool) (f2 : ascii -> ascii -> bool)
    (f3 : ascii -> ascii -> ascii -> bool) (l : list ascii) : list ascii :=
  match l with
  | a :: r =>
      if f1 a then lstrip_by f1 f2 f3 r
      else
        match r with
        | b :: r' =>
            if f2 a b then lstrip_by f1 f2 f3 r'
            else
              match r' with
              | c :: r'' =>
                  if f3 a b c then lstrip_by f1 f2 f3 r'' else l
              | [] => l
              end
        | [] => l
        end
  | [] => []
  end.

(** The text starts with a character that [f1], [f2], [f3] select. *)
Definition starts_by (f1 : ascii -> bool) (f2 : ascii -> ascii -> bool)
    (f3 : ascii -> ascii -> ascii -> bool) (l : list ascii) : bool :=
  match l with
  | a :: r =>
      f1 a
      || match r with
         | b :: r' =>
             f2 a b
             || match r' with
                | c :: _ => f3 a b c
                | [] => false
                end
         | [] => false
         end
  | [] => false
  end.

(** [s.lstrip()] and [s.rstrip()] on the bytes of the text; the second
    reads the text from its end. *)
Definition lstrip_space (l : list ascii) : list ascii :=
  lstrip_by is_space is_space2 is_space3 l.

Definition rstrip_space (l : list ascii) : list ascii :=
  rev (lstrip_by is_space (fun b a => is_space2 a b)
         (fun c b a => is_space3 a b c) (rev l)).

(** [s.strip()] *)
Definition strip (s : string) : string :=
  of_chars (rstrip_space (lstrip_space (chars s))).

(** [s.strip('{}')] *)
Definition strip_braces (s : string) : string :=
  of_chars (strip_with is_brace (chars s)).

Definition lower_char (c : ascii) : ascii :=
  let n := code c in
  if (65 <=? n)%nat && (n <=? 90)%nat then ascii_of_nat (n + 32) else c.

(** The text has ASCII characters only. *)
Definition is_ascii (s : string) : bool :=
  forallb (fun c => (code c <? 128)%nat) (chars s).

(** [s.lower()] for an ASCII text *)
Definition lower_ascii (s : string) : string :=
  of_chars (map lower_char (chars s)).

(** [s.startswith(c)] and [s.endswith(c)] for a one-character [c] *)
Definition startswith (c : ascii) (s : string) : bool :=
  match chars s with
  | d :: _ => Ascii.eqb d c
  | [] => false
  end.

Definition endswith (c : ascii) (s : string) : bool :=
  match rev (chars s) with
  | d :: _ => Ascii.eqb d c
  | [] => false
  end.

(** [c in s] *)
Definition contains (c : ascii) (s : string) : bool :=
  existsb (Ascii.eqb c) (chars s).

Fixpoint split_chars (sep : ascii) (l : list ascii) : list (list ascii) :=
  match l with
  | [] => [[]]
  | c :: r =>
      if Ascii.eqb c sep then [] :: split_chars sep r
      else match split_chars sep r with
           | h :: t => (c :: h) :: t
           | [] => [[c]]
           end
  end.

(** [s.split(sep)] for a one-character separator *)
Definition split (sep : ascii) (s : string) : list string :=
  map of_chars (split_chars sep (chars s)).

(** [sep.join(parts)] *)
Fixpoint join (sep : string) (parts : list string) : string :=
  match parts with
  | [] => ""
  | [p] => p
  | p :: rest => p +:+ sep +:+ join sep rest
  end.

Definition is_empty (s : string) : bool :=
  match s with
  | EmptyString => true
  | String _ _ => false
  end.

(** Truth value of a string: [bool(s)] *)
Definition truthy (s : string) : bool := negb (is_empty s).

Definition of_Z (z : Z) : string := NilZero.string_of_int (Z.to_int z).

End PyStr.

(** ** Python values, exceptions and the runtime interface *)

(** A Python [float]: a NaN, an infinity, or the finite double
    [mant * 2^exp]. *)
Inductive PyFloat : Type :=
| FNaN
| FInf (neg : bool)
| FNum (mant : Z) (exp : Z).

(** The values the script handles.  [VOther repr truth] is any other
    object (a dict, a Decimal, a datetime), known by its [str()] and its
    truth value; pandas does not regard it as missing. *)
Inductive PyVal : Type :=
| VNone
| VBool (b : bool)
| VInt (z : Z)
| VFloat (f : PyFloat)
| VStr (s : string)
| VList (l : list PyVal)
| VOther (repr : string) (truth : bool).

(** [float('nan')], the missing-value marker of pandas. *)
Definition VNaN : PyVal := VFloat FNaN.

Inductive ExnKind : Type :=
| ValueError
| TypeError
| OverflowError
| JSONDecodeError
| KeyError
| IndexError
| OtherException.

Record PyExn : Type := mkExn { exn_kind : ExnKind; exn_msg : string }.

(** The outcome of a Python expression: a value or a raised exception. *)
Inductive result (A : Type) : Type :=
| Ok (a : A)
| Raise (e : PyExn).

Arguments Ok {A} a.
Arguments Raise {A} e.

Definition bind {A B : Type} (r : result A) (k : A -> result B) : result B :=
  match r with
  | Ok a => k a
  | Raise e => Raise e
  end.

Notation "x <- r ;; k" := (bind r (fun x => k))
  (at level 100, r at next level, right associativity).

(** What the script takes from its runtime. *)
Class PyRuntime : Type := {
  (** the double nearest to [(-1)^neg * digits * 10^exp10], as [float] of
      a decimal literal computes it *)
  round_double : bool -> N -> Z -> PyFloat;
  (** [repr] of the finite double [mant * 2^exp] *)
  float_repr : Z -> Z -> string;
  (** [s.lower()] for a text that is not ASCII *)
  unicode_lower : string -> string;
  (** [float(s)] for a text that is not ASCII; [None] is a [ValueError] *)
  unicode_float : string -> option PyFloat;
  (** [json.loads] *)
  json_loads : string -> result PyVal;
  (** [datetime.now()] *)
  datetime_now : PyVal;
  (** [datetime.now().strftime('%Y-%m-%d %H:%M:%S')] *)
  timestamp_now : string
}.

Module Py.

Import PyStr.

Definition hex_digit (n : nat) : ascii :=
  if (n <? 10)%nat then ascii_of_nat (48 + n) else ascii_of_nat (87 + n).

(** One character of [repr] of a string quoted with [quote]. *)
Definition repr_char (quote : ascii) (c : ascii) : list ascii :=
  let n := code c in
  if Ascii.eqb c backslash then [backslash; backslash]
  else if Ascii.eqb c quote then [backslash; quote]
  else if (n =? 9)%nat then [backslash; "t"%char]
  else if (n =? 10)%nat then [backslash; "n"%char]
  else if (n =? 13)%nat then [backslash; "r"%char]
  else if (n <? 32)%nat || (n =? 127)%nat
       then [backslash; "x"%char; hex_digit (n / 16); hex_digit (n mod 16)]
  else [c].

(** [repr(s)] for a string: single quotes unless the string has a single
    quote and no double quote. *)
Definition repr_str (s : string) : string :=
  let quote := if contains squote s && negb (contains dquote s)
               then dquote else squote in
  of_chars (quote :: flat_map (repr_char quote) (chars s) ++ [quote]).

Section with_runtime.
Context `{PyRuntime}.

Definition float_str (f : PyFloat) : string :=
  match f with
  | FNaN => "nan"
  | FInf false => "inf"
  | FInf true => "-inf"
  | FNum m e => float_repr m e
  end.

Fixpoint repr (v : PyVal) : string :=
  match v with
  | VNone => "None"
  | VBool true => "True"
  | VBool false => "False"
  | VInt z => of_Z z
  | VFloat f => float_str f
  | VStr s => repr_str s
  | VList l => "[" +:+ join ", " (map repr l) +:+ "]"
  | VOther r _ => r
  end.

(** [str(v)] *)
Definition str (v : PyVal) : string :=
  match v with
  | VStr s => s
  | _ => repr v
  end.

(** *** [float(s)] and [int(f)] *)

Definition is_digit (c : ascii) : bool :=
  (48 <=? code c)%nat && (code c <=? 57)%nat.

Definition digit_val (c : ascii) : N := N.of_nat (code c - 48).

(** Digits after the first one of a digit group: [("_"? digit)*]. *)
Fixpoint digits_tail (l : list ascii) : list N * list ascii :=
  match l with
  | c :: r =>
      if is_digit c then
        let '(ds, rest) := digits_tail r in (digit_val c :: ds, rest)
      else if Ascii.eqb c "_"%char then
        match r with
        | d :: r' =>
            if is_digit d then
              let '(ds, rest) := digits_tail r' in (digit_val d :: ds, rest)
            else ([], l)
        | [] => ([], l)
        end
      else ([], l)
  | [] => ([], [])
  end.

(** A digit group [digit ("_"? digit)*]; [None] when there is no digit. *)
Definition digitpart (l : list ascii) : option (list N * list ascii) :=
  match l with
  | c :: r =>
      if is_digit c then
        let '(ds, rest) := digits_tail r in Some (digit_val c :: ds, rest)
      else None
  | [] => None
  end.

Definition digits_value (ds : list N) : N :=
  fold_left (fun acc d => (10 * acc + d)%N) ds 0%N.

Definition parse_sign (l : list ascii) : bool * list ascii :=
  match l with
  | c :: r =>
      if Ascii.eqb c "-"%char then (true, r)
      else if Ascii.eqb c "+"%char then (false, r)
      else (false, l)
  | [] => (false, [])
  end.

Inductive FloatLit : Type :=
| LitNaN
| LitInf
| LitDec (digits : N) (exp10 : Z).

(** The exponent part [(e|E) sign? digits], which must end the literal. *)
Definition parse_exponent (l : list ascii) : option Z :=
  match l with
  | [] => Some 0%Z
  | c :: r =>
      if Ascii.eqb (lower_char c) "e"%char then
        let '(eneg, r1) := parse_sign r in
        match digitpart r1 with
        | Some (ds, []) =>
            let e := Z.of_N (digits_value ds) in
            Some (if eneg then (- e)%Z else e)
        | _ => None
        end
      else None
  end.

(** The literal after the sign: [inf], [infinity], [nan] in any case, or
    a decimal number with at least one digit in its mantissa. *)
Definition parse_unsigned (l : list ascii) : option FloatLit :=
  let word := of_chars (map lower_char l) in
  if String.eqb word "inf" || String.eqb word "infinity" then Some LitInf
  else if String.eqb word "nan" then Some LitNaN
  else
    let '(ip, r1) := match digitpart l with
                     | Some p => p
                     | None => ([], l)
                     end in
    let '(fp, r2) := match r1 with
                     | c :: r =>
                         if Ascii.eqb c "."%char then
                           match digitpart r with
                           | Some p => p
                           | None => ([], r)
                           end
                         else ([], r1)
                     | [] => ([], [])
                     end in
    match (ip ++ fp)%list with
    | [] => None
    | ds =>
        match parse_exponent r2 with
        | Some e => Some (LitDec (digits_value ds) (e - Z.of_nat (length fp)))
        | None => None
        end
    end.

(** The literal of an ASCII text, between the blanks [float] skips. *)
Definition parse_float (s : string) : option (bool * FloatLit) :=
  let '(neg, r) := parse_sign (strip_with is_float_space (chars s)) in
  match parse_unsigned r with
  | Some lit => Some (neg, lit)
  | None => None
  end.

Definition float_value_error (s : string) : PyExn :=
  mkExn ValueError ("could not convert string to float: " +:+ repr_str s).

(** [float(s)] for a string [s]: an ASCII text is read as a literal; a
    text with other characters goes through the translation of Unicode
    digits and blanks first, which is left to the runtime. *)
Definition float_of_str (s : string) : result PyFloat :=
  if negb (is_ascii s) then
    match unicode_float s with
    | Some f => Ok f
    | None => Raise (float_value_error s)
    end
  else
  match parse_float s with
  | Some (_, LitNaN) => Ok FNaN
  | Some (neg, LitInf) => Ok (FInf neg)
  | Some (neg, LitDec m e) => Ok (round_double neg m e)
  | None => Raise (float_value_error s)
  end.

(** [int(f)]: truncation toward zero; no integer for NaN and infinities. *)
Definition int_of_float (f : PyFloat) : result Z :=
  match f with
  | FNaN => Raise (mkExn ValueError "cannot convert float NaN to integer")
  | FInf _ =>
      Raise (mkExn OverflowError "cannot convert float infinity to integer")
  | FNum m e =>
      Ok (if (0 <=? e)%Z then (m * 2 ^ e)%Z else Z.quot m (2 ^ (- e)))
  end.

End with_runtime.

(** [bool(v)] *)
Definition truthy (v : PyVal) : bool :=
  match v with
  | VNone => false
  | VBool b => b
  | VInt z => negb (z =? 0)%Z
  | VFloat (FNum m _) => negb (m =? 0)%Z
  | VFloat _ => true
  | VStr s => PyStr.truthy s
  | VList l => match l with [] => false | _ => true end
  | VOther _ t => t
  end.

(** [v == s] for a string literal [s] *)
Definition eq_str (v : PyVal) (s : string) : bool :=
  match v with
  | VStr t => String.eqb t s
  | _ => false
  end.

(** [pandas.isna] of a scalar *)
Definition isna_scalar (v : PyVal) : bool :=
  match v with
  | VNone => true
  | VFloat FNaN => true
  | _ => false
  end.

Definition ambiguous_truth : PyExn :=
  mkExn ValueError
    "The truth value of an array with more than one element is ambiguous. Use a.any() or a.all()".

Definition ambiguous_empty : PyExn :=
  mkExn ValueError
    "The truth value of an empty array is ambiguous. Use `array.size > 0` to check that an array is not empty.".

(** The lists nested in a list, when all its elements are lists. *)
Fixpoint sublists (l : list PyVal) : option (list (list PyVal)) :=
  match l with
  | [] => Some []
  | VList x :: r =>
      match sublists r with
      | Some xs => Some (x :: xs)
      | None => None
      end
  | _ :: _ => None
  end.

(** The cells of the array of objects numpy builds from a list: while
    all the elements of a level are lists of one length, they are a
    further dimension of the array. *)
Fixpoint array_cells (dimensions : nat) (l : list PyVal) : list PyVal :=
  match dimensions with
  | 0 => l
  | S d =>
      match sublists l with
      | Some (first :: rest) =>
          if forallb (fun x => (length x =? length first)%nat) rest
          then array_cells d (concat (first :: rest))
          else l
      | _ => l
      end
  end.

(** The truth value of [pd.isna(v)], as [if pd.isna(v) or ...] takes it.
    For a list pandas answers with an array of as many dimensions as
    the list is regularly nested (at most 64), whose truth value exists
    only when it has exactly one cell. *)
Definition isna_truth (v : PyVal) : result bool :=
  match v with
  | VList l =>
      match array_cells 63 l with
      | [] => Raise ambiguous_empty
      | [x] => Ok (isna_scalar x)
      | _ => Raise ambiguous_truth
      end
  | _ => Ok (isna_scalar v)
  end.

(** IEEE 754 binary64 rounding (nearest, ties to even) of the decimal
    [digits * 10^exp10]: the [round_double] of CPython. *)
Definition binary64_round (neg : bool) (digits : N) (exp10 : Z) : PyFloat :=
  if (digits =? 0)%N then FNum 0 0
  else
    let num := (Z.of_N digits * (if 0 <=? exp10 then 10 ^ exp10 else 1))%Z in
    let den := (if 0 <=? exp10 then 1 else 10 ^ (- exp10))%Z in
    let scaled k :=
      (if 0 <=? k then (num, den * 2 ^ k) else (num * 2 ^ (- k), den))%Z in
    let k0 := (Z.log2 num - Z.log2 den - 52)%Z in
    let k1 := (let '(n, d) := scaled k0 in
               if n / d <? 2 ^ 52 then k0 - 1 else k0)%Z in
    let k := Z.max k1 (-1074) in
    let '(n, d) := scaled k in
    let q := (n / d)%Z in
    let r := (n mod d)%Z in
    let q' := (if 2 * r <? d then q
               else if d <? 2 * r then q + 1
               else if Z.even q then q else q + 1)%Z in
    if ((0 <=? k) && (2 ^ 1024 <=? q' * 2 ^ k))%Z then FInf neg
    else FNum (if neg then (- q')%Z else q') k.

End Py.

(** [s.lower()], also taken for the [LOWER] of the reference store: on
    an ASCII text the letters A to Z are mapped; for any other text the
    result is the runtime's. *)
Definition lower `{PyRuntime} (s : string) : string :=
  if PyStr.is_ascii s then PyStr.lower_ascii s else unicode_lower s.

(** ** Data model *)

(** A cell of the DataFrame [load_csv] builds with [dtype=str]: a string,
    or the missing marker for an empty cell or a null token. *)
Inductive Cell : Type :=
| NaN
| Str (s : string).

#[global] Instance Cell_eq_dec : EqDecision Cell.
Proof. solve_decision. Defined.

Definition cell_val (c : Cell) : PyVal :=
  match c with
  | NaN => VNaN
  | Str s => VStr s
  end.

(** A row of the DataFrame (a [pd.Series]): column name to cell. *)
Abbreviation Row := (gmap string Cell).

(** [row.get(key, default)] *)
Definition row_get (row : Row) (key : string) (default : PyVal) : PyVal :=
  match row !! key with
  | Some c => cell_val c
  | None => default
  end.

(** A DataFrame: its columns and its rows with their index labels. *)
Record DataFrame : Type := mkDataFrame {
  df_columns : list string;
  df_rows : list (nat * Row)
}.

(** A dictionary whose key order matters: keys in insertion order. *)
Abbreviation Dict := (list (string * PyVal)).

(** [d.get(key)] and [d.get(key, default)] *)
Definition dict_get_default (d : Dict) (key : string) (default : PyVal) : PyVal :=
  match find (fun kv => String.eqb (fst kv) key) d with
  | Some kv => snd kv
  | None => default
  end.

Definition dict_get (d : Dict) (key : string) : PyVal :=
  dict_get_default d key VNone.

(** A row of [original_all_products] as [dict_row] returns it. *)
Record MetaRow : Type := mkMetaRow {
  meta_product_id : string;
  meta_fields : gmap string PyVal
}.

(** [product_metadata.get(col)] and [product_metadata.get(col, default)] *)
Definition meta_get_default (m : MetaRow) (col : string) (default : PyVal) : PyVal :=
  match meta_fields m !! col with
  | Some v => v
  | None => default
  end.

Definition meta_get (m : MetaRow) (col : string) : PyVal :=
  meta_get_default m col VNone.

(** A NUMERIC value of the reference store, read as a [Decimal]. *)
Record Decimal : Type := mkDecimal {
  dec_neg : bool;
  dec_digits : N;
  dec_exp : Z
}.

(** A row of [distributor_master_list]; [None] is SQL NULL. *)
Record PriceRow : Type := mkPriceRow {
  pr_item_code : option string;
  pr_product_name : option string;
  pr_manufacturer : option string;
  pr_mrp : option Decimal;
  pr_purchase_rate : option Decimal;
  pr_gst_rate : option Decimal;
  pr_plazza_selling_price_incl_gst : option Decimal;
  pr_effective_customer_discount : option Decimal;
  pr_distributor : option string;
  pr_hsn_code : option string;
  pr_original_item_code : option string
}.

(** The value [get_price_details_batch] stores per item code. *)
Record PriceRecord : Type := mkPriceRecord {
  distributor_mrp : option PyFloat;
  purchase_rate : option PyFloat;
  gst_rate : option PyFloat;
  plazza_selling_price_incl_gst : option PyFloat;
  effective_customer_discount : option PyFloat;
  distributor : option string;
  hsn_code : option string
}.

(** The dictionary [ErrorLogger.add_error] queues for the skipped-rows
    file. *)
Record RejectionRecord : Type := mkRejection {
  rej_product_id : string;
  rej_item_code : string;
  rej_name : PyVal;
  rej_error_timestamp : string;
  rej_error_type : string;
  rej_error_details : string;
  rej_status : string
}.

(** An entry of [self.validation_errors]. *)
Record ValidationError : Type := mkValidationError {
  ve_row_index : nat;
  ve_product_id : PyVal;
  ve_errors : list string
}.

(** What [validate_and_collate_row] returns: [(True, collated_data)] or
    [(False, {'errors': errors, 'data': data})]. *)
Inductive RowResult : Type :=
| Valid (collated_data : Dict)
| Invalid (errors : list string) (data : Dict).

Definition is_valid (r : RowResult) : bool :=
  match r with
  | Valid _ => true
  | Invalid _ _ => false
  end.

(** An entry of [results['errors']]. *)
Inductive RunError : Type :=
| FailedToLoadCsv
| FailedToConnect
| FoundDuplicateIds (ids : list Cell)
| FailedToInsertBatch (batch : nat)
| CriticalError (e : PyExn).

(** The dictionary [collate_and_migrate] returns. *)
Record Results : Type := mkResults {
  total_rows : nat;
  successful_inserts : nat;
  validation_failures : nat;
  duplicate_failures : nat;
  existing_products : nat;
  errors : list RunError
}.

(** The [DataCollator] object together with the tables behind its two
    connections: [catalogue] holds the committed rows of the destination
    table. *)
Record Collator : Type := mkCollator {
  catalogue : list Dict;
  original_all_products : list MetaRow;
  distributor_master_list : list PriceRow;
  validation_errors : list ValidationError;
  error_queue : list RejectionRecord;
  skipped_no_metadata : nat;
  skipped_no_pricing : nat
}.

(** What the destination store decides: whether a row can be added to a
    transaction (given the committed rows and the rows already pending in
    the transaction), whether the transaction commits, and what
    [connection.rollback()] raises, if it does, after a write of the
    given batch has failed (a lost connection, say). *)
Class Catalogue : Type := {
  row_accepted : list Dict -> list Dict -> Dict -> bool;
  commit_accepted : list Dict -> list Dict -> bool;
  rollback_raises : list Dict -> list Dict -> option PyExn
}.

(** ** The DataCollator *)

Section DataCollator.
Context `{PyRuntime} `{Catalogue}.

Import PyStr.

(** *** ErrorLogger.add_error *)

Definition add_error (product_id item_code : string) (name : PyVal)
    (error_type error_details : string) (st : Collator) : Collator :=
  let error_dict :=
    {| rej_product_id := product_id;
       rej_item_code := item_code;
       rej_name := name;
       rej_error_timestamp := timestamp_now;
       rej_error_type := error_type;
       rej_error_details := error_details;
       rej_status := "Skipped" |} in
  mkCollator (catalogue st) (original_all_products st)
    (distributor_master_list st) (validation_errors st)
    (error_queue st ++ [error_dict])
    (skipped_no_metadata st) (skipped_no_pricing st).

(** *** get_metadata_batch *)

(** The rows the SELECT returns: [WHERE product_id = ANY(%s)]. *)
Definition select_metadata (table : list MetaRow) (product_ids : list string)
    : list MetaRow :=
  filter (fun row => meta_product_id row ∈ product_ids) table.

(** [failed] tells whether the transaction open on [self.connection] is
    in the failed state, in which the server refuses every statement:
    the query then raises and the handler returns the empty
    dictionary. *)
Definition get_metadata_batch (st : Collator) (failed : bool)
    (product_ids : list string) : gmap string MetaRow :=
  match product_ids with
  | [] => ∅
  | _ =>
      if failed then ∅
      else
        let results := select_metadata (original_all_products st) product_ids in
        fold_left (fun metadata row => <[meta_product_id row := row]> metadata)
          results ∅
  end.

(** *** get_price_details_batch *)

(** [float(x) if x else None] on a NUMERIC column *)
Definition float_or_none (x : option Decimal) : option PyFloat :=
  match x with
  | Some d =>
      if (dec_digits d =? 0)%N then None
      else Some (round_double (dec_neg d) (dec_digits d) (dec_exp d))
  | None => None
  end.

Definition price_record (row : PriceRow) : PriceRecord :=
  {| distributor_mrp := float_or_none (pr_mrp row);
     purchase_rate := float_or_none (pr_purchase_rate row);
     gst_rate := float_or_none (pr_gst_rate row);
     plazza_selling_price_incl_gst :=
       float_or_none (pr_plazza_selling_price_incl_gst row);
     effective_customer_discount :=
       float_or_none (pr_effective_customer_discount row);
     distributor := pr_distributor row;
     hsn_code := pr_hsn_code row |}.

(** [LOWER(col) = ANY(%s)]; NULL never matches. *)
Definition lower_matches (col : option string) (lowercase_codes : list string)
    : bool :=
  match col with
  | Some c => bool_decide (lower c ∈ lowercase_codes)
  | None => false
  end.

(** The rows the SELECT returns:
    [WHERE LOWER(item_code) = ANY(%s) OR LOWER(original_item_code) = ANY(%s)]. *)
Definition select_prices (table : list PriceRow) (lowercase_codes : list string)
    : list PriceRow :=
  filter (fun row =>
            Is_true (lower_matches (pr_item_code row) lowercase_codes
                     || lower_matches (pr_original_item_code row) lowercase_codes))
    table.

(** The body of the first loop, on the map from lowercased to cleaned
    codes and the list of lowercased codes. *)
Definition add_clean_code (acc : gmap string string * list string)
    (code : string) : gmap string string * list string :=
  let '(code_mapping, lowercase_codes) := acc in
  if PyStr.truthy code && PyStr.truthy (strip code) then
    let clean_code := strip code in
    let lowercase_code := lower clean_code in
    (<[lowercase_code := clean_code]> code_mapping,
     lowercase_codes ++ [lowercase_code])
  else (code_mapping, lowercase_codes).

Definition clean_codes (item_codes : list string)
    : gmap string string * list string :=
  fold_left add_clean_code item_codes (∅, []).

(** The body of [for code_field in ['item_code', 'original_item_code']]. *)
Definition map_code_field (code_mapping : gmap string string) (row : PriceRow)
    (price_details : gmap string PriceRecord) (field : option string)
    : gmap string PriceRecord :=
  match field with
  | Some f =>
      if PyStr.truthy f then
        match code_mapping !! lower f with
        | Some original_code =>
            if PyStr.truthy original_code
            then <[original_code := price_record row]> price_details
            else price_details
        | None => price_details
        end
      else price_details
  | None => price_details
  end.

Definition get_price_details_batch (st : Collator) (item_codes : list string)
    : gmap string PriceRecord :=
  match item_codes with
  | [] => ∅
  | _ =>
      let '(code_mapping, lowercase_codes) := clean_codes item_codes in
      match lowercase_codes with
      | [] => ∅
      | _ =>
          let results :=
            select_prices (distributor_master_list st) lowercase_codes in
          fold_left
            (fun price_details row =>
               fold_left (map_code_field code_mapping row)
                 [pr_item_code row; pr_original_item_code row] price_details)
            results ∅
      end
  end.

(** *** _validate_inventory_quantity *)

(** The exceptions [except (ValueError, TypeError)] catches;
    [JSONDecodeError] is a subclass of [ValueError]. *)
Definition is_value_or_type_error (e : PyExn) : bool :=
  match exn_kind e with
  | ValueError | TypeError | JSONDecodeError => true
  | _ => false
  end.

(** Returns the quantity and the [errors] list after the call. *)
Definition _validate_inventory_quantity (value : PyVal) (errors : list string)
    : result (Z * list string) :=
  let body : result (Z * list string) :=
    na <- Py.isna_truth value ;;
    if na || Py.eq_str value "" || is_empty (strip (Py.str value))
    then Ok (0%Z, errors)
    else
      f <- Py.float_of_str (Py.str value) ;;
      inventory_qty <- Py.int_of_float f ;;
      if (inventory_qty <? 0)%Z
      then Ok (0%Z, errors ++ ["Inventory quantity cannot be negative"])
      else Ok (inventory_qty, errors) in
  match body with
  | Ok r => Ok r
  | Raise e =>
      if is_value_or_type_error e
      then Ok (0%Z, errors ++ ["Invalid inventory quantity format: "
                                 +:+ Py.str value])
      else Raise e
  end.

(** *** _validate_location_array *)

(** [[str(loc).strip() for loc in l if loc and str(loc).strip()]] *)
Definition clean_locations (l : list PyVal) : list string :=
  omap (fun loc =>
          if Py.truthy loc && PyStr.truthy (strip (Py.str loc))
          then Some (strip (Py.str loc)) else None) l.

(** [[loc.strip() for loc in value.split(',') if loc.strip()]] *)
Definition split_locations (value : string) : list string :=
  omap (fun loc => if PyStr.truthy (strip loc) then Some (strip loc) else None)
    (split comma value).

(** A single location or comma-separated locations. *)
Definition plain_locations (value : string) : option (list string) :=
  if contains comma value then Some (split_locations value)
  else if PyStr.truthy (strip value) then Some [strip value] else None.

(** Returns the location and the [errors] list after the call. *)
Definition _validate_location_array (value : PyVal) (errors : list string)
    : result (option (list string) * list string) :=
  na <- Py.isna_truth value ;;
  if na || Py.eq_str value "" || Py.eq_str value "nan"
  then Ok (None, errors)
  else
    match value with
    | VList l => Ok (Some (clean_locations l), errors)
    | VStr s =>
        let value := strip s in
        let value := strip_braces value in
        if startswith lbracket value && endswith rbracket value then
          match json_loads value with
          | Ok (VList loc_list) => Ok (Some (clean_locations loc_list), errors)
          | Ok _ => Ok (plain_locations value, errors)
          | Raise e =>
              match exn_kind e with
              | JSONDecodeError => Ok (plain_locations value, errors)
              | _ =>
                  Ok (None, errors ++ ["Invalid location format: " +:+ exn_msg e])
              end
          end
        else Ok (plain_locations value, errors)
    | _ =>
        let s := strip (Py.str value) in
        Ok (if PyStr.truthy s then Some [s] else None, errors)
    end.

(** *** validate_and_collate_row *)

Definition with_skipped_no_metadata (st : Collator) : Collator :=
  mkCollator (catalogue st) (original_all_products st)
    (distributor_master_list st) (validation_errors st) (error_queue st)
    (skipped_no_metadata st + 1) (skipped_no_pricing st).

Definition with_skipped_no_pricing (st : Collator) : Collator :=
  mkCollator (catalogue st) (original_all_products st)
    (distributor_master_list st) (validation_errors st) (error_queue st)
    (skipped_no_metadata st) (skipped_no_pricing st + 1).

Definition float_val (x : option PyFloat) : PyVal :=
  match x with
  | Some f => VFloat f
  | None => VNone
  end.

Definition str_val (x : option string) : PyVal :=
  match x with
  | Some s => VStr s
  | None => VNone
  end.

Definition location_val (x : option (list string)) : PyVal :=
  match x with
  | Some l => VList (map VStr l)
  | None => VNone
  end.

(** The metadata columns copied with [product_metadata.get(col)], in the
    order of the dictionary literal, up to [plazza_price_pack]. *)
Definition metadata_columns_head : list string :=
  ["name"; "manufacturers"; "salt_composition"; "medicine_type";
   "introduction"; "benefits"; "description"; "how_to_use"; "safety_advise";
   "if_miss"; "packaging_detail"; "package"; "qty"; "product_form"; "mrp";
   "prescription_required"; "fact_box"; "primary_use"; "storage"; "use_of";
   "common_side_effect"; "alcohol_interaction"; "pregnancy_interaction";
   "lactation_interaction"; "driving_interaction"; "kidney_interaction";
   "liver_interaction"; "manufacturer_address"; "q_a"; "how_it_works";
   "interaction"; "manufacturer_details"; "marketer_details"; "reference";
   "normalized_name"; "image_url"; "plazza_price_pack"].

(** The columns after [fulfilled_by]. *)
Definition metadata_columns_tail : list string :=
  ["name_search_words"; "directions_for_use"; "information"; "key_benefits";
   "key_ingredients"; "safety_information"; "breadcrumbs";
   "country_of_origin"].

(** The dictionary literal [collated_data]. *)
Definition collate (product_id item_code : string) (product_metadata : MetaRow)
    (pricing_data : PriceRecord) (inventory_quantity : Z)
    (location : option (list string)) : Dict :=
  [("product_id", VStr product_id); ("dist_item_code", VStr item_code)]
  ++ map (fun col => (col, meta_get product_metadata col)) metadata_columns_head
  ++ [("fulfilled_by",
       meta_get_default product_metadata "fulfilled_by"
         (VStr "Fulfilled by Plazza"))]
  ++ map (fun col => (col, meta_get product_metadata col)) metadata_columns_tail
  ++ [("inventory_quantity", VInt inventory_quantity);
      ("location", location_val location);
      ("distributor_mrp", float_val (distributor_mrp pricing_data));
      ("plazza_selling_price_incl_gst",
       float_val (plazza_selling_price_incl_gst pricing_data));
      ("effective_customer_discount",
       float_val (effective_customer_discount pricing_data));
      ("distributor", str_val (distributor pricing_data));
      ("gst_rate", float_val (gst_rate pricing_data));
      ("hsn_code", str_val (hsn_code pricing_data));
      ("updated_at", datetime_now);
      ("created_at", datetime_now);
      ("c1", VNone); ("c2", VNone); ("c3", VNone); ("c4", VNone); ("c5", VNone);
      ("product_category_name", VNone);
      ("product_category_id", VNone);
      ("product_use_case_name", VNone);
      ("product_use_case_id", VNone);
      ("product_sub_category_id", VNone);
      ("product_sub_category_name", VNone)].

(** What the [except Exception] handler of the function returns. *)
Definition unexpected_error (row_index : nat) (e : PyExn) : RowResult :=
  Invalid ["Unexpected error collating row " +:+ of_Z (Z.of_nat row_index)
             +:+ ": " +:+ exn_msg e] [].

(** The two normalisers in sequence ("Process inventory and location
    from CSV"), sharing the [errors] list. *)
Definition process_inventory_and_location (row : Row) (errors : list string)
    : result (Z * option (list string) * list string) :=
  inventory <-
    _validate_inventory_quantity (row_get row "Store Inventory" (VInt 0)) errors ;;
  let '(inventory_quantity, errors) := inventory in
  normalized <-
    _validate_location_array (row_get row "Location" (VStr "")) errors ;;
  let '(location, errors) := normalized in
  Ok (inventory_quantity, location, errors).

Definition validate_and_collate_row (row : Row) (row_index : nat)
    (metadata : gmap string MetaRow) (price_details : gmap string PriceRecord)
    (st : Collator) : RowResult * Collator :=
  let errors : list string := [] in
  let product_id := strip (Py.str (row_get row "product_id" (VStr ""))) in
  let item_code := strip (Py.str (row_get row "item_code" (VStr ""))) in
  if is_empty product_id then
    (Invalid (errors ++ ["Product ID is required"]) [], st)
  else if is_empty item_code then
    (Invalid (errors ++ ["Item code is required"]) [], st)
  else
    match metadata !! product_id with
    | None =>
        let st := add_error product_id item_code (VStr "") "Missing Metadata"
                    ("Product metadata not found in original_all_products for product_id: "
                       +:+ product_id) st in
        (Invalid ["Missing metadata"] [], with_skipped_no_metadata st)
    | Some product_metadata =>
        match price_details !! item_code with
        | None =>
            let st := add_error product_id item_code
                        (meta_get_default product_metadata "name" (VStr ""))
                        "Missing Price Details"
                        ("Price details not found in distributor_master_list for item_code: "
                           +:+ item_code) st in
            (Invalid ["Missing pricing data"] [], with_skipped_no_pricing st)
        | Some pricing_data =>
            match process_inventory_and_location row errors with
            | Ok (inventory_quantity, location, []) =>
                (Valid (collate product_id item_code product_metadata
                          pricing_data inventory_quantity location), st)
            | Ok (inventory_quantity, location, errors) =>
                (Invalid errors
                   (collate product_id item_code product_metadata
                      pricing_data inventory_quantity location), st)
            | Raise e => (unexpected_error row_index e, st)
            end
        end
    end.

(** *** check_duplicate_products, check_existing_products *)

(** The cell of a row in the [product_id] column of its frame. *)
Definition row_key (ir : nat * Row) : Cell :=
  default NaN (snd ir !! "product_id").

(** [df[col]]: a [KeyError] when the frame has no such column. *)
Definition df_column (df : DataFrame) (col : string) : result (list Cell) :=
  if bool_decide (col ∈ df_columns df)
  then Ok (map (fun ir => default NaN (snd ir !! col)) (df_rows df))
  else Raise (mkExn KeyError (Py.repr_str col)).

Definition occurrences (k : Cell) (keys : list Cell) : nat :=
  length (filter (fun k' => k' = k) keys).

(** [df[df.duplicated(subset=['product_id'], keep=False)]['product_id'].tolist()]:
    with [keep=False] every member of a group of equal keys is marked.
    Without the column [df.duplicated] raises a [KeyError] on the index
    of the missing labels. *)
Definition check_duplicate_products (df : DataFrame) : result (list Cell) :=
  if bool_decide ("product_id" ∈ df_columns df) then
    let keys := map row_key (df_rows df) in
    Ok (filter (fun k => 1 < occurrences k keys) keys)
  else Raise (mkExn KeyError "Index(['product_id'], dtype='object')").

(** [df.drop_duplicates(subset=['product_id'], keep='first')] on rows, with
    the keys seen so far. *)
Fixpoint drop_duplicate_rows (seen : list Cell) (rows : list (nat * Row))
    : list (nat * Row) :=
  match rows with
  | [] => []
  | ir :: rest =>
      let k := row_key ir in
      if bool_decide (k ∈ seen) then drop_duplicate_rows seen rest
      else ir :: drop_duplicate_rows (k :: seen) rest
  end.

Definition drop_duplicates (df : DataFrame) : DataFrame :=
  mkDataFrame (df_columns df) (drop_duplicate_rows [] (df_rows df)).

(** The strings among the cells. *)
Definition cell_strings (cells : list Cell) : list string :=
  omap (fun c => match c with Str p => Some p | NaN => None end) cells.

(** The product ids the SELECT returns for string parameters, one per
    matching catalogue row: [WHERE product_id IN (...)]. *)
Definition select_existing (table : list Dict) (product_ids : list string)
    : list string :=
  omap (fun row =>
          match dict_get row "product_id" with
          | VStr p => if bool_decide (p ∈ product_ids) then Some p else None
          | _ => None
          end) table.

(** Returns the ids found and the state of the transaction after the
    call.  The statement fails, and the handler returns the empty list
    without a rollback, when the transaction has already failed, when
    there is no id ([IN ()] is ill-formed) and when a parameter is the
    missing marker, a float the server cannot compare with the text
    column; the transaction is then in the failed state. *)
Definition check_existing_products (st : Collator) (failed : bool)
    (product_ids : list Cell) : list string * bool :=
  if failed then ([], true)
  else
    match product_ids with
    | [] => ([], true)
    | _ =>
        if bool_decide (NaN ∈ product_ids) then ([], true)
        else (select_existing (catalogue st) (cell_strings product_ids), false)
    end.

(** [series.isin(existing)] on one cell *)
Definition isin (existing : list string) (c : Cell) : bool :=
  match c with
  | Str p => bool_decide (p ∈ existing)
  | NaN => false
  end.

(** [df[~df['product_id'].isin(existing)]] *)
Definition drop_existing (df : DataFrame) (existing : list string) : DataFrame :=
  mkDataFrame (df_columns df)
    (filter (fun ir => isin existing (row_key ir) = false) (df_rows df)).

(** *** insert_batch *)

(** [cursor.executemany]: the rows enter the open transaction one after
    the other; [None] when the store refuses one. *)
Fixpoint executemany (committed pending : list Dict) (batch : list Dict)
    : option (list Dict) :=
  match batch with
  | [] => Some pending
  | row :: rest =>
      if row_accepted committed pending row
      then executemany committed (pending ++ [row]) rest
      else None
  end.

Definition with_catalogue (st : Collator) (table : list Dict) : Collator :=
  mkCollator table (original_all_products st) (distributor_master_list st)
    (validation_errors st) (error_queue st)
    (skipped_no_metadata st) (skipped_no_pricing st).

(** The body of the [try]: the rows committed, or [None] when an
    exception is raised (no first record, a transaction already failed,
    a row or the commit refused). *)
Definition write_batch (valid_data : list Dict) (failed : bool) (st : Collator)
    : option (list Dict) :=
  match valid_data with
  | [] => None
  | first :: _ =>
      let columns := map fst first in
      let batch_data :=
        map (fun row_data => map (fun col => (col, dict_get row_data col)) columns)
          valid_data in
      if failed then None
      else
        match executemany (catalogue st) [] batch_data with
        | Some pending =>
            if commit_accepted (catalogue st) pending then Some pending else None
        | None => None
        end
  end.

(** Returns the flag, the collator and the state of the transaction
    after the call.  On any failure the handler rolls the transaction
    back, which leaves the committed rows as they were and ends the
    failed state; an exception of the rollback itself leaves the
    function. *)
Definition insert_batch (valid_data : list Dict) (failed : bool) (st : Collator)
    : result (bool * Collator * bool) :=
  match write_batch valid_data failed st with
  | Some pending =>
      Ok (true, with_catalogue st (catalogue st ++ pending), false)
  | None =>
      match rollback_raises (catalogue st) valid_data with
      | Some e => Raise e
      | None => Ok (false, st, false)
      end
  end.

(** *** collate_and_migrate *)

Definition with_validation_error (st : Collator) (e : ValidationError)
    : Collator :=
  mkCollator (catalogue st) (original_all_products st)
    (distributor_master_list st) (validation_errors st ++ [e]) (error_queue st)
    (skipped_no_metadata st) (skipped_no_pricing st).

Definition add_validation_failure (r : Results) : Results :=
  mkResults (total_rows r) (successful_inserts r) (validation_failures r + 1)
    (duplicate_failures r) (existing_products r) (errors r).

Definition add_successful_inserts (r : Results) (n : nat) : Results :=
  mkResults (total_rows r) (successful_inserts r + n) (validation_failures r)
    (duplicate_failures r) (existing_products r) (errors r).

Definition add_run_error (r : Results) (e : RunError) : Results :=
  mkResults (total_rows r) (successful_inserts r) (validation_failures r)
    (duplicate_failures r) (existing_products r) (errors r ++ [e]).

(** The variables the chunk loop carries from one chunk to the next,
    with the state of the transaction on [self.connection] and the
    exception that has left the loop, if any; [valid_data] is empty at
    the start of every chunk. *)
Record LoopState : Type := mkLoop {
  ls_results : Results;
  ls_batch_count : nat;
  ls_collator : Collator;
  ls_failed : bool;
  ls_raised : option PyExn
}.

(** The body of [for index, row in df_chunk.iterrows()]. *)
Definition process_row (metadata : gmap string MetaRow)
    (price_details : gmap string PriceRecord)
    (acc : list Dict * Results * Collator) (ir : nat * Row)
    : list Dict * Results * Collator :=
  let '(valid_data, results, st) := acc in
  let '(index, row) := ir in
  let '(row_result, st) :=
    validate_and_collate_row row index metadata price_details st in
  match row_result with
  | Valid collated_data => (valid_data ++ [collated_data], results, st)
  | Invalid row_errors _ =>
      (valid_data, add_validation_failure results,
       with_validation_error st
         {| ve_row_index := index;
            ve_product_id := row_get row "product_id" (VStr "Unknown");
            ve_errors := row_errors |})
  end.

(** One cell of [df_chunk[col].astype(str).str.strip()] *)
Definition stripped_cell (col : string) (ir : nat * Row) : string :=
  strip (Py.str (cell_val (default NaN (snd ir !! col)))).

(** [df_chunk[col].astype(str).str.strip().tolist()] *)
Definition stripped_column (df_chunk : list (nat * Row)) (col : string)
    : list string :=
  map (stripped_cell col) df_chunk.

(** The first half of the body of the chunk loop: the two batched
    lookups and the loop over the rows of the chunk. *)
Definition collect_chunk (ls : LoopState) (df_chunk : list (nat * Row))
    : list Dict * Results * Collator :=
  let product_ids_chunk := stripped_column df_chunk "product_id" in
  let item_codes_chunk :=
    filter (fun code => Is_true (PyStr.truthy code && negb (String.eqb code "nan")))
      (stripped_column df_chunk "item_code") in
  let st := ls_collator ls in
  let metadata := get_metadata_batch st (ls_failed ls) product_ids_chunk in
  let price_details := get_price_details_batch st item_codes_chunk in
  fold_left (process_row metadata price_details) df_chunk
    ([], ls_results ls, st).

(** The body of the chunk loop; once an exception has left the loop no
    further chunk is processed. *)
Definition process_chunk (ls : LoopState) (df_chunk : list (nat * Row))
    : LoopState :=
  match ls_raised ls with
  | Some _ => ls
  | None =>
      let '(valid_data, results, st) := collect_chunk ls df_chunk in
      match valid_data with
      | [] => mkLoop results (ls_batch_count ls) st (ls_failed ls) None
      | _ :: _ =>
          match insert_batch valid_data (ls_failed ls) st with
          | Ok (true, st, failed) =>
              mkLoop (add_successful_inserts results (length valid_data))
                (ls_batch_count ls + 1) st failed None
          | Ok (false, st, failed) =>
              mkLoop (add_run_error results
                        (FailedToInsertBatch (ls_batch_count ls + 1)))
                (ls_batch_count ls) st failed None
          | Raise e =>
              mkLoop results (ls_batch_count ls) st (ls_failed ls) (Some e)
          end
      end
  end.

(** What the run returns after the loop: the outer handler records the
    exception that left it. *)
Definition finish (ls : LoopState) : Results * Collator :=
  match ls_raised ls with
  | Some e => (add_run_error (ls_results ls) (CriticalError e), ls_collator ls)
  | None => (ls_results ls, ls_collator ls)
  end.

(** [range(0, stop, step)] for a positive [step] *)
Definition range_step (stop step : nat) : list nat :=
  map (fun i => i * step) (seq 0 ((stop + step - 1) / step)).

(** [df.iloc[a:b]] *)
Definition iloc (rows : list (nat * Row)) (a b : nat) : list (nat * Row) :=
  take (b - a) (drop a rows).

(** The chunks the loop visits, in order. *)
Definition chunks (rows : list (nat * Row)) (batch_size : nat)
    : list (list (nat * Row)) :=
  map (fun chunk_start =>
         iloc rows chunk_start (min (chunk_start + batch_size) (length rows)))
    (range_step (length rows) batch_size).

Definition empty_results : Results := mkResults 0 0 0 0 0 [].

(** The step "Check for duplicates in CSV", on the list the check
    returned. *)
Definition duplicate_step (results : Results) (df : DataFrame)
    (duplicates : list Cell) : Results * DataFrame :=
  match duplicates with
  | [] => (results, df)
  | _ =>
      (add_run_error
         (mkResults (total_rows results) (successful_inserts results)
            (validation_failures results) (length duplicates)
            (existing_products results) (errors results))
         (FoundDuplicateIds duplicates),
       drop_duplicates df)
  end.

(** The step "Check for existing products in catalogue table", on the
    list the check returned. *)
Definition existence_step (results : Results) (df : DataFrame)
    (existing : list string) : Results * DataFrame :=
  match existing with
  | [] => (results, df)
  | _ =>
      (mkResults (total_rows results) (successful_inserts results)
         (validation_failures results) (duplicate_failures results)
         (length existing) (errors results),
       drop_existing df existing)
  end.

(** The step "Process data in batches" and the end of the run.
    [range] raises for a step of 0 and is empty for a negative step; the
    column of the item codes is read in the first chunk. *)
Definition run_chunks (results : Results) (df : DataFrame) (failed : bool)
    (batch_size : Z) (st : Collator) : Results * Collator :=
  if (batch_size =? 0)%Z then
    (add_run_error results
       (CriticalError (mkExn ValueError "range() arg 3 must not be zero")), st)
  else
    let df_chunks :=
      if (batch_size <? 0)%Z then []
      else chunks (df_rows df) (Z.to_nat batch_size) in
    match df_chunks, df_column df "item_code" with
    | _ :: _, Raise e => (add_run_error results (CriticalError e), st)
    | _, _ =>
        finish (fold_left process_chunk df_chunks
                  (mkLoop results 0 st failed None))
    end.

(** [csv] is what [load_csv] returns ([None] when the file cannot be
    read), [connects] is what [connect_db] returns; the connections are
    new, so no transaction has failed when the run starts.  An exception
    inside the [try] ends the run in the outer handler, with the counters
    reached so far. *)
Definition collate_and_migrate (csv : option DataFrame) (connects : bool)
    (batch_size : Z) (st : Collator) : Results * Collator :=
  let results := empty_results in
  match csv with
  | None => (add_run_error results FailedToLoadCsv, st)
  | Some df =>
      let results :=
        mkResults (length (df_rows df)) 0 0 0 0 (errors results) in
      if negb connects then (add_run_error results FailedToConnect, st)
      else
        match check_duplicate_products df with
        | Raise e => (add_run_error results (CriticalError e), st)
        | Ok duplicates =>
            let '(results, df) := duplicate_step results df duplicates in
            let product_ids := map row_key (df_rows df) in
            let '(existing, failed) :=
              check_existing_products st false product_ids in
            let '(results, df) := existence_step results df existing in
            run_chunks results df failed batch_size st
        end
  end.

End DataCollator.

(** ** Instances of the interfaces and sample data *)

Module Sample.

Import PyStr.

(** The UTF-8 bytes of a code point. *)
Definition utf8 (n : N) : list ascii :=
  (if n <? 128 then [ascii_of_N n]
   else if n <? 2048 then
     [ascii_of_N (192 + n / 64); ascii_of_N (128 + n mod 64)]
   else if n <? 65536 then
     [ascii_of_N (224 + n / 4096); ascii_of_N (128 + (n / 64) mod 64);
      ascii_of_N (128 + n mod 64)]
   else
     [ascii_of_N (240 + n / 262144); ascii_of_N (128 + (n / 4096) mod 64);
      ascii_of_N (128 + (n / 64) mod 64); ascii_of_N (128 + n mod 64)])%N.

(** The code point at the head of a UTF-8 text, and the rest. *)
Definition decode_utf8 (l : list ascii) : option (N * list ascii) :=
  let byte c := N_of_ascii c in
  match l with
  | a :: r =>
      let n := byte a in
      (if n <? 128 then Some (n, r)
       else if n <? 224 then
         match r with
         | b :: r => Some ((n - 192) * 64 + (byte b - 128), r)
         | _ => None
         end
       else if n <? 240 then
         match r with
         | b :: c :: r =>
             Some ((n - 224) * 4096 + (byte b - 128) * 64 + (byte c - 128), r)
         | _ => None
         end
       else
         match r with
         | b :: c :: d :: r =>
             Some ((n - 240) * 262144 + (byte b - 128) * 4096
                   + (byte c - 128) * 64 + (byte d - 128), r)
         | _ => None
         end)%N
  | [] => None
  end.

(** A JSON document. *)
Inductive Json : Type :=
| JNull
| JBool (b : bool)
| JInt (z : Z)
| JFloat (f : PyFloat)
| JStr (s : string)
| JArr (l : list Json)
| JObj (members : list (string * Json)).

Definition is_json_space (c : ascii) : bool :=
  let n := code c in
  (n =? 32)%nat || (n =? 9)%nat || (n =? 10)%nat || (n =? 13)%nat.

Definition skip_blanks (l : list ascii) : list ascii :=
  lstrip_with is_json_space l.

Definition hex_value (c : ascii) : option N :=
  let n := N_of_ascii c in
  (if (48 <=? n) && (n <=? 57) then Some (n - 48)
   else if (97 <=? n) && (n <=? 102) then Some (n - 87)
   else if (65 <=? n) && (n <=? 70) then Some (n - 55)
   else None)%N.

(** The four hexadecimal digits of a [\u] escape. *)
Definition hex4 (l : list ascii) : option (N * list ascii) :=
  match l with
  | a :: b :: c :: d :: r =>
      match hex_value a, hex_value b, hex_value c, hex_value d with
      | Some x, Some y, Some z, Some w =>
          Some ((x * 4096 + y * 256 + z * 16 + w)%N, r)
      | _, _, _, _ => None
      end
  | _ => None
  end.

(** The characters of a string literal up to its closing quote.  A
    surrogate escape must be the first of a pair. *)
Fixpoint json_string_body (fuel : nat) (l : list ascii)
    : option (list ascii * list ascii) :=
  match fuel with
  | 0 => None
  | S fuel =>
      let continue (cs : list ascii) (r : list ascii) :=
        match json_string_body fuel r with
        | Some (s, rest) => Some (cs ++ s, rest)
        | None => None
        end in
      match l with
      | [] => None
      | c :: r =>
          if Ascii.eqb c dquote then Some ([], r)
          else if (code c <? 32)%nat then None
          else if Ascii.eqb c backslash then
            match r with
            | e :: r =>
                if Ascii.eqb e dquote || Ascii.eqb e backslash
                   || Ascii.eqb e "/"%char then continue [e] r
                else if Ascii.eqb e "b"%char then continue [ascii_of_nat 8] r
                else if Ascii.eqb e "f"%char then continue [ascii_of_nat 12] r
                else if Ascii.eqb e "n"%char then continue [ascii_of_nat 10] r
                else if Ascii.eqb e "r"%char then continue [ascii_of_nat 13] r
                else if Ascii.eqb e "t"%char then continue [ascii_of_nat 9] r
                else if Ascii.eqb e "u"%char then
                  match hex4 r with
                  | Some (n, r) =>
                      if (55296 <=? n)%N && (n <=? 56319)%N then
                        match r with
                        | b :: u :: r =>
                            if Ascii.eqb b backslash && Ascii.eqb u "u"%char then
                              match hex4 r with
                              | Some (m, r) =>
                                  if (56320 <=? m)%N && (m <=? 57343)%N
                                  then continue
                                         (utf8 (65536 + (n - 55296) * 1024
                                                + (m - 56320))%N) r
                                  else None
                              | None => None
                              end
                            else None
                        | _ => None
                        end
                      else if (56320 <=? n)%N && (n <=? 57343)%N then None
                      else continue (utf8 n) r
                  | None => None
                  end
                else None
            | [] => None
            end
          else continue [c] r
      end
  end.

(** The characters of a number, and the rest. *)
Fixpoint number_chars (l : list ascii) : list ascii * list ascii :=
  match l with
  | c :: r =>
      if Py.is_digit c || Ascii.eqb c "-"%char || Ascii.eqb c "+"%char
         || Ascii.eqb c "."%char || Ascii.eqb c "e"%char || Ascii.eqb c "E"%char
      then let '(n, rest) := number_chars r in (c :: n, rest)
      else ([], l)
  | [] => ([], [])
  end.

(** The longest prefix whose characters satisfy [f], and the rest. *)
Fixpoint span (f : ascii -> bool) (l : list ascii) : list ascii * list ascii :=
  match l with
  | c :: r =>
      if f c then let '(p, rest) := span f r in (c :: p, rest) else ([], l)
  | [] => ([], [])
  end.

Definition all_digits (l : list ascii) : bool :=
  match l with
  | [] => false
  | _ => forallb Py.is_digit l
  end.

(** A number: an optional minus, an integer part without leading zero,
    an optional fraction and an optional exponent; it is an integer when
    it has neither fraction nor exponent. *)
Definition json_number (l : list ascii) : option Json :=
  let '(neg, r) := match l with
                   | c :: r => if Ascii.eqb c "-"%char then (true, r) else (false, l)
                   | [] => (false, [])
                   end in
  let is_exp c := Ascii.eqb c "e"%char || Ascii.eqb c "E"%char in
  let '(mantissa, exponent) := span (fun c => negb (is_exp c)) r in
  let '(int_part, fraction) :=
    span (fun c => negb (Ascii.eqb c "."%char)) mantissa in
  let int_ok :=
    all_digits int_part
    && match int_part with
       | c :: _ :: _ => negb (Ascii.eqb c "0"%char)
       | _ => true
       end in
  let fraction_ok :=
    match fraction with
    | [] => true
    | _ :: ds => all_digits ds
    end in
  let exponent_ok :=
    match exponent with
    | [] => true
    | _ :: s :: ds =>
        if Ascii.eqb s "-"%char || Ascii.eqb s "+"%char then all_digits ds
        else all_digits (s :: ds)
    | [_] => false
    end in
  if int_ok && fraction_ok && exponent_ok then
    match fraction, exponent with
    | [], [] =>
        let n := Z.of_N (Py.digits_value (map Py.digit_val int_part)) in
        Some (JInt (if neg then (- n)%Z else n))
    | _, _ =>
        match Py.parse_unsigned r with
        | Some (Py.LitDec m e) => Some (JFloat (Py.binary64_round neg m e))
        | _ => None
        end
    end
  else None.

Definition starts_with (word : string) (l : list ascii) : option (list ascii) :=
  let w := chars word in
  if bool_decide (take (length w) l = w) then Some (drop (length w) l) else None.

(** Sets the value of a key of an object, at the place of its first
    occurrence. *)
Fixpoint set_member (k : string) (v : Json) (members : list (string * Json))
    : list (string * Json) :=
  match members with
  | [] => [(k, v)]
  | (k', v') :: rest =>
      if String.eqb k' k then (k, v) :: rest
      else (k', v') :: set_member k v rest
  end.

(** A value, after blanks; [json_items] reads the elements of an array
    after its bracket or a comma, [json_members] the members of an
    object. *)
Fixpoint json_value (fuel : nat) (l : list ascii) : option (Json * list ascii) :=
  match fuel with
  | 0 => None
  | S fuel =>
      match skip_blanks l with
      | [] => None
      | c :: r =>
          if Ascii.eqb c dquote then
            match json_string_body (length r) r with
            | Some (s, rest) => Some (JStr (of_chars s), rest)
            | None => None
            end
          else if Ascii.eqb c lbracket then
            match skip_blanks r with
            | d :: r' =>
                if Ascii.eqb d rbracket then Some (JArr [], r')
                else json_items fuel r []
            | [] => None
            end
          else if Ascii.eqb c lbrace then
            match skip_blanks r with
            | d :: r' =>
                if Ascii.eqb d rbrace then Some (JObj [], r')
                else json_members fuel r []
            | [] => None
            end
          else
            match starts_with "null" (c :: r), starts_with "true" (c :: r),
                  starts_with "false" (c :: r), starts_with "NaN" (c :: r),
                  starts_with "Infinity" (c :: r),
                  starts_with "-Infinity" (c :: r) with
            | Some rest, _, _, _, _, _ => Some (JNull, rest)
            | _, Some rest, _, _, _, _ => Some (JBool true, rest)
            | _, _, Some rest, _, _, _ => Some (JBool false, rest)
            | _, _, _, Some rest, _, _ => Some (JFloat FNaN, rest)
            | _, _, _, _, Some rest, _ => Some (JFloat (FInf false), rest)
            | _, _, _, _, _, Some rest => Some (JFloat (FInf true), rest)
            | None, None, None, None, None, None =>
                let '(n, rest) := number_chars (c :: r) in
                match json_number n with
                | Some v => Some (v, rest)
                | None => None
                end
            end
      end
  end
with json_items (fuel : nat) (l : list ascii) (acc : list Json)
    : option (Json * list ascii) :=
  match fuel with
  | 0 => None
  | S fuel =>
      match json_value fuel l with
      | Some (v, rest) =>
          match skip_blanks rest with
          | d :: r =>
              if Ascii.eqb d comma then json_items fuel r (acc ++ [v])
              else if Ascii.eqb d rbracket then Some (JArr (acc ++ [v]), r)
              else None
          | [] => None
          end
      | None => None
      end
  end
with json_members (fuel : nat) (l : list ascii) (acc : list (string * Json))
    : option (Json * list ascii) :=
  match fuel with
  | 0 => None
  | S fuel =>
      match skip_blanks l with
      | q :: r =>
          if Ascii.eqb q dquote then
            match json_string_body (length r) r with
            | Some (k, rest) =>
                match skip_blanks rest with
                | colon :: r =>
                    if Ascii.eqb colon ":"%char then
                      match json_value fuel r with
                      | Some (v, rest) =>
                          let acc := set_member (of_chars k) v acc in
                          match skip_blanks rest with
                          | d :: r =>
                              if Ascii.eqb d comma then json_members fuel r acc
                              else if Ascii.eqb d rbrace then Some (JObj acc, r)
                              else None
                          | [] => None
                          end
                      | None => None
                      end
                    else None
                | [] => None
                end
            | None => None
            end
          else None
      | [] => None
      end
  end.

(** [repr] of a double with an integral value, as for [3.0]. *)
Definition integral_float_repr (mant exp : Z) : string :=
  of_Z (if (0 <=? exp)%Z then (mant * 2 ^ exp)%Z else Z.quot mant (2 ^ (- exp)))
  +:+ ".0".

Definition sample_float_str (f : PyFloat) : string :=
  match f with
  | FNaN => "nan"
  | FInf false => "inf"
  | FInf true => "-inf"
  | FNum m e => integral_float_repr m e
  end.

(** The Python value of a document; a dictionary is known by its [repr]
    and its truth value. *)
Fixpoint json_repr (j : Json) : string :=
  match j with
  | JNull => "None"
  | JBool true => "True"
  | JBool false => "False"
  | JInt z => of_Z z
  | JFloat f => sample_float_str f
  | JStr s => Py.repr_str s
  | JArr l => "[" +:+ join ", " (map json_repr l) +:+ "]"
  | JObj members =>
      "{" +:+ join ", " (map (fun kv => Py.repr_str (fst kv) +:+ ": "
                                        +:+ json_repr (snd kv)) members)
      +:+ "}"
  end.

Fixpoint json_python (j : Json) : PyVal :=
  match j with
  | JNull => VNone
  | JBool b => VBool b
  | JInt z => VInt z
  | JFloat f => VFloat f
  | JStr s => VStr s
  | JArr l => VList (map json_python l)
  | JObj members =>
      VOther (json_repr j) (match members with [] => false | _ => true end)
  end.

(** [json.loads]: one value between blanks. *)
Definition sample_json_loads (s : string) : result PyVal :=
  let undecodable := Raise (mkExn JSONDecodeError "Expecting value") in
  let l := chars s in
  match json_value (2 * length l + 2) l with
  | Some (j, rest) =>
      match skip_blanks rest with
      | [] => Ok (json_python j)
      | _ => undecodable
      end
  | None => undecodable
  end.

(** [s.lower()] on the letters of the ASCII and Latin-1 ranges; other
    characters are kept. *)
Fixpoint lower_latin1 (l : list ascii) : list ascii :=
  match l with
  | a :: r =>
      if (code a =? 195)%nat then
        match r with
        | b :: r' =>
            if (128 <=? code b)%nat && (code b <=? 158)%nat
               && negb (code b =? 151)%nat
            then a :: ascii_of_nat (code b + 32) :: lower_latin1 r'
            else a :: b :: lower_latin1 r'
        | [] => [a]
        end
      else lower_char a :: lower_latin1 r
  | [] => []
  end.

(** The first decimal digit of each run of ten decimal digits of
    Unicode 14. *)
Definition decimal_zeros : list N :=
  [48; 1632; 1776; 1984; 2406; 2534; 2662; 2790; 2918; 3046; 3174; 3302;
   3430; 3558; 3664; 3792; 3872; 4160; 4240; 6112; 6160; 6470; 6608; 6784;
   6800; 6992; 7088; 7232; 7248; 42528; 43216; 43264; 43472; 43504; 43600;
   44016; 65296; 66720; 68912; 69734; 69872; 69942; 70096; 70384; 70736;
   70864; 71248; 71360; 71472; 71904; 72016; 72784; 73040; 73120; 92768;
   92864; 93008; 120782; 120792; 120802; 120812; 120822; 123200; 123632;
   125264; 130032]%N.

Definition unicode_space (n : N) : bool :=
  ((n =? 133) || (n =? 160) || (n =? 5760)
   || ((8192 <=? n) && (n <=? 8202)) || (n =? 8232)
   || (n =? 8233) || (n =? 8239) || (n =? 8287) || (n =? 12288))%N.

(** What [float] makes of a text before reading it: characters below
    127 are kept, blanks become spaces, decimal digits their ASCII
    digit, and the text ends with a question mark at any other
    character. *)
Fixpoint ascii_translation (fuel : nat) (l : list ascii) : list ascii :=
  match fuel with
  | 0 => []
  | S fuel =>
      match decode_utf8 l with
      | None => match l with [] => [] | _ => ["?"%char] end
      | Some (n, rest) =>
          if (n <? 127)%N then ascii_of_N n :: ascii_translation fuel rest
          else if unicode_space n then " "%char :: ascii_translation fuel rest
          else
            match find (fun z => (z <=? n)%N && (n <? z + 10)%N) decimal_zeros with
            | Some z => ascii_of_N (48 + (n - z)) :: ascii_translation fuel rest
            | None => ["?"%char]
            end
      end
  end.

Definition sample_unicode_float (s : string) : option PyFloat :=
  let l := chars s in
  match Py.parse_float (of_chars (ascii_translation (length l) l)) with
  | Some (_, Py.LitNaN) => Some FNaN
  | Some (neg, Py.LitInf) => Some (FInf neg)
  | Some (neg, Py.LitDec m e) => Some (Py.binary64_round neg m e)
  | None => None
  end.

Definition runtime : PyRuntime :=
  {| round_double := Py.binary64_round;
     float_repr := integral_float_repr;
     unicode_lower := fun s => of_chars (lower_latin1 (chars s));
     unicode_float := sample_unicode_float;
     json_loads := sample_json_loads;
     datetime_now := VOther "2025-01-01 00:00:00" true;
     timestamp_now := "2025-01-01 00:00:00" |}.

(** A destination table without constraints. *)
Definition unconstrained : Catalogue :=
  {| row_accepted := fun _ _ _ => true;
     commit_accepted := fun _ _ => true;
     rollback_raises := fun _ _ => None |}.

(** A destination table whose [name] column is NOT NULL. *)
Definition name_not_null : Catalogue :=
  {| row_accepted := fun _ _ row =>
       match dict_get row "name" with
       | VNone => false
       | _ => true
       end;
     commit_accepted := fun _ _ => true;
     rollback_raises := fun _ _ => None |}.

(** The same table behind a connection that is lost at the first
    refused row: the rollback raises. *)
Definition name_not_null_lost : Catalogue :=
  {| row_accepted := fun _ _ row =>
       match dict_get row "name" with
       | VNone => false
       | _ => true
       end;
     commit_accepted := fun _ _ => true;
     rollback_raises := fun _ _ =>
       Some (mkExn OtherException "the connection is lost") |}.

Definition csv_row (product_id item_code : Cell) : Row :=
  <["product_id" := product_id]> (<["item_code" := item_code]> ∅).

Definition csv_row_with (product_id item_code inventory location : Cell) : Row :=
  <["Store Inventory" := inventory]>
    (<["Location" := location]> (csv_row product_id item_code)).

Definition frame (rows : list Row) : DataFrame :=
  mkDataFrame ["product_id"; "item_code"] (imap (fun i r => (i, r)) rows).

Definition frame_with (rows : list Row) : DataFrame :=
  mkDataFrame ["product_id"; "item_code"; "Store Inventory"; "Location"]
    (imap (fun i r => (i, r)) rows).

(** The columns of the SELECT of [get_metadata_batch]. *)
Definition selected_columns : list string :=
  ["product_id"] ++ removelast metadata_columns_head
  ++ ["distributor_mrp"; "plazza_selling_price_incl_gst";
      "effective_customer_discount"; "distributor"; "plazza_price_pack";
      "fulfilled_by"]
  ++ metadata_columns_tail.

(** A record with every selected column, NULL but for the product id
    and the name. *)
Definition unnamed_product (product_id : string) : MetaRow :=
  mkMetaRow product_id
    (<["product_id" := VStr product_id]>
       (fold_right (fun col fields => <[col := VNone]> fields) ∅
          selected_columns)).

Definition product (product_id name : string) : MetaRow :=
  mkMetaRow product_id
    (<["name" := VStr name]> (meta_fields (unnamed_product product_id))).

Definition price (item_code : string) (original_item_code : option string)
    : PriceRow :=
  {| pr_item_code := Some item_code;
     pr_product_name := None;
     pr_manufacturer := None;
     pr_mrp := Some (mkDecimal false 1250 (-2));
     pr_purchase_rate := None;
     pr_gst_rate := Some (mkDecimal false 12 0);
     pr_plazza_selling_price_incl_gst := None;
     pr_effective_customer_discount := None;
     pr_distributor := Some "D1";
     pr_hsn_code := None;
     pr_original_item_code := original_item_code |}.

Definition collator (table : list Dict) (products : list MetaRow)
    (prices : list PriceRow) : Collator :=
  mkCollator table products prices [] [] 0 0.

(** A reference store with three products, one of them unnamed, and a
    price for each under a lowercase code. *)
Definition references : Collator :=
  collator []
    [product "P1" "Paracetamol"; unnamed_product "P2"; product "P3" "Ibuprofen"]
    [price "x1" None; price "x2" None; price "x3" (Some "alt3")].

(** Four rows: an unknown product, then the three products. *)
Definition four_rows : DataFrame :=
  frame [csv_row (Str "P0") (Str "X0"); csv_row (Str "P1") (Str "X1");
         csv_row (Str "P2") (Str "X2"); csv_row (Str "P3") (Str "X3")].

(** Three rows: an unknown product and the two named products. *)
Definition three_rows : DataFrame :=
  frame [csv_row (Str "P0") (Str "X0"); csv_row (Str "P1") (Str "X1");
         csv_row (Str "P3") (Str "X3")].

(** Three rows in which the unnamed product comes second. *)
Definition refused_second : DataFrame :=
  frame [csv_row (Str "P1") (Str "X1"); csv_row (Str "P2") (Str "X2");
         csv_row (Str "P3") (Str "X3")].

(** Four rows in which the unnamed product comes last. *)
Definition refused_last : DataFrame :=
  frame [csv_row (Str "P0") (Str "X0"); csv_row (Str "P1") (Str "X1");
         csv_row (Str "P3") (Str "X3"); csv_row (Str "P2") (Str "X2")].

(** The product id [P1] followed by a no-break space, U+00A0. *)
Definition padded_id : string := "P1" +:+ PyStr.of_chars (utf8 160).

Definition padded_row : DataFrame :=
  frame [csv_row (Str padded_id) (Str "X1")].

(** Two rows whose item codes differ by the case of a letter only. *)
Definition case_variants : DataFrame :=
  frame [csv_row (Str "P1") (Str "x1"); csv_row (Str "P3") (Str "X1")].

(** One row, for the unnamed product. *)
Definition unnamed_row : DataFrame :=
  frame [csv_row (Str "P2") (Str "X2")].

End Sample.


(** ** Notions used in the statements *)

Section Notions.
Context `{PyRuntime} `{Catalogue}.

Import PyStr.

(** The two identifiers as [validate_and_collate_row] reads them. *)
Definition row_product_id (row : Row) : string :=
  strip (Py.str (row_get row "product_id" (VStr ""))).

Definition row_item_code (row : Row) : string :=
  strip (Py.str (row_get row "item_code" (VStr ""))).

(** The reference tables of two collators are the same. *)
Definition same_references (st st' : Collator) : Prop :=
  original_all_products st' = original_all_products st
  /\ distributor_master_list st' = distributor_master_list st.

(** The product ids stored in the destination table. *)
Definition stored_ids (table : list Dict) : list string :=
  omap (fun row =>
          match dict_get row "product_id" with
          | VStr p => Some p
          | _ => None
          end) table.

(** A location token as the normaliser returns it: not empty, without
    blanks around it, and without comma. *)
Definition trimmed_token (t : string) : Prop :=
  t <> "" /\ strip t = t /\ contains comma t = false.

(** A text that is neither stripped of braces nor read as a JSON array:
    it does not start or end with a brace and, when it is wrapped in
    brackets, [json.loads] gives no list for it and fails on it by a
    decode error only. *)
Definition bare (s : string) : Prop :=
  strip_braces s = s
  /\ (startswith lbracket s && endswith rbracket s = true ->
      match json_loads s with
      | Ok (VList _) => False
      | Ok _ => True
      | Raise e => exn_kind e = JSONDecodeError
      end).

(** The three encodings of a sequence of locations. *)
Definition comma_encoding (tokens : list string) : string :=
  join "," tokens.

Definition brace_encoding (tokens : list string) : string :=
  "{" +:+ join "," tokens +:+ "}".

Definition json_encoding (tokens : list string) : string :=
  "[" +:+ join "," (map (fun t => String dquote (t +:+ String dquote "")) tokens)
  +:+ "]".

Definition empty_collator : Collator := mkCollator [] [] [] [] [] 0 0.

(** What [validate_and_collate_row] answers for a row of a chunk, given
    the two mappings fetched for the chunk. *)
Definition verdict (metadata : gmap string MetaRow)
    (price_details : gmap string PriceRecord) (ir : nat * Row) : RowResult :=
  fst (validate_and_collate_row (snd ir) (fst ir) metadata price_details
         empty_collator).

Definition valid_dict (metadata : gmap string MetaRow)
    (price_details : gmap string PriceRecord) (ir : nat * Row) : option Dict :=
  match verdict metadata price_details ir with
  | Valid collated_data => Some collated_data
  | Invalid _ _ => None
  end.

(** The rows [insert_batch] hands to the store: each record read along
    the columns of the first one. *)
Definition batch_rows (valid_data : list Dict) : list Dict :=
  match valid_data with
  | [] => []
  | first :: _ =>
      map (fun row_data =>
             map (fun col => (col, dict_get row_data col)) (map fst first))
        valid_data
  end.

(** The store refuses a batch, for any reason: the transaction had
    failed before, a row is refused, or the commit is. *)
Definition batch_refused (valid_data : list Dict) (failed : bool)
    (st : Collator) : Prop :=
  failed = true
  \/ executemany (catalogue st) [] (batch_rows valid_data) = None
  \/ commit_accepted (catalogue st) (batch_rows valid_data) = false.

(** The keys a chunk sends to the two resolvers. *)
Definition chunk_product_ids (df_chunk : list (nat * Row)) : list string :=
  stripped_column df_chunk "product_id".

Definition chunk_item_codes (df_chunk : list (nat * Row)) : list string :=
  filter (fun code => Is_true (PyStr.truthy code && negb (String.eqb code "nan")))
    (stripped_column df_chunk "item_code").

(** The merged records a chunk yields, in row order. *)
Definition chunk_valid_data (st : Collator) (failed : bool)
    (df_chunk : list (nat * Row)) : list Dict :=
  omap (valid_dict (get_metadata_batch st failed (chunk_product_ids df_chunk))
          (get_price_details_batch st (chunk_item_codes df_chunk)))
    df_chunk.

(** The codes [get_price_details_batch] keeps from its argument, cleaned. *)
Definition kept_codes (item_codes : list string) : list string :=
  omap (fun code =>
          if PyStr.truthy code && PyStr.truthy (strip code)
          then Some (strip code) else None) item_codes.

(** No two kept codes differ only by the case of their letters. *)
Definition case_consistent (codes : list string) : Prop :=
  forall c c', c ∈ codes -> c' ∈ codes -> lower c = lower c' -> c = c'.

(** A record of the price table answers to the code [k]: its canonical
    or its alternate code, lowercased, is [k] lowercased. *)
Definition answers_to (row : PriceRow) (k : string) : Prop :=
  exists f,
    (pr_item_code row = Some f \/ pr_original_item_code row = Some f)
    /\ f <> "" /\ lower f = lower k.

(** Under the code mapping, a record of the price table is stored under
    the key [k]. *)
Definition binds (code_mapping : gmap string string) (row : PriceRow)
    (k : string) : Prop :=
  exists f,
    (pr_item_code row = Some f \/ pr_original_item_code row = Some f)
    /\ PyStr.truthy f = true
    /\ code_mapping !! lower f = Some k
    /\ PyStr.truthy k = true.





(** The item codes of the rows, as the chunks send them to the resolver,
    are case consistent. *)
Definition codes_case_consistent (rows : list (nat * Row)) : Prop :=
  case_consistent (map (stripped_cell "item_code") rows).

(** A row that can be merged: both identifiers present, a metadata
    record for the product id, a price record answering to the item
    code, and a normalisation without note. *)
Definition eligible (st : Collator) (row : Row) : Prop :=
  row_product_id row <> ""
  /\ row_item_code row <> ""
  /\ (exists m, m ∈ original_all_products st
                /\ meta_product_id m = row_product_id row)
  /\ (row_item_code row <> "nan"
      /\ exists r, r ∈ distributor_master_list st
                   /\ answers_to r (row_item_code row))
  /\ exists q l, process_inventory_and_location row [] = Ok (q, l, []).

(** What the validator answers for a row whatever chunk it comes in,
    while the queries succeed: its answer when the row is a chunk of its
    own. *)
Definition accepts (st : Collator) (ir : nat * Row) : bool :=
  is_valid
    (verdict (get_metadata_batch st false (chunk_product_ids [ir]))
       (get_price_details_batch st (chunk_item_codes [ir])) ir).

(** The note on an inventory value: none for a blank value, the format
    note when its text is not a number (a NaN included), the note on
    negative quantities when the number truncates below 0; an infinity
    gets none, the conversion raises. *)
Definition inventory_notes_of (value : PyVal) : list string :=
  if Py.isna_scalar value || Py.eq_str value ""
     || is_empty (strip (Py.str value))
  then []
  else
    match f <- Py.float_of_str (Py.str value) ;; Py.int_of_float f with
    | Ok q =>
        if (q <? 0)%Z then ["Inventory quantity cannot be negative"] else []
    | Raise e =>
        if is_value_or_type_error e
        then ["Invalid inventory quantity format: " +:+ Py.str value]
        else []
    end.

(** The note on a location value: only for a text that, trimmed and
    without its outer braces, is wrapped in brackets and on which
    [json.loads] raises something else than a decode error. *)
Definition location_notes_of (value : PyVal) : list string :=
  match value with
  | VStr s =>
      let text := strip_braces (strip s) in
      if String.eqb s "" || String.eqb s "nan" then []
      else if startswith lbracket text && endswith rbracket text then
        match json_loads text with
        | Raise e =>
            match exn_kind e with
            | JSONDecodeError => []
            | _ => ["Invalid location format: " +:+ exn_msg e]
            end
        | Ok _ => []
        end
      else []
  | _ => []
  end.

(** The notes on the two cells of a row. *)
Definition inventory_notes (row : Row) : list string :=
  inventory_notes_of (row_get row "Store Inventory" (VInt 0)).

Definition location_notes (row : Row) : list string :=
  location_notes_of (row_get row "Location" (VStr "")).

(** The keys [check_duplicate_products] reports. *)
Definition duplicated_keys (df : DataFrame) : list Cell :=
  filter (fun k => 1 < occurrences k (map row_key (df_rows df)))
    (map row_key (df_rows df)).

(** The frame after the duplicate step of the run. *)
Definition deduplicated (df : DataFrame) : DataFrame :=
  match duplicated_keys df with
  | [] => df
  | _ => drop_duplicates df
  end.

(** The keys sent to the existence check. *)
Definition checked_keys (df : DataFrame) : list Cell :=
  map row_key (df_rows (deduplicated df)).

(** The existence query on these keys fails: there is no key, or one
    of them is the missing marker. *)
Definition query_fails (keys : list Cell) : bool :=
  match keys with
  | [] => true
  | _ => bool_decide (NaN ∈ keys)
  end.

(** The ids the existence check returns on a new connection when the
    destination holds [table]. *)
Definition existing_ids (table : list Dict) (keys : list Cell) : list string :=
  if query_fails keys then [] else select_existing table (cell_strings keys).

(** The rows left for the chunk loop when the destination holds
    [table]. *)
Definition surviving (table : list Dict) (df : DataFrame) : list (nat * Row) :=
  filter (fun ir =>
            isin (existing_ids table (checked_keys df)) (row_key ir) = false)
    (df_rows (deduplicated df)).

End Notions.

(** ** The connection string and the skipped-rows file *)

Section Connection.

Import PyStr.

(** One [if cfg.get(key): parts.append(f"{key}={cfg[key]}")] *)
Definition conninfo_part (cfg : gmap string string) (key : string)
    : list string :=
  match cfg !! key with
  | Some v => if PyStr.truthy v then [key +:+ "=" +:+ v] else []
  | None => []
  end.

(** [a or b] on two [cfg.get] results *)
Definition or_get (a b : option string) : option string :=
  match a with
  | Some v => if PyStr.truthy v then a else b
  | None => b
  end.

(** [build_conninfo], local to [connect_db] *)
Definition build_conninfo (cfg : gmap string string) : string :=
  let dbname := or_get (cfg !! "dbname") (cfg !! "database") in
  join " "
    (conninfo_part cfg "host"
     ++ conninfo_part cfg "port"
     ++ match dbname with
        | Some d => if PyStr.truthy d then ["dbname=" +:+ d] else []
        | None => []
        end
     ++ conninfo_part cfg "user"
     ++ conninfo_part cfg "password"
     ++ conninfo_part cfg "sslmode"
     ++ conninfo_part cfg "sslrootcert").

(** The dictionary [add_error] puts on the queue: the three keys the
    validator gives, then the four [add_error] sets. *)
Definition rejection_dict (r : RejectionRecord) : Dict :=
  [("product_id", VStr (rej_product_id r));
   ("item_code", VStr (rej_item_code r));
   ("name", rej_name r);
   ("error_timestamp", VStr (rej_error_timestamp r));
   ("error_type", VStr (rej_error_type r));
   ("error_details", VStr (rej_error_details r));
   ("status", VStr (rej_status r))].

(** The column order of the skipped-rows file. *)
Definition error_columns : list string :=
  ["product_id"; "item_code"; "name"; "error_timestamp"; "error_type";
   "error_details"; "status"].

(** A line of the skipped-rows file, as the table [to_csv] writes: the
    header or the cells of one record. *)
Inductive CsvLine : Type :=
| Header (columns : list string)
| Data (cells : list PyVal).

(** [ErrorLogger._write_to_csv]; the file is [None] while it does not
    exist.  A column the dictionary lacks is filled with [None], the
    columns are put in the fixed order, the header is written when the
    file is created. *)
Definition _write_to_csv (file : option (list CsvLine)) (error_dict : Dict)
    : option (list CsvLine) :=
  let line := Data (map (fun col => dict_get error_dict col) error_columns) in
  match file with
  | Some lines => Some (lines ++ [line])
  | None => Some [Header error_columns; line]
  end.

(** The [ErrorLogger] object with its file and its worker thread. *)
Record Logger : Type := mkLogger {
  lg_queue : list Dict;
  lg_error_rows : list Dict;
  lg_file : option (list CsvLine);
  lg_stop_event : bool;
  lg_worker_alive : bool
}.

(** A freshly built logger: nothing queued, no file yet, the worker
    started. *)
Definition new_logger : Logger := mkLogger [] [] None false true.

(** The atomic steps of the logger and of its users: [queue.put] by a
    caller of [add_error]; one turn of [_process_errors] that gets a
    dictionary; [stop_event.set()]; the exit of [_process_errors], whose
    loop ends when the event is set and the queue is empty; one turn of
    the draining loop of [stop] after the join. *)
Inductive LoggerAction : Type :=
| Put (error_dict : Dict)
| Process
| SetStop
| Exit
| Drain.

(** One step; [None] when the step cannot be taken in this state.
    Writing to the file is taken not to fail. *)
Definition logger_step (lg : Logger) (a : LoggerAction) : option Logger :=
  match a with
  | Put e =>
      Some (mkLogger (lg_queue lg ++ [e]) (lg_error_rows lg) (lg_file lg)
              (lg_stop_event lg) (lg_worker_alive lg))
  | Process =>
      if lg_worker_alive lg then
        match lg_queue lg with
        | e :: rest =>
            Some (mkLogger rest (lg_error_rows lg ++ [e])
                    (_write_to_csv (lg_file lg) e)
                    (lg_stop_event lg) true)
        | [] => None
        end
      else None
  | SetStop =>
      Some (mkLogger (lg_queue lg) (lg_error_rows lg) (lg_file lg) true
              (lg_worker_alive lg))
  | Exit =>
      if lg_worker_alive lg && lg_stop_event lg then
        match lg_queue lg with
        | [] => Some (mkLogger [] (lg_error_rows lg) (lg_file lg) true false)
        | _ :: _ => None
        end
      else None
  | Drain =>
      if negb (lg_worker_alive lg) && lg_stop_event lg then
        match lg_queue lg with
        | e :: rest =>
            Some (mkLogger rest (lg_error_rows lg)
                    (_write_to_csv (lg_file lg) e) true false)
        | [] => None
        end
      else None
  end.

(** A run of the logger along a schedule of steps. *)
Fixpoint logger_run (lg : Logger) (schedule : list LoggerAction)
    : option Logger :=
  match schedule with
  | [] => Some lg
  | a :: rest =>
      match logger_step lg a with
      | Some lg' => logger_run lg' rest
      | None => None
      end
  end.

(** The dictionaries a schedule puts on the queue, in order. *)
Definition puts (schedule : list LoggerAction) : list Dict :=
  omap (fun a => match a with Put e => Some e | _ => None end) schedule.

(** The line of the file for a dictionary. *)
Definition error_line (error_dict : Dict) : CsvLine :=
  Data (map (fun col => dict_get error_dict col) error_columns).

(** The lines the file should hold for the given dictionaries. *)
Definition error_file (dicts : list Dict) : option (list CsvLine) :=
  match dicts with
  | [] => None
  | _ => Some (Header error_columns :: map error_line dicts)
  end.

End Connection.

(** ** Further notions *)

Section MoreNotions.
Context `{PyRuntime} `{Catalogue}.

Import PyStr.

(** The keys of every merged record, in order. *)
Definition merged_columns : list string :=
  ["product_id"; "dist_item_code"]
  ++ metadata_columns_head ++ ["fulfilled_by"] ++ metadata_columns_tail
  ++ ["inventory_quantity"; "location"; "distributor_mrp";
      "plazza_selling_price_incl_gst"; "effective_customer_discount";
      "distributor"; "gst_rate"; "hsn_code"; "updated_at"; "created_at";
      "c1"; "c2"; "c3"; "c4"; "c5";
      "product_category_name"; "product_category_id";
      "product_use_case_name"; "product_use_case_id";
      "product_sub_category_id"; "product_sub_category_name"].

(** The rows skipped for a missing reference record. *)
Definition skipped (st : Collator) : nat :=
  skipped_no_metadata st + skipped_no_pricing st.

(** The first row of [rows] with the key of [ir] is [ir]. *)
Definition first_with_key (rows : list (nat * Row)) (ir : nat * Row) : Prop :=
  exists before after,
    rows = before ++ ir :: after /\ row_key ir ∉ map row_key before.

End MoreNotions.

(** A configuration like those of [main], with both database keys. *)
Definition sample_config : gmap string string :=
  <["host" := "127.0.0.1"]>
    (<["port" := "5433"]>
       (<["database" := "defaultdb"]>
          (<["user" := "postgres"]>
             (<["password" := ""]> (<["sslmode" := "verify-ca"]> ∅))))).

(** Two queued rejections and a schedule in which the worker writes the
    first and [stop] drains the second. *)
Definition sample_rejection (product_id : string) : RejectionRecord :=
  mkRejection product_id "X1" (VStr "") "2024-01-01 00:00:00"
    "Missing Metadata" "not found" "Skipped".

Definition sample_schedule : list LoggerAction :=
  [Put (rejection_dict (sample_rejection "P1")); Process; SetStop; Exit;
   Put (rejection_dict (sample_rejection "P2")); Drain].

(** Three rows, the first and the last with the same product id. *)
Definition repeated_rows : DataFrame :=
  Sample.frame
    [Sample.csv_row (Str "P1") (Str "X1"); Sample.csv_row (Str "P2") (Str "X2");
     Sample.csv_row (Str "P1") (Str "X3")].

(** * Verification *)

Arguments collate : simpl never.
Arguments validate_and_collate_row : simpl never.
Arguments get_metadata_batch : simpl never.
Arguments get_price_details_batch : simpl never.
Arguments insert_batch : simpl never.

(** Closes a goal [errors r = [] -> _] when [r] holds an error entry. *)
Ltac error_recorded :=
  simpl; let Herr := fresh "Herr" in
  intros Herr;
  first [ discriminate Herr
        | by apply app_eq_nil in Herr as [_ ?] ].

(** ** The row loop and the writer *)

Section Loop.
Context `{PyRuntime} `{Catalogue}.

Lemma validate_and_collate_row_tables row idx md pd st :
  let st' := snd (validate_and_collate_row row idx md pd st) in
  catalogue st' = catalogue st /\ same_references st st'.
Proof.
  unfold validate_and_collate_row, same_references.
  repeat case_match; simpl; auto.
Qed.

(** The verdict does not depend on the collator. *)
Lemma validate_and_collate_row_verdict row idx md pd st st' :
  fst (validate_and_collate_row row idx md pd st)
  = fst (validate_and_collate_row row idx md pd st').
Proof.
  unfold validate_and_collate_row.
  repeat case_match; simpl; auto.
Qed.

(** Both normalisers only append to the [errors] list they are given. *)
Lemma _validate_inventory_quantity_errors value errs :
  _validate_inventory_quantity value errs
  = match _validate_inventory_quantity value [] with
    | Ok (q, notes) => Ok (q, errs ++ notes)
    | Raise e => Raise e
    end.
Proof.
  unfold _validate_inventory_quantity, bind.
  repeat case_match; simplify_eq; simpl; rewrite ?app_nil_r; auto;
    congruence.
Qed.

Lemma _validate_location_array_errors value errs :
  _validate_location_array value errs
  = match _validate_location_array value [] with
    | Ok (l, notes) => Ok (l, errs ++ notes)
    | Raise e => Raise e
    end.
Proof.
  unfold _validate_location_array, bind.
  repeat case_match; simplify_eq; simpl; rewrite ?app_nil_r; auto.
Qed.

(** The notes of the normalisation are empty exactly when each
    normaliser, run on its own, records none. *)
Lemma process_inventory_and_location_clean row q l :
  process_inventory_and_location row [] = Ok (q, l, [])
  <-> _validate_inventory_quantity (row_get row "Store Inventory" (VInt 0)) []
      = Ok (q, [])
      /\ _validate_location_array (row_get row "Location" (VStr "")) []
         = Ok (l, []).
Proof.
  unfold process_inventory_and_location, bind.
  destruct (_validate_inventory_quantity _ []) as [[q1 e1]|x].
  - rewrite (_validate_location_array_errors _ e1).
    destruct (_validate_location_array _ []) as [[l1 e2]|y].
    + split.
      * intros [= -> -> Happ]. apply app_eq_nil in Happ as [-> ->]. auto.
      * intros [[= -> ->] [= -> ->]]. reflexivity.
    + split; [discriminate | intros [_ ?]; discriminate].
  - split; [discriminate | intros [? _]; discriminate].
Qed.

(** When a row is accepted. *)
Lemma validate_and_collate_row_valid row idx md pd st :
  is_valid (fst (validate_and_collate_row row idx md pd st)) = true
  <-> row_product_id row <> ""
      /\ row_item_code row <> ""
      /\ is_Some (md !! row_product_id row)
      /\ is_Some (pd !! row_item_code row)
      /\ exists q l, process_inventory_and_location row [] = Ok (q, l, []).
Proof.
  unfold validate_and_collate_row.
  fold (row_product_id row). fold (row_item_code row).
  destruct (PyStr.is_empty (row_product_id row)) eqn:Hp.
  { destruct (row_product_id row); [|discriminate]. simpl.
    split; [discriminate | intros [? _]; congruence]. }
  destruct (PyStr.is_empty (row_item_code row)) eqn:Hc.
  { destruct (row_item_code row); [|discriminate]. simpl.
    split; [discriminate | intros (_ & ? & _); congruence]. }
  assert (row_product_id row <> "") by (intros E; rewrite E in Hp; discriminate).
  assert (row_item_code row <> "") by (intros E; rewrite E in Hc; discriminate).
  destruct (md !! row_product_id row) as [pm|] eqn:Hm; simpl.
  2:{ split; [discriminate | intros (_ & _ & [? ?] & _); congruence]. }
  destruct (pd !! row_item_code row) as [pr|] eqn:Hpr; simpl.
  2:{ split; [discriminate | intros (_ & _ & _ & [? ?] & _); congruence]. }
  destruct (process_inventory_and_location row []) as [[[q l] notes]|e];
    [destruct notes|]; simpl.
  - split; [|reflexivity]. intros _. repeat split; eauto.
  - split; [discriminate|]. intros (_ & _ & _ & _ & q' & l' & E). discriminate.
  - split; [discriminate|]. intros (_ & _ & _ & _ & q' & l' & E). discriminate.
Qed.

Lemma process_rows md pd rows vd res st :
  let '(vd', res', st') := fold_left (process_row md pd) rows (vd, res, st) in
  vd' = vd ++ omap (valid_dict md pd) rows
  /\ validation_failures res' + length (omap (valid_dict md pd) rows)
     = validation_failures res + length rows
  /\ total_rows res' = total_rows res
  /\ successful_inserts res' = successful_inserts res
  /\ duplicate_failures res' = duplicate_failures res
  /\ existing_products res' = existing_products res
  /\ errors res' = errors res
  /\ catalogue st' = catalogue st
  /\ same_references st st'.
Proof.
  revert vd res st. induction rows as [|[idx row] rows IH]; intros vd res st.
  - simpl. rewrite app_nil_r. unfold same_references. repeat split; lia.
  - simpl fold_left.
    pose proof (validate_and_collate_row_tables row idx md pd st) as Ht.
    pose proof (validate_and_collate_row_verdict row idx md pd st empty_collator)
      as Hv.
    destruct (validate_and_collate_row row idx md pd st) as [r st1].
    simpl in Ht, Hv. destruct Ht as (Hc & Hr1 & Hr2).
    assert (Hvd : valid_dict md pd (idx, row)
                  = match r with Valid d => Some d | Invalid _ _ => None end).
    { unfold valid_dict, verdict. simpl. rewrite <- Hv. reflexivity. }
    destruct r as [d|notes d].
    + specialize (IH (vd ++ [d]) res st1).
      destruct (fold_left _ rows _) as [[vd' res'] st'].
      destruct IH as (-> & Hvf & ? & ? & ? & ? & ? & Hc' & Hr1' & Hr2').
      simpl omap. rewrite Hvd. simpl.
      rewrite <- app_assoc. unfold same_references.
      split_and!; unfold omap in *; simpl in *; try done; try congruence; lia.
    + specialize (IH vd (add_validation_failure res)
                    (with_validation_error st1
                       {| ve_row_index := idx;
                          ve_product_id := row_get row "product_id" (VStr "Unknown");
                          ve_errors := notes |})).
      destruct (fold_left _ rows _) as [[vd' res'] st'].
      destruct IH as (-> & Hvf & ? & ? & ? & ? & ? & Hc' & Hr1' & Hr2').
      simpl omap. rewrite Hvd. unfold same_references.
      split_and!; unfold omap in *; simpl in *; try done; try congruence; lia.
Qed.

(** [executemany] either refuses or extends the transaction by the whole
    batch. *)
Lemma executemany_Some committed pending batch pending' :
  executemany committed pending batch = Some pending' ->
  pending' = pending ++ batch.
Proof.
  revert pending. induction batch as [|row rest IH]; intros pending; simpl.
  - intros [= <-]. by rewrite app_nil_r.
  - destruct (row_accepted committed pending row); [|discriminate].
    intros Hrest. apply IH in Hrest. by rewrite <- app_assoc in Hrest.
Qed.

(** What [write_batch] commits: the rows of the batch, on a
    transaction that has not failed. *)
Lemma write_batch_Some valid_data failed st pending :
  write_batch valid_data failed st = Some pending ->
  pending = batch_rows valid_data /\ failed = false /\ valid_data <> [].
Proof.
  unfold write_batch, batch_rows.
  destruct valid_data as [|first rest]; [discriminate|].
  destruct failed; [discriminate|].
  destruct (executemany _ _ _) as [pending'|] eqn:He; [|discriminate].
  apply executemany_Some in He. simpl in He. subst pending'.
  destruct (commit_accepted _ _); [|discriminate]. by intros [= <-].
Qed.

(** A failed insert leaves the collator, and so the committed rows of
    the destination, as they were, and the transaction is no longer in
    the failed state. *)
Lemma insert_batch_failure valid_data failed st st' failed' :
  insert_batch valid_data failed st = Ok (false, st', failed') ->
  st' = st /\ failed' = false.
Proof.
  unfold insert_batch. destruct (write_batch _ _ _); [discriminate|].
  destruct (rollback_raises _ _); [discriminate|]. by intros [= <- <-].
Qed.

(** A successful insert commits exactly the rows of the batch. *)
Lemma insert_batch_success valid_data failed st st' failed' :
  insert_batch valid_data failed st = Ok (true, st', failed') ->
  st' = with_catalogue st (catalogue st ++ batch_rows valid_data)
  /\ failed = false /\ failed' = false.
Proof.
  unfold insert_batch. destruct (write_batch _ _ _) as [pending|] eqn:Hw.
  - apply write_batch_Some in Hw as (-> & -> & _). by intros [= <- <-].
  - destruct (rollback_raises _ _); discriminate.
Qed.

(** An exception leaves [insert_batch] only from the rollback after a
    failed write. *)
Lemma insert_batch_raise valid_data failed st e :
  insert_batch valid_data failed st = Raise e ->
  write_batch valid_data failed st = None
  /\ rollback_raises (catalogue st) valid_data = Some e.
Proof.
  unfold insert_batch. destruct (write_batch _ _ _); [discriminate|].
  destruct (rollback_raises _ _); [|discriminate]. by intros [= ->].
Qed.

Lemma collect_chunk_spec ls c :
  exists res st,
    collect_chunk ls c
    = (chunk_valid_data (ls_collator ls) (ls_failed ls) c, res, st)
    /\ validation_failures res
       + length (chunk_valid_data (ls_collator ls) (ls_failed ls) c)
       = validation_failures (ls_results ls) + length c
    /\ total_rows res = total_rows (ls_results ls)
    /\ successful_inserts res = successful_inserts (ls_results ls)
    /\ duplicate_failures res = duplicate_failures (ls_results ls)
    /\ existing_products res = existing_products (ls_results ls)
    /\ errors res = errors (ls_results ls)
    /\ catalogue st = catalogue (ls_collator ls)
    /\ same_references (ls_collator ls) st.
Proof.
  unfold collect_chunk, chunk_valid_data.
  fold (chunk_product_ids c). fold (chunk_item_codes c).
  pose proof (process_rows
                (get_metadata_batch (ls_collator ls) (ls_failed ls)
                   (chunk_product_ids c))
                (get_price_details_batch (ls_collator ls) (chunk_item_codes c))
                c [] (ls_results ls) (ls_collator ls)) as Hrows.
  destruct (fold_left _ c _) as [[vd res] st].
  destruct Hrows as (-> & Hrest). exists res, st. simpl. auto.
Qed.

(** One iteration of the chunk loop, in terms of the records the chunk
    yields and of what [insert_batch] answers. *)
Lemma process_chunk_spec ls c :
  ls_raised ls = None ->
  exists res st,
    collect_chunk ls c
    = (chunk_valid_data (ls_collator ls) (ls_failed ls) c, res, st)
    /\ process_chunk ls c
       = let valid_data := chunk_valid_data (ls_collator ls) (ls_failed ls) c in
         match valid_data with
         | [] => mkLoop res (ls_batch_count ls) st (ls_failed ls) None
         | _ :: _ =>
             match insert_batch valid_data (ls_failed ls) st with
             | Ok (true, _, _) =>
                 mkLoop (add_successful_inserts res (length valid_data))
                   (ls_batch_count ls + 1)
                   (with_catalogue st (catalogue st ++ batch_rows valid_data))
                   false None
             | Ok (false, _, _) =>
                 mkLoop (add_run_error res
                           (FailedToInsertBatch (ls_batch_count ls + 1)))
                   (ls_batch_count ls) st false None
             | Raise e =>
                 mkLoop res (ls_batch_count ls) st (ls_failed ls) (Some e)
             end
         end.
Proof.
  intros Hrun. destruct (collect_chunk_spec ls c) as (res & st & Hc & _).
  exists res, st. split; [exact Hc|].
  unfold process_chunk. rewrite Hrun, Hc. cbv zeta.
  destruct (chunk_valid_data (ls_collator ls) (ls_failed ls) c) as [|d vd];
    [reflexivity|].
  destruct (insert_batch (d :: vd) (ls_failed ls) st)
    as [[[[|] st'] failed']|e] eqn:Hi; [| |reflexivity].
  - by apply insert_batch_success in Hi as (-> & _ & ->).
  - by apply insert_batch_failure in Hi as (-> & ->).
Qed.

(** Once an exception has left the loop, the chunks are skipped. *)
Lemma process_chunks_raised cs ls e :
  ls_raised ls = Some e -> fold_left process_chunk cs ls = ls.
Proof.
  intros Hr. induction cs as [|c cs IH]; [reflexivity|].
  simpl. unfold process_chunk at 2. by rewrite Hr.
Qed.

(** The counters after one iteration. *)
Lemma process_chunk_counts ls c :
  ls_raised ls = None ->
  let ls' := process_chunk ls c in
  let r := ls_results ls in
  let r' := ls_results ls' in
  total_rows r' = total_rows r
  /\ duplicate_failures r' = duplicate_failures r
  /\ existing_products r' = existing_products r
  /\ same_references (ls_collator ls) (ls_collator ls')
  /\ ((errors r' = errors r
       /\ ls_raised ls' = None
       /\ successful_inserts r' + validation_failures r'
          = successful_inserts r + validation_failures r + length c)
      \/ (errors r' = errors r ++ [FailedToInsertBatch (ls_batch_count ls + 1)]
          /\ ls_raised ls' = None
          /\ successful_inserts r' = successful_inserts r
          /\ catalogue (ls_collator ls') = catalogue (ls_collator ls))
      \/ (errors r' = errors r
          /\ is_Some (ls_raised ls')
          /\ successful_inserts r' = successful_inserts r
          /\ catalogue (ls_collator ls') = catalogue (ls_collator ls))).
Proof.
  intros Hrun ls' r r'. subst ls' r r'.
  destruct (collect_chunk_spec ls c)
    as (res & st & Hc & Hvf & Ht & Hs & Hd & He & Her & Hcat & Href).
  destruct (process_chunk_spec ls c Hrun) as (res' & st' & Hc' & ->).
  rewrite Hc in Hc'. simplify_eq. cbv zeta.
  destruct (chunk_valid_data (ls_collator ls) (ls_failed ls) c) as [|d vd] eqn:Hvd.
  - simpl in *. do 4 (split; [assumption|]). left. split_and!; [auto|auto|lia].
  - destruct (insert_batch (d :: vd) (ls_failed ls) st')
      as [[[[|] st''] failed']|e]; simpl.
    + do 3 (split; [assumption|]). split; [exact Href|].
      left. split_and!; [auto|auto|]. simpl in Hvf. lia.
    + do 4 (split; [assumption|]). right. left. split_and!; congruence.
    + do 4 (split; [assumption|]). right. right. split_and!; eauto.
Qed.

End Loop.

(** ** Frames: chunking, duplicates, existing rows *)

Section Frames.
Context `{PyRuntime} `{Catalogue}.

Lemma iloc_chunk (rows : list (nat * Row)) a n :
  iloc rows a (min (a + n) (length rows)) = take n (drop a rows).
Proof.
  unfold iloc. destruct (decide (a + n <= length rows)) as [Hle|Hgt].
  - rewrite Nat.min_l by lia. f_equal. lia.
  - rewrite Nat.min_r by lia.
    rewrite !take_ge; [reflexivity | |]; rewrite length_drop; lia.
Qed.

Lemma concat_takes (rows : list (nat * Row)) n k :
  concat (map (fun i => take n (drop (i * n) rows)) (seq 0 k))
  = take (k * n) rows.
Proof.
  induction k as [|k IH].
  - reflexivity.
  - rewrite seq_S, map_app, concat_app, IH. simpl.
    rewrite app_nil_r, take_take_drop. f_equal. lia.
Qed.

(** The chunks partition the rows, in order. *)
Lemma chunks_concat (rows : list (nat * Row)) n :
  0 < n -> concat (chunks rows n) = rows.
Proof.
  intros Hn. unfold chunks, range_step. rewrite map_map.
  erewrite map_ext; [|intros i; apply iloc_chunk].
  rewrite concat_takes. apply take_ge.
  pose proof (Nat.div_mod_eq (length rows + n - 1) n) as Hdiv.
  pose proof (Nat.mod_upper_bound (length rows + n - 1) n) as Hmod.
  nia.
Qed.

Lemma occurrences_cons k a keys :
  occurrences k (a :: keys)
  = (if decide (a = k) then 1 else 0) + occurrences k keys.
Proof.
  unfold occurrences. rewrite filter_cons. destruct (decide (a = k)); reflexivity.
Qed.

Lemma occurrences_elem k keys : k ∈ keys -> 0 < occurrences k keys.
Proof.
  induction 1 as [k keys|k a keys _ IH]; rewrite occurrences_cons.
  - rewrite decide_True by reflexivity. lia.
  - lia.
Qed.

(** No key is reported as duplicated exactly when the keys are pairwise
    distinct. *)
Lemma no_duplicates_NoDup (keys : list Cell) :
  filter (fun k => 1 < occurrences k keys) keys = [] -> NoDup keys.
Proof.
  intros Hnone.
  assert (Hall : forall k, k ∈ keys -> occurrences k keys <= 1).
  { intros k Hk. destruct (decide (1 < occurrences k keys)) as [Hlt|]; [|lia].
    assert (k ∈ filter (fun k => 1 < occurrences k keys) keys) as Hin
      by (apply list_elem_of_filter; auto).
    rewrite Hnone in Hin. inversion Hin. }
  clear Hnone. induction keys as [|a keys IH]; [constructor|].
  apply NoDup_cons. split.
  - intros Hin. apply occurrences_elem in Hin.
    specialize (Hall a (list_elem_of_here _ _)).
    rewrite occurrences_cons, decide_True in Hall by reflexivity. lia.
  - apply IH. intros k Hk.
    specialize (Hall k (list_elem_of_further _ _ _ Hk)).
    rewrite occurrences_cons in Hall. lia.
Qed.

Lemma elem_of_cell_strings p keys : p ∈ cell_strings keys <-> Str p ∈ keys.
Proof.
  unfold cell_strings. rewrite list_elem_of_omap. split.
  - intros ([|q] & Hq & Heq); [discriminate|]. by injection Heq as ->.
  - intros Hp. by exists (Str p).
Qed.

Lemma select_existing_cons row table ids :
  select_existing (row :: table) ids
  = match dict_get row "product_id" with
    | VStr p =>
        if bool_decide (p ∈ ids) then p :: select_existing table ids
        else select_existing table ids
    | _ => select_existing table ids
    end.
Proof.
  unfold select_existing. simpl.
  destruct (dict_get row "product_id"); try reflexivity.
  destruct (bool_decide _); reflexivity.
Qed.

Lemma stored_ids_cons row table :
  stored_ids (row :: table)
  = match dict_get row "product_id" with
    | VStr p => p :: stored_ids table
    | _ => stored_ids table
    end.
Proof.
  unfold stored_ids. simpl. destruct (dict_get row "product_id"); reflexivity.
Qed.

(** The query returns the stored ids that occur among its parameters. *)
Lemma select_existing_filter table keys :
  select_existing table (cell_strings keys)
  = filter (fun p => Str p ∈ keys) (stored_ids table).
Proof.
  induction table as [|row table IH]; [reflexivity|].
  rewrite select_existing_cons, stored_ids_cons.
  destruct (dict_get row "product_id"); auto.
  rewrite filter_cons. case_bool_decide as Hin.
  - apply elem_of_cell_strings in Hin.
    rewrite decide_True by assumption. by rewrite IH.
  - rewrite elem_of_cell_strings in Hin.
    rewrite decide_False by assumption. exact IH.
Qed.

(** The existence check on a new connection. *)
Lemma check_existing_products_new st keys :
  check_existing_products st false keys
  = (existing_ids (catalogue st) keys, query_fails keys).
Proof.
  unfold check_existing_products, existing_ids, query_fails.
  destruct keys as [|k keys]; [reflexivity|].
  by destruct (bool_decide _).
Qed.

Lemma existing_ids_filter table keys :
  query_fails keys = false ->
  existing_ids table keys = filter (fun p => Str p ∈ keys) (stored_ids table).
Proof.
  intros Hq. unfold existing_ids. rewrite Hq. apply select_existing_filter.
Qed.

Lemma existing_ids_fails table keys :
  query_fails keys = true -> existing_ids table keys = [].
Proof. intros Hq. unfold existing_ids. by rewrite Hq. Qed.

Lemma isin_true existing k :
  isin existing k = true <-> exists p, k = Str p /\ p ∈ existing.
Proof.
  destruct k as [|p]; simpl.
  - split; [discriminate | intros (p & ? & _); discriminate].
  - rewrite bool_decide_eq_true. split; [eauto|].
    intros (q & [= ->] & Hq). exact Hq.
Qed.

Lemma Str_inj : Inj (=) (=) Str.
Proof. intros p q [= ->]. reflexivity. Qed.

Lemma filter_isin_nil (rows : list (nat * Row)) :
  filter (fun ir => isin [] (row_key ir) = false) rows = rows.
Proof.
  induction rows as [|ir rows IH]; [reflexivity|].
  rewrite filter_cons, decide_True by (by destruct (row_key ir)).
  by rewrite IH.
Qed.

(** With pairwise distinct keys and at most one stored row per id, the
    rows the filter drops are as many as the ids the check reports. *)
Lemma drop_existing_count (rows : list (nat * Row)) table :
  let keys := map row_key rows in
  let existing := existing_ids table keys in
  NoDup keys -> NoDup (stored_ids table) ->
  length (filter (fun ir => isin existing (row_key ir) = false) rows)
  + length existing = length rows.
Proof.
  intros keys existing Hkeys Hstored.
  destruct (query_fails keys) eqn:Hq.
  { subst existing. rewrite existing_ids_fails by done.
    rewrite filter_isin_nil. simpl. lia. }
  assert (Hperm : Str <$> existing ≡ₚ filter (fun k => isin existing k = true) keys).
  { apply NoDup_Permutation.
    - apply (@NoDup_fmap_2 _ _ Str Str_inj).
      subst existing. rewrite existing_ids_filter by done. by apply NoDup_filter.
    - by apply NoDup_filter.
    - intros k. rewrite list_elem_of_fmap, list_elem_of_filter, isin_true.
      split.
      + intros (p & -> & Hp). split; [eauto|].
        subst existing. rewrite existing_ids_filter in Hp by done.
        apply list_elem_of_filter in Hp. tauto.
      + intros [(p & -> & Hp) _]. eauto. }
  apply Permutation_length in Hperm. rewrite length_fmap in Hperm.
  rewrite Hperm. subst keys. clearbody existing. clear.
  induction rows as [|ir rows IH]; [reflexivity|].
  cbn [map]. rewrite !filter_cons.
  destruct (isin existing (row_key ir)) eqn:Hin.
  - rewrite decide_False by discriminate. rewrite decide_True by reflexivity.
    rewrite !length_cons. lia.
  - rewrite decide_True by reflexivity. rewrite decide_False by discriminate.
    rewrite !length_cons. lia.
Qed.

(** The chunk loop only appends to the error list; when it appends
    nothing and no exception leaves it, every row of every chunk was
    inserted or rejected. *)
Lemma process_chunks_counts cs ls :
  let ls' := fold_left process_chunk cs ls in
  let r := ls_results ls in
  let r' := ls_results ls' in
  total_rows r' = total_rows r
  /\ duplicate_failures r' = duplicate_failures r
  /\ existing_products r' = existing_products r
  /\ exists extra,
       errors r' = errors r ++ extra
       /\ (extra = [] -> ls_raised ls' = None ->
           successful_inserts r' + validation_failures r'
           = successful_inserts r + validation_failures r + length (concat cs)).
Proof.
  revert ls. induction cs as [|c cs IH]; intros ls.
  { simpl. split_and!; auto. exists []. rewrite app_nil_r. split; [auto|]. lia. }
  destruct (ls_raised ls) as [e|] eqn:Hrun.
  { rewrite (process_chunks_raised _ _ e) by done. split_and!; auto.
    exists []. rewrite app_nil_r. split; [auto|]. congruence. }
  simpl. destruct (IH (process_chunk ls c)) as (Ht & Hd & He & extra & Herr & Hsum).
  destruct (process_chunk_counts ls c Hrun) as (Ht' & Hd' & He' & _ & Hstep).
  split; [congruence|]. split; [congruence|]. split; [congruence|].
  destruct Hstep as [(Heq & _ & Hcount)|[(Happ & _)|(Heq & [e He1] & _)]].
  - exists extra. split; [congruence|].
    intros Hnil Hnone. rewrite length_app. specialize (Hsum Hnil Hnone). lia.
  - exists (FailedToInsertBatch (ls_batch_count ls + 1) :: extra).
    split; [|discriminate].
    rewrite Herr, Happ, <- app_assoc. reflexivity.
  - exists extra. split; [congruence|].
    rewrite (process_chunks_raised _ _ e) by done. congruence.
Qed.

End Frames.
(** ** The accounting of a run *)

Section Accounting.
Context `{PyRuntime} `{Catalogue}.

Lemma add_run_error_nonempty r e : errors (add_run_error r e) <> [].
Proof. simpl. intros Heq. by apply app_eq_nil in Heq as [_ ?]. Qed.

Lemma check_duplicate_products_keys df :
  "product_id" ∈ df_columns df ->
  check_duplicate_products df = Ok (duplicated_keys df).
Proof.
  intros Hcol. unfold check_duplicate_products. by rewrite bool_decide_true.
Qed.

(** The frame and the results after the duplicate and existence
    steps. *)
Lemma duplicate_step_spec n df :
  duplicate_step (mkResults n 0 0 0 0 []) df (duplicated_keys df)
  = (mkResults n 0 0 (length (duplicated_keys df)) 0
       match duplicated_keys df with
       | [] => []
       | _ => [FoundDuplicateIds (duplicated_keys df)]
       end,
     deduplicated df).
Proof.
  unfold duplicate_step, deduplicated. by destruct (duplicated_keys df).
Qed.

Lemma existence_step_spec results df existing :
  existence_step results df existing
  = (mkResults (total_rows results) (successful_inserts results)
       (validation_failures results) (duplicate_failures results)
       (match existing with [] => existing_products results | _ => length existing end)
       (errors results),
     mkDataFrame (df_columns df)
       (filter (fun ir => isin existing (row_key ir) = false) (df_rows df))).
Proof.
  unfold existence_step, drop_existing. destruct existing as [|p existing].
  - rewrite filter_isin_nil. by destruct results, df.
  - reflexivity.
Qed.

(** The chunk loop either ends at once with an error entry, or is the
    fold over the chunks. *)
Lemma run_chunks_cases results df failed batch_size st :
  (exists e,
     run_chunks results df failed batch_size st
     = (add_run_error results (CriticalError e), st))
  \/ (batch_size <> 0%Z
      /\ let cs :=
           if (batch_size <? 0)%Z then []
           else chunks (df_rows df) (Z.to_nat batch_size) in
         (cs = [] \/ "item_code" ∈ df_columns df)
         /\ run_chunks results df failed batch_size st
            = finish (fold_left process_chunk cs
                        (mkLoop results 0 st failed None))).
Proof.
  unfold run_chunks.
  destruct (Z.eqb_spec batch_size 0) as [Hz|Hnz]; [left; eauto|].
  cbv zeta.
  destruct (if (batch_size <? 0)%Z then []
            else chunks (df_rows df) (Z.to_nat batch_size)) as [|c cs].
  { right. split; [done|]. split; [by left|]. reflexivity. }
  unfold df_column. case_bool_decide as Hcode.
  - right. split; [done|]. split; [by right|done].
  - left. eauto.
Qed.

(** The chunk loop and the end of the run keep the counters of the
    steps before them. *)
Lemma finish_keeps ls :
  total_rows (fst (finish ls)) = total_rows (ls_results ls)
  /\ duplicate_failures (fst (finish ls)) = duplicate_failures (ls_results ls)
  /\ existing_products (fst (finish ls)) = existing_products (ls_results ls)
  /\ successful_inserts (fst (finish ls)) = successful_inserts (ls_results ls)
  /\ validation_failures (fst (finish ls)) = validation_failures (ls_results ls)
  /\ snd (finish ls) = ls_collator ls.
Proof. unfold finish. by destruct (ls_raised ls). Qed.

Lemma run_chunks_keeps results df failed batch_size st :
  let r := fst (run_chunks results df failed batch_size st) in
  total_rows r = total_rows results
  /\ duplicate_failures r = duplicate_failures results
  /\ existing_products r = existing_products results.
Proof.
  destruct (run_chunks_cases results df failed batch_size st)
    as [[e ->]|(_ & _ & ->)]; [done|].
  cbv zeta.
  match goal with
  | |- context [fold_left process_chunk ?cs ?ls] =>
      destruct (process_chunks_counts cs ls) as (Ht & Hd & He & _);
      destruct (finish_keeps (fold_left process_chunk cs ls))
        as (-> & -> & -> & _)
  end.
  done.
Qed.

(** The two ways a run goes: it ends before the chunk loop, with an
    error entry and the collator as it was, or it is the chunk loop over
    the chunks of the surviving rows, from the counts of the duplicate
    and existence steps and the state the existence query left the
    transaction in. *)
Lemma collate_and_migrate_cases csv connects batch_size st :
  (exists r,
     collate_and_migrate csv connects batch_size st = (r, st)
     /\ errors r <> []
     /\ successful_inserts r = 0
     /\ validation_failures r = 0
     /\ total_rows r = match csv with
                       | Some df => length (df_rows df)
                       | None => 0
                       end)
  \/ (exists df,
        csv = Some df /\ connects = true
        /\ "product_id" ∈ df_columns df
        /\ batch_size <> 0%Z
        /\ let dups := duplicated_keys df in
           let keys := checked_keys df in
           let existing := existing_ids (catalogue st) keys in
           let results :=
             mkResults (length (df_rows df)) 0 0 (length dups) (length existing)
               match dups with [] => [] | _ => [FoundDuplicateIds dups] end in
           let cs :=
             if (batch_size <? 0)%Z then []
             else chunks (surviving (catalogue st) df) (Z.to_nat batch_size) in
           (cs = [] \/ "item_code" ∈ df_columns df)
           /\ collate_and_migrate csv connects batch_size st
              = finish (fold_left process_chunk cs
                          (mkLoop results 0 st (query_fails keys) None))).
Proof.
  unfold collate_and_migrate.
  destruct csv as [df|];
    [|left; eexists; split; [reflexivity|]; split_and!; simpl; done].
  destruct connects; cbn [negb];
    [|left; eexists; split; [reflexivity|]; split_and!; simpl; done].
  destruct (decide ("product_id" ∈ df_columns df)) as [Hpid|Hpid].
  2:{ unfold check_duplicate_products. rewrite bool_decide_false by done.
      left. eexists. split; [reflexivity|]. split_and!; simpl; done. }
  rewrite check_duplicate_products_keys by done.
  change (errors empty_results) with (@nil RunError).
  rewrite duplicate_step_spec. fold (checked_keys df).
  rewrite check_existing_products_new, existence_step_spec.
  cbn [total_rows successful_inserts validation_failures duplicate_failures
       existing_products errors].
  match goal with
  | |- context [run_chunks ?r ?d ?f ?b ?s] =>
      destruct (run_chunks_cases r d f b s) as [[e ->]|(Hnz & Hcs & ->)]
  end.
  { left. eexists. split; [reflexivity|]. split_and!; simpl; try done.
    intros Heq. by apply app_eq_nil in Heq as [_ ?]. }
  right. exists df. split_and!; try done.
  - destruct Hcs as [Hcs|Hcs]; [by left|right].
    cbn [df_columns] in Hcs. unfold deduplicated, drop_duplicates in Hcs.
    by destruct (duplicated_keys df).
  - assert (Hcount : match existing_ids (catalogue st) (checked_keys df) with
                     | [] => 0
                     | _ :: _ =>
                         length (existing_ids (catalogue st) (checked_keys df))
                     end = length (existing_ids (catalogue st) (checked_keys df)))
      by (by destruct (existing_ids _ _)).
    by rewrite Hcount.
Qed.

Lemma finish_no_error ls :
  errors (fst (finish ls)) = [] ->
  ls_raised ls = None /\ finish ls = (ls_results ls, ls_collator ls).
Proof.
  unfold finish. destruct (ls_raised ls); [|done].
  simpl. intros Herr. by apply app_eq_nil in Herr as [_ ?].
Qed.

(** The loop never removes an error entry. *)
Lemma run_chunks_errors cs ls :
  errors (ls_results ls) <> [] ->
  errors (fst (finish (fold_left process_chunk cs ls))) <> [].
Proof.
  intros Hne Hnil. apply finish_no_error in Hnil as Hfin.
  destruct Hfin as [_ Hfin]. rewrite Hfin in Hnil. simpl in Hnil.
  destruct (process_chunks_counts cs ls) as (_ & _ & _ & extra & Happ & _).
  rewrite Hnil in Happ. symmetry in Happ.
  by apply app_eq_nil in Happ as [? _].
Qed.

(** C1 (as amended): for every run that records no error (the file
    loads, the stores connect, no duplicated product id is reported and
    no chunk insert fails), with a positive batch size and a destination
    holding at most one row per product id, successful inserts plus
    validation failures plus duplicate failures plus existing products
    equals the total number of rows. *)
Theorem accounting_identity csv connects batch_size st :
  (0 < batch_size)%Z ->
  NoDup (stored_ids (catalogue st)) ->
  let r := fst (collate_and_migrate csv connects batch_size st) in
  errors r = [] ->
  successful_inserts r + validation_failures r + duplicate_failures r
  + existing_products r = total_rows r.
Proof.
  intros Hbs Hstored. cbv zeta.
  destruct (collate_and_migrate_cases csv connects batch_size st)
    as [(r & -> & Hne & _)|(df & -> & -> & Hpid & Hnz & Hmain)];
    [done|].
  cbv zeta in Hmain. destruct Hmain as [_ ->].
  destruct (Z.ltb_spec batch_size 0) as [|_]; [lia|].
  intros Herr. apply finish_no_error in Herr as Hfin.
  destruct Hfin as [Hrun Hfin]. rewrite Hfin in Herr |- *. simpl in Herr |- *.
  match type of Hrun with
  | ls_raised (fold_left process_chunk ?cs ?ls) = _ =>
      destruct (process_chunks_counts cs ls) as (Ht & Hd & He & extra & Happ & Hsum)
  end.
  simpl in Ht, Hd, He, Happ, Hsum.
  rewrite Herr in Happ. symmetry in Happ. apply app_eq_nil in Happ as [Hdups ->].
  specialize (Hsum eq_refl Hrun). rewrite chunks_concat in Hsum by lia.
  destruct (duplicated_keys df) as [|k dups] eqn:Hkeys; [|discriminate].
  apply no_duplicates_NoDup in Hkeys as Hnd.
  unfold surviving, checked_keys, deduplicated in *. rewrite Hkeys in *.
  pose proof (drop_existing_count (df_rows df) (catalogue st) Hnd Hstored)
    as Hcount.
  cbv zeta in Hcount. simpl in *. lia.
Qed.

End Accounting.

(** ** The validator and the writer *)

Section Validator.
Context `{PyRuntime} `{Catalogue}.

Import PyStr.

(** A cell of the frame, or the default of [row.get], is never a list. *)
Lemma row_get_scalar row col default :
  (forall l, default <> VList l) ->
  Py.isna_truth (row_get row col default)
  = Ok (Py.isna_scalar (row_get row col default)).
Proof.
  intros Hd. unfold row_get. destruct (row !! col) as [[|s]|]; try reflexivity.
  destruct default; try reflexivity. by destruct (Hd l).
Qed.

(** When the inventory normaliser records a note, and which. *)
Lemma _validate_inventory_quantity_notes value q notes :
  Py.isna_truth value = Ok (Py.isna_scalar value) ->
  _validate_inventory_quantity value [] = Ok (q, notes) ->
  notes = inventory_notes_of value /\ (notes <> [] -> q = 0%Z).
Proof.
  intros Hna. unfold _validate_inventory_quantity, inventory_notes_of, bind.
  rewrite Hna.
  destruct (Py.isna_scalar value || Py.eq_str value ""
            || is_empty (strip (Py.str value))).
  { intros [= <- <-]. done. }
  destruct (Py.float_of_str (Py.str value)) as [f|e].
  - destruct (Py.int_of_float f) as [z|e].
    + destruct (z <? 0)%Z; intros [= <- <-]; done.
    + destruct (is_value_or_type_error e); [|discriminate].
      intros [= <- <-]. done.
  - destruct (is_value_or_type_error e); [|discriminate].
    intros [= <- <-]. done.
Qed.

(** When the location normaliser records a note, and which. *)
Lemma _validate_location_array_notes value l notes :
  Py.isna_truth value = Ok (Py.isna_scalar value) ->
  (forall x, value <> VList x) ->
  _validate_location_array value [] = Ok (l, notes) ->
  notes = location_notes_of value /\ (notes <> [] -> l = None).
Proof.
  intros Hna Hlist. unfold _validate_location_array, location_notes_of, bind.
  rewrite Hna.
  destruct value as [|b|z|f|s|x|r t]; simpl; try (by intros [= <- <-]).
  - destruct f; by intros [= <- <-].
  - destruct (String.eqb s "" || String.eqb s "nan"); [by intros [= <- <-]|].
    destruct (startswith lbracket _ && endswith rbracket _);
      [|by intros [= <- <-]].
    destruct (json_loads _) as [v|e].
    + destruct v; by intros [= <- <-].
    + destruct (exn_kind e); by intros [= <- <-].
Qed.

(** The notes of a row are those of its inventory cell followed by those
    of its location cell. *)
Lemma process_inventory_and_location_notes row q l notes :
  process_inventory_and_location row [] = Ok (q, l, notes) ->
  notes = inventory_notes row ++ location_notes row
  /\ (inventory_notes row <> [] -> q = 0%Z)
  /\ (location_notes row <> [] -> l = None).
Proof.
  unfold process_inventory_and_location, bind, inventory_notes, location_notes.
  destruct (_validate_inventory_quantity _ []) as [[q1 n1]|e] eqn:Hq;
    [|discriminate].
  apply _validate_inventory_quantity_notes in Hq as [-> Hq0];
    [|by apply row_get_scalar].
  rewrite _validate_location_array_errors.
  destruct (_validate_location_array _ []) as [[l1 n2]|e] eqn:Hl;
    [|discriminate].
  apply _validate_location_array_notes in Hl as [-> Hl0].
  - intros [= <- <- <-]. done.
  - by apply row_get_scalar.
  - intros x. unfold row_get. by destruct (row !! "Location") as [[|s]|].
Qed.

(** C2 (as amended): for every row whose trimmed product_id and item_code
    are non-empty and which finds both a metadata record and a price
    record, the row is accepted if and only if the normalisation of
    inventory and location records no note and raises nothing.  The
    notes recorded are those of the inventory cell (its text is not a
    number, or the number is negative; the quantity is then 0) followed
    by those of the location cell (a bracketed text on which
    [json.loads] fails otherwise than by a decode error; there is then
    no location).  With a note the row is returned as invalid with the
    notes and the collated data attached, and the row loop counts it as
    a validation failure, records the notes, and does not add it to the
    records to insert.  When a normaliser raises, the row is returned as
    invalid with the unexpected-error message.  The collator (counters
    and rejection queue) is left as it was. *)
Theorem accepted_iff_no_note row idx md pd st pm pr :
  row_product_id row <> "" ->
  row_item_code row <> "" ->
  md !! row_product_id row = Some pm ->
  pd !! row_item_code row = Some pr ->
  let out := validate_and_collate_row row idx md pd st in
  snd out = st
  /\ (is_valid (fst out) = true
      <-> exists q l, process_inventory_and_location row [] = Ok (q, l, []))
  /\ (forall q l notes,
        process_inventory_and_location row [] = Ok (q, l, notes) ->
        notes = inventory_notes row ++ location_notes row
        /\ (inventory_notes row <> [] -> q = 0%Z)
        /\ (location_notes row <> [] -> l = None)
        /\ (notes <> [] ->
            fst out
            = Invalid notes
                (collate (row_product_id row) (row_item_code row) pm pr q l)
            /\ forall valid_data results,
                 process_row md pd (valid_data, results, st) (idx, row)
                 = (valid_data, add_validation_failure results,
                    with_validation_error st
                      {| ve_row_index := idx;
                         ve_product_id := row_get row "product_id" (VStr "Unknown");
                         ve_errors := notes |})))
  /\ (forall e,
        process_inventory_and_location row [] = Raise e ->
        fst out = unexpected_error idx e).
Proof.
  intros Hp Hc Hm Hpr out.
  assert (Hout : out = match process_inventory_and_location row [] with
                       | Ok (q, l, []) =>
                           (Valid (collate (row_product_id row)
                                     (row_item_code row) pm pr q l), st)
                       | Ok (q, l, notes) =>
                           (Invalid notes
                              (collate (row_product_id row)
                                 (row_item_code row) pm pr q l), st)
                       | Raise e => (unexpected_error idx e, st)
                       end).
  { subst out. unfold validate_and_collate_row.
    fold (row_product_id row). fold (row_item_code row).
    destruct (row_product_id row); [done|].
    destruct (row_item_code row); [done|].
    simpl. by rewrite Hm, Hpr. }
  split; [|split; [|split]].
  - rewrite Hout. by repeat case_match.
  - subst out. rewrite validate_and_collate_row_valid.
    rewrite Hm, Hpr. split; [tauto|]. intros Hn. split_and!; eauto.
  - intros q l notes Hn.
    destruct (process_inventory_and_location_notes row q l notes Hn)
      as (Hnotes & Hq & Hl).
    split_and!; [done|done|done|]. intros Hne.
    assert (Hfst : out = (Invalid notes
                            (collate (row_product_id row) (row_item_code row)
                               pm pr q l), st)).
    { rewrite Hout, Hn. by destruct notes. }
    split; [by rewrite Hfst|].
    intros valid_data results. unfold process_row. fold out. by rewrite Hfst.
  - intros e He. by rewrite Hout, He.
Qed.

End Validator.


Section Writer.
Context `{PyRuntime} `{Catalogue}.

(** An error entry recorded by the loop stays in the summary. *)
Lemma process_chunks_keep_error cs ls e :
  e ∈ errors (ls_results ls) ->
  e ∈ errors (ls_results (fold_left process_chunk cs ls)).
Proof.
  intros Hin.
  destruct (process_chunks_counts cs ls) as (_ & _ & _ & extra & -> & _).
  apply elem_of_app. by left.
Qed.

(** The end of the run only appends to the error list. *)
Lemma finish_keeps_error ls e :
  e ∈ errors (ls_results ls) -> e ∈ errors (fst (finish ls)).
Proof.
  intros Hin. unfold finish. destruct (ls_raised ls); simpl; [|done].
  apply elem_of_app. by left.
Qed.

(** The body of the [try] raises exactly when the store refuses the
    batch. *)
Lemma write_batch_None valid_data failed st :
  valid_data <> [] ->
  write_batch valid_data failed st = None <-> batch_refused valid_data failed st.
Proof.
  intros Hne. unfold write_batch, batch_refused, batch_rows.
  destruct valid_data as [|first rest]; [done|].
  destruct failed; [split; auto|].
  destruct (executemany _ _ _) as [pending|] eqn:He.
  - apply executemany_Some in He as Hp. simpl in Hp. subst pending.
    destruct (commit_accepted _ _) eqn:Hcommit.
    + split; [done|]. intros [?|[?|?]]; congruence.
    + split; auto.
  - split; auto.
Qed.

(** C3 (as amended): for every non-empty batch of merged records that
    the store refuses, for any reason (the transaction had failed
    before, a row is refused after others were accepted, or the commit
    is), and provided the rollback itself does not raise,
    [insert_batch] answers [False] instead of raising, leaves the
    committed rows of the destination as they were and ends the failed
    state of the transaction.  Wherever the orchestrator meets this
    refusal for a chunk, the iteration keeps the destination as it was,
    counts no insert, appends one batch-level entry to the error list,
    and no exception leaves the loop: the entry is in the summary the
    run returns whatever chunks follow, and the next chunk is processed
    from the destination as it was, its batch being committed and
    counted when the store accepts it. *)
Theorem failed_batch_is_rolled_back_and_recorded valid_data failed st :
  valid_data <> [] ->
  batch_refused valid_data failed st ->
  rollback_raises (catalogue st) valid_data = None ->
  insert_batch valid_data failed st = Ok (false, st, false)
  /\ forall ls c res,
       ls_raised ls = None ->
       ls_failed ls = failed ->
       collect_chunk ls c = (valid_data, res, st) ->
       let ls' := process_chunk ls c in
       let entry := FailedToInsertBatch (ls_batch_count ls + 1) in
       catalogue (ls_collator ls') = catalogue (ls_collator ls)
       /\ successful_inserts (ls_results ls')
          = successful_inserts (ls_results ls)
       /\ errors (ls_results ls') = errors (ls_results ls) ++ [entry]
       /\ ls_batch_count ls' = ls_batch_count ls
       /\ ls_raised ls' = None
       /\ ls_failed ls' = false
       /\ (forall cs,
             entry ∈ errors (fst (finish (fold_left process_chunk (c :: cs) ls))))
       /\ (forall c2 valid_data2 res2 st2,
             collect_chunk ls' c2 = (valid_data2, res2, st2) ->
             valid_data2 <> [] ->
             ~ batch_refused valid_data2 false st2 ->
             let ls2 := process_chunk ls' c2 in
             catalogue (ls_collator ls2)
             = catalogue (ls_collator ls) ++ batch_rows valid_data2
             /\ successful_inserts (ls_results ls2)
                = successful_inserts (ls_results ls) + length valid_data2
             /\ errors (ls_results ls2) = errors (ls_results ls) ++ [entry]
             /\ ls_batch_count ls2 = ls_batch_count ls + 1
             /\ ls_raised ls2 = None).
Proof.
  intros Hne Hrefused Hroll.
  assert (Hins : insert_batch valid_data failed st = Ok (false, st, false)).
  { unfold insert_batch. apply write_batch_None in Hrefused; [|done].
    by rewrite Hrefused, Hroll. }
  split; [exact Hins|].
  intros ls c res Hrun Hfailed Hcollect ls' entry.
  destruct (collect_chunk_spec ls c)
    as (res0 & st0 & Hc & _ & _ & Hs & _ & _ & Her & Hcat & _).
  rewrite Hcollect in Hc. injection Hc as Hvd <- <-.
  assert (Hls' : ls' = mkLoop (add_run_error res entry) (ls_batch_count ls) st
                         false None).
  { subst ls'. unfold process_chunk. rewrite Hrun, Hcollect, Hfailed.
    destruct valid_data as [|d vd]; [done|]. by rewrite Hins. }
  assert (Herrs : errors (ls_results ls') = errors (ls_results ls) ++ [entry])
    by (rewrite Hls'; simpl; by rewrite Her).
  split_and!.
  - rewrite Hls'. exact Hcat.
  - rewrite Hls'. exact Hs.
  - exact Herrs.
  - by rewrite Hls'.
  - by rewrite Hls'.
  - by rewrite Hls'.
  - intros cs. simpl. apply finish_keeps_error, process_chunks_keep_error.
    fold ls'. rewrite Herrs. apply elem_of_app. right. apply list_elem_of_here.
  - intros c2 vd2 res2 st2 Hcollect2 Hne2 Haccepted ls2.
    destruct (collect_chunk_spec ls' c2)
      as (res3 & st3 & Hc2 & _ & _ & Hs2 & _ & _ & Her2 & Hcat2 & _).
    rewrite Hcollect2 in Hc2. injection Hc2 as Hvd2 <- <-.
    destruct (write_batch vd2 false st2) as [pending|] eqn:Hw;
      [|by apply write_batch_None in Hw].
    apply write_batch_Some in Hw as Hp. destruct Hp as (-> & _ & _).
    assert (Hls2 : ls2 = mkLoop (add_successful_inserts res2 (length vd2))
                           (ls_batch_count ls + 1)
                           (with_catalogue st2 (catalogue st2 ++ batch_rows vd2))
                           false None).
    { subst ls2. unfold process_chunk. rewrite Hcollect2.
      replace (ls_raised ls') with (@None PyExn) by (by rewrite Hls').
      replace (ls_failed ls') with false by (by rewrite Hls').
      replace (ls_batch_count ls') with (ls_batch_count ls) by (by rewrite Hls').
      destruct vd2 as [|d2 vd2]; [done|]. unfold insert_batch. by rewrite Hw. }
    rewrite Hls2. simpl. split_and!.
    + rewrite Hcat2, Hls'. simpl. by rewrite Hcat.
    + rewrite Hs2, Hls'. simpl. by rewrite Hs.
    + by rewrite Her2.
    + done.
    + done.
Qed.

End Writer.

(** ** The normalisers on particular inputs *)

Section Normalisers.
Context `{PyRuntime}.

(** Whenever the function returns, the quantity is not negative. *)
Lemma _validate_inventory_quantity_nonneg value errs q errs' :
  _validate_inventory_quantity value errs = Ok (q, errs') -> (0 <= q)%Z.
Proof.
  unfold _validate_inventory_quantity, bind.
  repeat case_match; intros; simplify_eq; lia.
Qed.

(** C10: on the string [inf], which [float] reads as the infinity,
    [_validate_inventory_quantity] raises [OverflowError], an exception
    its handler for [ValueError] and [TypeError] does not catch: it
    neither returns 0 nor any other integer. *)
Theorem inventory_quantity_raises_on_infinity errs :
  _validate_inventory_quantity (VStr "inf") errs
  = Raise (mkExn OverflowError "cannot convert float infinity to integer").
Proof. reflexivity. Qed.

(** C9: on the string made of one comma the normalised location is the
    empty sequence, not the no-location value; and on an already
    structured sequence of two locations the test [pd.isna(value)],
    outside the [try], raises. *)
Theorem location_array_empty_sequence errs :
  _validate_location_array (VStr ",") errs = Ok (Some [], errs)
  /\ _validate_location_array (VList [VStr "A"; VStr "B"]) errs
     = Raise Py.ambiguous_truth.
Proof. split; reflexivity. Qed.

(** The elements of a normalised location taken from a list are trimmed
    and not empty. *)
Lemma clean_locations_nonempty l s :
  s ∈ clean_locations l -> s <> "".
Proof.
  unfold clean_locations. rewrite list_elem_of_omap.
  intros (v & _ & Hv). repeat case_match; simplify_eq.
  intros Heq. rewrite Heq in *. simpl in *. by rewrite andb_false_r in *.
Qed.

End Normalisers.

(** ** Duplicates, case variants and missing identifiers *)

Section Particular.
Context `{PyRuntime} `{Catalogue}.

Lemma csv_row_key i pid code : row_key (i, Sample.csv_row pid code) = pid.
Proof. reflexivity. Qed.

(** The loop and the steps before it keep the duplicate count. *)
Lemma collate_and_migrate_duplicates df connects batch_size st dups :
  check_duplicate_products df = Ok dups ->
  connects = true ->
  duplicate_failures (fst (collate_and_migrate (Some df) connects batch_size st))
  = length dups.
Proof.
  intros Hdup ->. unfold collate_and_migrate. rewrite Hdup. cbn [negb].
  destruct (duplicate_step _ df dups) as [r1 df1] eqn:Hstep.
  assert (Hr1 : duplicate_failures r1 = length dups).
  { unfold duplicate_step in Hstep. destruct dups; by simplify_eq. }
  destruct (check_existing_products _ _ _) as [existing failed].
  destruct (existence_step r1 df1 existing) as [r2 df2] eqn:Hstep2.
  assert (Hr2 : duplicate_failures r2 = duplicate_failures r1).
  { unfold existence_step in Hstep2. destruct existing; by simplify_eq. }
  destruct (run_chunks_keeps r2 df2 failed batch_size st) as (_ & -> & _).
  congruence.
Qed.

(** C5: for two rows with the same product_id, [check_duplicate_products]
    lists the id twice, so that the run reports two duplicate failures,
    while [drop_duplicates] removes one row, the second, and keeps the
    first. *)
Theorem two_rows_one_id_counted_twice (pid code1 code2 : Cell) :
  let df := Sample.frame [Sample.csv_row pid code1; Sample.csv_row pid code2] in
  check_duplicate_products df = Ok [pid; pid]
  /\ df_rows (drop_duplicates df) = [(0, Sample.csv_row pid code1)]
  /\ forall batch_size st,
       duplicate_failures
         (fst (collate_and_migrate (Some df) true batch_size st)) = 2.
Proof.
  intros df.
  assert (Hdup : check_duplicate_products df = Ok [pid; pid]).
  { assert (Hocc : occurrences pid [pid; pid] = 2).
    { rewrite !occurrences_cons. rewrite !decide_True by reflexivity.
      reflexivity. }
    unfold check_duplicate_products.
    rewrite bool_decide_true by apply list_elem_of_here. cbv zeta.
    change (map row_key (df_rows df)) with [pid; pid].
    rewrite !filter_cons, Hocc. rewrite !decide_True by lia. reflexivity. }
  split; [exact Hdup|]. split.
  - unfold drop_duplicates. simpl. rewrite !csv_row_key.
    rewrite bool_decide_true by apply list_elem_of_here. reflexivity.
  - intros batch_size st.
    by rewrite (collate_and_migrate_duplicates _ _ _ _ _ Hdup).
Qed.

(** C6: when the requested codes hold [abc] and then [ABC] and the
    reference table holds a record with item code [abc], the result has
    the record under [ABC] only: the caller's key [abc], whose lowercased
    form equals the record's code, gets no record, although it does when
    requested alone. *)
Theorem price_lookup_loses_case_variant :
  let st := Sample.collator [] [] [Sample.price "abc" None] in
  let record := price_record (Sample.price "abc" None) in
  get_price_details_batch st ["abc"; "ABC"] !! "abc" = None
  /\ get_price_details_batch st ["abc"; "ABC"] !! "ABC" = Some record
  /\ get_price_details_batch st ["abc"] !! "abc" = Some record.
Proof. vm_compute. auto. Qed.

(** C8: a row whose product_id cell is missing reads as the identifier
    [nan]: it passes the required-identifier check, is rejected with the
    missing-metadata reason when no product is called [nan], and is
    accepted when one is. *)
Theorem missing_product_id_reads_as_nan idx pd pr st :
  let row := Sample.csv_row_with NaN (Str "X1") NaN NaN in
  row_product_id row = "nan"
  /\ fst (validate_and_collate_row row idx ∅ pd st)
     = Invalid ["Missing metadata"] []
  /\ is_valid
       (fst (validate_and_collate_row row idx
               {["nan" := Sample.product "nan" "unnamed"]}
               {["X1" := pr]} st)) = true.
Proof.
  intros row. split; [reflexivity|]. split; [reflexivity|].
  apply validate_and_collate_row_valid.
  split_and!; [done|done| | |].
  - change (row_product_id row) with "nan". rewrite lookup_singleton_eq. eauto.
  - change (row_item_code row) with "X1". rewrite lookup_singleton_eq. eauto.
  - exists 0%Z, None. reflexivity.
Qed.

End Particular.
(** ** Strings *)

Section Strings.

Import PyStr.

Lemma chars_of_chars l : chars (of_chars l) = l.
Proof. apply list_ascii_of_string_of_list_ascii. Qed.

Lemma of_chars_chars s : of_chars (chars s) = s.
Proof. apply string_of_list_ascii_of_string. Qed.

Lemma chars_app s t : chars (s +:+ t) = chars s ++ chars t.
Proof. induction s as [|c s IH]; simpl; [reflexivity|]. by rewrite IH. Qed.

Lemma chars_inj s t : chars s = chars t -> s = t.
Proof. intros Heq. by rewrite <- (of_chars_chars s), Heq, of_chars_chars. Qed.

Lemma chars_nonempty s : s <> "" -> chars s <> [].
Proof. by destruct s. Qed.

Lemma lstrip_with_keep f c l : f c = false -> lstrip_with f (c :: l) = c :: l.
Proof. intros Hc. simpl. by rewrite Hc. Qed.

Lemma rstrip_with_keep f c l : f c = false -> rstrip_with f (l ++ [c]) = l ++ [c].
Proof.
  intros Hc. unfold rstrip_with. rewrite rev_app_distr. simpl. rewrite Hc.
  simpl. by rewrite rev_involutive.
Qed.

(** Stripping changes nothing when neither end can be stripped. *)
Lemma strip_with_keep f c l c' l' :
  f c = false -> f c' = false -> c :: l = l' ++ [c'] ->
  strip_with f (c :: l) = c :: l.
Proof.
  intros Hc Hc' Heq. unfold strip_with. rewrite lstrip_with_keep by assumption.
  rewrite Heq. by apply rstrip_with_keep.
Qed.

(** Stripping removes one strippable character at each end of a text
    that cannot itself be stripped. *)
Lemma strip_with_wrapped f a b c l c' l' :
  f a = true -> f b = true -> f c = false -> f c' = false ->
  c :: l = l' ++ [c'] ->
  strip_with f (a :: (c :: l) ++ [b]) = c :: l.
Proof.
  intros Ha Hb Hc Hc' Heq. unfold strip_with.
  cbn [lstrip_with]. rewrite Ha.
  change ((c :: l) ++ [b]) with (c :: (l ++ [b])).
  rewrite lstrip_with_keep by assumption.
  change (c :: (l ++ [b])) with ((c :: l) ++ [b]).
  unfold rstrip_with. rewrite rev_app_distr. cbn [rev app lstrip_with].
  rewrite Hb. change (rev l ++ [c]) with (rev (c :: l)).
  fold (rstrip_with f (c :: l)). rewrite Heq. by apply rstrip_with_keep.
Qed.

Lemma lstrip_with_length f l : length (lstrip_with f l) <= length l.
Proof. induction l as [|c l IH]; simpl; [lia|]. destruct (f c); simpl; lia. Qed.

(** A text that stripping leaves as it is has, when it is not empty, a
    first and a last character that cannot be stripped. *)
Lemma strip_with_fixed f l :
  l <> [] -> strip_with f l = l ->
  exists c r l' c',
    l = c :: r /\ c :: r = l' ++ [c'] /\ f c = false /\ f c' = false.
Proof.
  intros Hne Hfix.
  assert (Hl : lstrip_with f l = l).
  { pose proof (lstrip_with_length f l) as H1.
    pose proof (lstrip_with_length f (rev (lstrip_with f l))) as H2.
    apply (f_equal (@length ascii)) in Hfix as Hlen.
    unfold strip_with, rstrip_with in Hlen.
    rewrite length_rev in Hlen. rewrite length_rev in H2.
    destruct l as [|c r]; [done|].
    pose proof (lstrip_with_length f r) as H3. simpl in *.
    destruct (f c); [lia|done]. }
  unfold strip_with in Hfix. rewrite Hl in Hfix.
  destruct l as [|c r]; [done|].
  destruct (exists_last (l:=c :: r)) as (l' & c' & Heq); [done|].
  exists c, r, l', c'. split_and!; [done|done| |].
  - simpl in Hl. destruct (f c) eqn:Hc; [|done].
    pose proof (lstrip_with_length f r) as Hlen. rewrite Hl in Hlen.
    simpl in Hlen. lia.
  - rewrite Heq in Hfix. unfold rstrip_with in Hfix.
    rewrite rev_app_distr in Hfix. simpl in Hfix.
    destruct (f c') eqn:Hc'; [|done].
    apply (f_equal (@length ascii)) in Hfix.
    rewrite length_rev, length_app in Hfix. simpl in Hfix.
    pose proof (lstrip_with_length f (rev l')) as Hlen.
    rewrite length_rev in Hlen. lia.
Qed.

Section Patterns.
Variable f1 : ascii -> bool.
Variable f2 : ascii -> ascii -> bool.
Variable f3 : ascii -> ascii -> ascii -> bool.

Lemma lstrip_by_keep l : starts_by f1 f2 f3 l = false -> lstrip_by f1 f2 f3 l = l.
Proof.
  destruct l as [|a [|b [|c r]]]; simpl; try done.
  - rewrite orb_false_r. by intros ->.
  - rewrite orb_false_r. intros [-> ->]%orb_false_iff. done.
  - intros [-> [-> ->]%orb_false_iff]%orb_false_iff. done.
Qed.

(** What is left of a text is not longer than the text, and shorter
    when the text starts with a selected character; it starts with no
    selected character. *)
Lemma lstrip_by_spec n l :
  length l <= n ->
  length (lstrip_by f1 f2 f3 l) <= length l
  /\ (starts_by f1 f2 f3 l = true -> length (lstrip_by f1 f2 f3 l) < length l)
  /\ starts_by f1 f2 f3 (lstrip_by f1 f2 f3 l) = false.
Proof.
  revert l. induction n as [|n IH]; intros l Hn.
  { destruct l; [|simpl in Hn; lia]. simpl. split_and!; [lia|done|done]. }
  destruct l as [|a r]; [simpl; split_and!; [lia|done|done]|].
  simpl in Hn.
  assert (IHn : forall l', length l' <= length r ->
            length (lstrip_by f1 f2 f3 l') <= length l'
            /\ starts_by f1 f2 f3 (lstrip_by f1 f2 f3 l') = false).
  { intros l' Hl'. destruct (IH l') as (? & _ & ?); [lia|done]. }
  cbn [lstrip_by starts_by].
  destruct (f1 a) eqn:H1.
  { destruct (IHn r) as [Hlen Hst]; [lia|]. simpl. split_and!; [lia|lia|done]. }
  destruct r as [|b r'].
  { simpl. rewrite H1. split_and!; [lia|done|done]. }
  destruct (f2 a b) eqn:H2.
  { destruct (IHn r') as [Hlen Hst]; [simpl; lia|]. simpl.
    split_and!; [lia|lia|done]. }
  destruct r' as [|c r''].
  { simpl. rewrite H1, H2. split_and!; [lia|done|done]. }
  destruct (f3 a b c) eqn:H3.
  { destruct (IHn r'') as [Hlen Hst]; [simpl; lia|]. simpl.
    split_and!; [lia|lia|done]. }
  simpl. rewrite H1, H2, H3. split_and!; [lia|done|done].
Qed.

Lemma lstrip_by_length l : length (lstrip_by f1 f2 f3 l) <= length l.
Proof. by apply (lstrip_by_spec (length l)). Qed.

Lemma lstrip_by_shorter l :
  starts_by f1 f2 f3 l = true -> length (lstrip_by f1 f2 f3 l) < length l.
Proof. by apply (lstrip_by_spec (length l)). Qed.

Lemma lstrip_by_starts l : starts_by f1 f2 f3 (lstrip_by f1 f2 f3 l) = false.
Proof. by apply (lstrip_by_spec (length l)). Qed.

Lemma lstrip_by_fixed l :
  lstrip_by f1 f2 f3 l = l -> starts_by f1 f2 f3 l = false.
Proof. intros Heq. rewrite <- Heq. apply lstrip_by_starts. Qed.

(** What is left of a text is a suffix of it. *)
Lemma lstrip_by_suffix n l :
  length l <= n -> exists k, lstrip_by f1 f2 f3 l = drop k l.
Proof.
  revert l. induction n as [|n IH]; intros l Hn.
  { destruct l; [|simpl in Hn; lia]. by exists 0. }
  destruct l as [|a r]; [by exists 0|]. simpl in Hn. cbn [lstrip_by].
  destruct (f1 a).
  { destruct (IH r) as [k Hk]; [lia|]. exists (S k). by rewrite Hk. }
  destruct r as [|b r']; [by exists 0|].
  destruct (f2 a b).
  { destruct (IH r') as [k Hk]; [simpl in Hn; lia|]. exists (S (S k)).
    by rewrite Hk. }
  destruct r' as [|c r'']; [by exists 0|].
  destruct (f3 a b c).
  { destruct (IH r'') as [k Hk]; [simpl in Hn; lia|]. exists (S (S (S k))).
    by rewrite Hk. }
  by exists 0.
Qed.

(** A prefix of a text that starts with no selected character starts
    with none. *)
Lemma starts_by_take k l :
  starts_by f1 f2 f3 l = false -> starts_by f1 f2 f3 (take k l) = false.
Proof.
  destruct l as [|a [|b [|c r]]]; destruct k as [|[|[|k]]]; simpl; try done;
    rewrite ?orb_false_r; intros Hs;
    repeat (apply orb_false_iff in Hs as [? Hs]); by rewrite ?orb_false_iff.
Qed.

(** A text that starts with no selected character still does so when a
    character follows it that is in no selected character of several
    bytes. *)
Lemma starts_by_app l h x :
  l <> [] ->
  (forall a, f2 a h = false) ->
  (forall a c, f3 a h c = false) ->
  (forall a b, f3 a b h = false) ->
  starts_by f1 f2 f3 l = false ->
  starts_by f1 f2 f3 (l ++ h :: x) = false.
Proof.
  intros Hne H2 H3 H3'.
  destruct l as [|a [|b [|c r]]]; [done| | |]; simpl;
    rewrite ?orb_false_r; intros Hs.
  - rewrite Hs, H2. simpl. destruct x; [done|]. apply H3.
  - apply orb_false_iff in Hs as [-> ->]. simpl. apply H3'.
  - exact Hs.
Qed.

End Patterns.

Lemma rstrip_space_length l : length (rstrip_space l) <= length l.
Proof.
  unfold rstrip_space. rewrite length_rev.
  etrans; [apply lstrip_by_length|]. by rewrite length_rev.
Qed.

(** [s.strip().strip()] is [s.strip()]. *)
Lemma strip_idemp s : strip (strip s) = strip s.
Proof.
  unfold strip. rewrite chars_of_chars. f_equal.
  set (m := lstrip_space (chars s)).
  assert (Hm : starts_by is_space is_space2 is_space3 m = false)
    by apply lstrip_by_starts.
  assert (Hpre : exists k, rstrip_space m = take k m).
  { unfold rstrip_space.
    destruct (lstrip_by_suffix is_space (fun b a => is_space2 a b)
                (fun c b a => is_space3 a b c) (length (rev m)) (rev m))
      as [k ->]; [done|].
    exists (length m - k). by rewrite skipn_rev, rev_involutive. }
  destruct Hpre as [k Hk].
  unfold lstrip_space at 1. rewrite lstrip_by_keep
    by (rewrite Hk; by apply starts_by_take).
  unfold rstrip_space at 1. unfold rstrip_space at 1.
  rewrite rev_involutive. rewrite lstrip_by_keep by apply lstrip_by_starts.
  reflexivity.
Qed.

(** A text is trimmed exactly when it neither starts nor ends with a
    blank. *)
Lemma strip_fixed s :
  strip s = s
  <-> starts_by is_space is_space2 is_space3 (chars s) = false
      /\ starts_by is_space (fun b a => is_space2 a b)
           (fun c b a => is_space3 a b c) (rev (chars s)) = false.
Proof.
  split.
  - intros Hfix. apply (f_equal chars) in Hfix. unfold strip in Hfix.
    rewrite chars_of_chars in Hfix.
    pose proof (rstrip_space_length (lstrip_space (chars s))) as H1.
    pose proof (lstrip_by_length is_space is_space2 is_space3 (chars s)) as H2.
    fold (lstrip_space (chars s)) in H2.
    assert (Hl : starts_by is_space is_space2 is_space3 (chars s) = false).
    { destruct (starts_by _ _ _ (chars s)) eqn:Hs; [|done].
      apply lstrip_by_shorter in Hs. fold (lstrip_space (chars s)) in Hs.
      rewrite Hfix in H1. lia. }
    split; [exact Hl|].
    unfold lstrip_space in Hfix. rewrite lstrip_by_keep in Hfix by done.
    destruct (starts_by _ _ _ (rev (chars s))) eqn:Hs; [|done].
    apply lstrip_by_shorter in Hs. unfold rstrip_space in Hfix.
    apply (f_equal (@length ascii)) in Hfix.
    rewrite !length_rev in *. lia.
  - intros [Hl Hr]. unfold strip, lstrip_space, rstrip_space.
    rewrite (lstrip_by_keep _ _ _ _ Hl), (lstrip_by_keep _ _ _ _ Hr).
    by rewrite rev_involutive, of_chars_chars.
Qed.

(** A character of the ASCII range is in no blank of several bytes. *)
Lemma is_space2_ascii a b :
  code a < 128 \/ code b < 128 -> is_space2 a b = false.
Proof.
  intros Hc. destruct (is_space2 a b) eqn:Hs; [|done]. revert Hs.
  unfold is_space2.
  rewrite andb_true_iff, orb_true_iff, !Nat.eqb_eq. lia.
Qed.

Lemma is_space3_ascii a b c :
  code a < 128 \/ code b < 128 \/ code c < 128 -> is_space3 a b c = false.
Proof.
  intros Hc. destruct (is_space3 a b c) eqn:Hs; [|done]. revert Hs.
  unfold is_space3.
  rewrite !orb_true_iff, !andb_true_iff, !orb_true_iff, !andb_true_iff,
    !Nat.eqb_eq, !Nat.leb_le.
  lia.
Qed.

Lemma code_comma : code comma < 128.
Proof. vm_compute. lia. Qed.

(** A text between two ASCII characters that are not blanks is
    trimmed. *)
Lemma strip_between a l b :
  code a < 128 -> is_space a = false ->
  code b < 128 -> is_space b = false ->
  strip (of_chars (a :: l ++ [b])) = of_chars (a :: l ++ [b]).
Proof.
  intros Ha Hsa Hb Hsb. apply strip_fixed. rewrite chars_of_chars. split.
  - simpl. rewrite Hsa. simpl.
    destruct (l ++ [b]) as [|x [|y r]]; [done| |];
      rewrite ?is_space2_ascii, ?is_space3_ascii by auto; done.
  - change (a :: l ++ [b]) with ((a :: l) ++ [b]).
    rewrite rev_app_distr. simpl. rewrite Hsb. simpl.
    destruct (rev l ++ [a]) as [|x [|y r]]; [done| |];
      rewrite ?is_space2_ascii, ?is_space3_ascii by auto; done.
Qed.

Lemma split_chars_nosep sep l :
  Forall (fun c => Ascii.eqb c sep = false) l -> split_chars sep l = [l].
Proof.
  induction 1 as [|c l Hc _ IH]; simpl; [reflexivity|]. by rewrite Hc, IH.
Qed.

Lemma split_chars_app sep l r :
  Forall (fun c => Ascii.eqb c sep = false) l ->
  split_chars sep (l ++ sep :: r) = l :: split_chars sep r.
Proof.
  induction 1 as [|c l Hc _ IH]; simpl.
  - by rewrite Ascii.eqb_refl.
  - by rewrite Hc, IH.
Qed.

Lemma contains_app c s t : contains c (s +:+ t) = contains c s || contains c t.
Proof. unfold contains. by rewrite chars_app, existsb_app. Qed.

Lemma contains_false c s :
  contains c s = false -> Forall (fun d => Ascii.eqb d c = false) (chars s).
Proof.
  unfold contains. induction (chars s) as [|d l IH]; simpl; [constructor|].
  intros [Hd Hl]%orb_false_iff. constructor; [|by apply IH].
  by rewrite Ascii.eqb_sym.
Qed.

Lemma truthy_trimmed t : trimmed_token t -> truthy t = true.
Proof. intros [Hne _]. by destruct t. Qed.

Lemma strip_trimmed t : trimmed_token t -> strip t = t.
Proof. by intros (_ & ? & _). Qed.

Lemma join_cons2 t t2 rest :
  join "," (t :: t2 :: rest) = t +:+ "," +:+ join "," (t2 :: rest).
Proof. reflexivity. Qed.

(** The comma-separated text of trimmed tokens is not empty and is
    trimmed. *)
Lemma join_trimmed tokens :
  tokens <> [] -> Forall trimmed_token tokens ->
  join "," tokens <> "" /\ strip (join "," tokens) = join "," tokens.
Proof.
  intros Hne Hall. rewrite strip_fixed.
  induction Hall as [|t rest Ht Hrest IH]; [done|].
  destruct Ht as (Hnet & Hfix & _). apply strip_fixed in Hfix as [Hl Hr].
  destruct rest as [|t2 rest]; [simpl; split_and!; assumption|].
  destruct IH as (Hne2 & _ & Hr2); [done|].
  rewrite join_cons2. split; [by destruct t|].
  rewrite !chars_app. change (chars ",") with [comma]. split.
  - apply starts_by_app; [by apply chars_nonempty| | | |done];
      intros; first [apply is_space2_ascii|apply is_space3_ascii];
      auto using code_comma.
  - rewrite !rev_app_distr. simpl rev. rewrite <- app_assoc. simpl app.
    apply starts_by_app;
      [intros Hnil; apply (f_equal (@rev ascii)) in Hnil;
       rewrite rev_involutive in Hnil; by apply chars_nonempty in Hne2
      | | | |done];
      intros; first [apply is_space2_ascii|apply is_space3_ascii];
      auto using code_comma.
Qed.

Lemma split_join tokens :
  tokens <> [] -> Forall trimmed_token tokens ->
  split comma (join "," tokens) = tokens.
Proof.
  intros Hne Hall. induction Hall as [|t rest Ht Hrest IH]; [done|].
  destruct Ht as (_ & _ & Hcomma). apply contains_false in Hcomma.
  destruct rest as [|t2 rest].
  - unfold split. simpl. rewrite split_chars_nosep by done.
    simpl. by rewrite of_chars_chars.
  - rewrite join_cons2. unfold split. rewrite !chars_app.
    change (chars ",") with [comma]. simpl app at 2.
    rewrite split_chars_app by done.
    simpl map. rewrite of_chars_chars. f_equal. by apply IH.
Qed.

Lemma contains_comma_join tokens :
  Forall trimmed_token tokens ->
  contains comma (join "," tokens)
  = match tokens with _ :: _ :: _ => true | _ => false end.
Proof.
  intros Hall. destruct Hall as [|t rest Ht Hrest]; [reflexivity|].
  destruct rest as [|t2 rest].
  - simpl. by destruct Ht as (_ & _ & ?).
  - rewrite join_cons2, !contains_app. change (contains comma ",") with true.
    by rewrite orb_true_r.
Qed.

End Strings.

(** ** The three encodings of a location *)

Section Encodings.
Context `{PyRuntime}.

Import PyStr.

(** The function on a text. *)
Lemma _validate_location_array_str s errs :
  _validate_location_array (VStr s) errs
  = if String.eqb s "" || String.eqb s "nan" then Ok (None, errs)
    else
      let value := strip_braces (strip s) in
      if startswith lbracket value && endswith rbracket value then
        match json_loads value with
        | Ok (VList loc_list) => Ok (Some (clean_locations loc_list), errs)
        | Ok _ => Ok (plain_locations value, errs)
        | Raise e =>
            match exn_kind e with
            | JSONDecodeError => Ok (plain_locations value, errs)
            | _ => Ok (None, errs ++ ["Invalid location format: " +:+ exn_msg e])
            end
        end
      else Ok (plain_locations value, errs).
Proof. reflexivity. Qed.

Lemma split_locations_join tokens :
  tokens <> [] -> Forall trimmed_token tokens ->
  split_locations (join "," tokens) = tokens.
Proof.
  intros Hne Hall. unfold split_locations. rewrite split_join by assumption.
  clear Hne. induction Hall as [|t rest Ht _ IH]; [reflexivity|].
  unfold omap in *. cbn [list_omap].
  rewrite strip_trimmed, truthy_trimmed by assumption. by rewrite IH.
Qed.

Lemma plain_locations_join tokens :
  tokens <> [] -> Forall trimmed_token tokens ->
  plain_locations (join "," tokens) = Some tokens.
Proof.
  intros Hne Hall. unfold plain_locations.
  rewrite contains_comma_join by assumption.
  destruct tokens as [|t [|t2 rest]]; [done| |].
  - apply Forall_inv in Hall. cbn [join].
    by rewrite strip_trimmed, truthy_trimmed by assumption.
  - by rewrite split_locations_join.
Qed.

Lemma clean_locations_tokens tokens :
  Forall trimmed_token tokens -> clean_locations (map VStr tokens) = tokens.
Proof.
  induction 1 as [|t rest Ht _ IH]; [reflexivity|].
  unfold clean_locations, omap in *. cbn [map list_omap Py.str].
  rewrite strip_trimmed, truthy_trimmed by assumption.
  assert (Py.truthy (VStr t) = true) as -> by by apply truthy_trimmed.
  cbn [andb]. by rewrite IH.
Qed.

Lemma join_not_nan tokens :
  tokens <> [] -> Forall trimmed_token tokens -> tokens <> ["nan"] ->
  String.eqb (join "," tokens) "" = false
  /\ String.eqb (join "," tokens) "nan" = false.
Proof.
  intros Hne Hall Hnan. split; apply String.eqb_neq; intros Heq.
  - by destruct (join_trimmed tokens Hne Hall) as [Hj _].
  - pose proof (contains_comma_join tokens Hall) as Hcomma.
    rewrite Heq in Hcomma.
    destruct tokens as [|t [|t2 rest]]; [done| |discriminate].
    simpl in Heq. by subst t.
Qed.

(** The braces around a text that has none at its ends are all that
    [strip('{}')] removes. *)
Lemma strip_braces_wrapped s :
  s <> "" -> strip_braces s = s ->
  strip_braces ("{" +:+ s +:+ "}") = s.
Proof.
  intros Hne Hfix. apply (f_equal chars) in Hfix. unfold strip_braces in *.
  rewrite chars_of_chars in Hfix.
  destruct (strip_with_fixed is_brace (chars s))
    as (c & r & l' & c' & Hc & Heq & Hbc & Hbc'); [by apply chars_nonempty|done|].
  rewrite !chars_app, Hc.
  change (chars "{" ++ (c :: r) ++ chars "}")
    with (lbrace :: (c :: r) ++ [rbrace]).
  rewrite (strip_with_wrapped _ lbrace rbrace c r c' l') by done.
  by rewrite <- Hc, of_chars_chars.
Qed.

(** The plain reading of the comma-separated text of trimmed tokens. *)
Lemma bare_join_locations tokens errs :
  tokens <> [] -> Forall trimmed_token tokens -> tokens <> ["nan"] ->
  bare (join "," tokens) ->
  (let value := join "," tokens in
   if startswith lbracket value && endswith rbracket value then
     match json_loads value with
     | Ok (VList loc_list) => Ok (Some (clean_locations loc_list), errs)
     | Ok _ => Ok (plain_locations value, errs)
     | Raise e =>
         match exn_kind e with
         | JSONDecodeError => Ok (plain_locations value, errs)
         | _ => Ok (None, errs ++ ["Invalid location format: " +:+ exn_msg e])
         end
     end
   else Ok (plain_locations value, errs))
  = Ok (Some tokens, errs).
Proof.
  intros Hne Hall Hnan [_ Hjson]. cbv zeta.
  rewrite plain_locations_join by assumption.
  destruct (startswith lbracket _ && endswith rbracket _); [|reflexivity].
  specialize (Hjson eq_refl).
  destruct (json_loads _) as [v|e].
  - by destruct v.
  - by rewrite Hjson.
Qed.

(** C7 (as amended): for every non-empty sequence of tokens that are
    not empty, have no blank around them (the blanks being those of
    [str.strip], the Unicode ones included) and hold no comma, other
    than the single token [nan], and whose comma-separated text neither
    starts or ends with a brace nor is read by [json.loads] as a list
    (or refused by it otherwise than with a decode error) when it is
    wrapped in brackets: its JSON array literal, its comma-separated
    string and its brace-wrapped string all normalise to that sequence,
    [json.loads] reading the literal as the list of its strings.  Blanks
    inside a token are kept. *)
Theorem encodings_agree tokens errs :
  tokens <> [] ->
  Forall trimmed_token tokens ->
  tokens <> ["nan"] ->
  bare (comma_encoding tokens) ->
  json_loads (json_encoding tokens) = Ok (VList (map VStr tokens)) ->
  _validate_location_array (VStr (json_encoding tokens)) errs
  = Ok (Some tokens, errs)
  /\ _validate_location_array (VStr (comma_encoding tokens)) errs
     = Ok (Some tokens, errs)
  /\ _validate_location_array (VStr (brace_encoding tokens)) errs
     = Ok (Some tokens, errs).
Proof.
  intros Hne Hall Hnan Hbare Hjson. unfold comma_encoding in Hbare.
  destruct (join_trimmed tokens Hne Hall) as [Hnonempty Hstrip].
  destruct (join_not_nan tokens Hne Hall Hnan) as [Hempty Hnotnan].
  pose proof Hbare as [Hbraces _].
  rewrite !_validate_location_array_str.
  split; [|split].
  - set (body := join "," (map (fun t => String dquote (t +:+ String dquote "")) tokens)).
    assert (Hchars : chars (json_encoding tokens)
                     = lbracket :: (chars body ++ [rbracket])).
    { unfold json_encoding. fold body. by rewrite !chars_app. }
    assert (Hjstrip : strip (json_encoding tokens) = json_encoding tokens).
    { rewrite <- (of_chars_chars (json_encoding tokens)), Hchars.
      apply strip_between; (vm_compute; lia) || reflexivity. }
    assert (Hjbraces : strip_braces (json_encoding tokens) = json_encoding tokens).
    { unfold strip_braces. rewrite Hchars.
      rewrite (strip_with_keep _ lbracket _ rbracket (lbracket :: chars body))
        by done.
      by rewrite <- Hchars, of_chars_chars. }
    assert (String.eqb (json_encoding tokens) "" = false) as ->.
    { apply String.eqb_neq. intros Heq. by rewrite Heq in Hchars. }
    assert (String.eqb (json_encoding tokens) "nan" = false) as ->.
    { apply String.eqb_neq. intros Heq. by rewrite Heq in Hchars. }
    cbn [orb]. cbv zeta. rewrite Hjstrip, Hjbraces.
    assert (startswith lbracket (json_encoding tokens) = true) as ->
      by (unfold startswith; by rewrite Hchars).
    assert (endswith rbracket (json_encoding tokens) = true) as ->.
    { unfold endswith. rewrite Hchars.
      change (lbracket :: chars body ++ [rbracket])
        with ((lbracket :: chars body) ++ [rbracket]).
      by rewrite rev_app_distr. }
    cbn [andb]. rewrite Hjson. by rewrite clean_locations_tokens.
  - unfold comma_encoding. rewrite Hempty, Hnotnan. cbn [orb].
    rewrite Hstrip, Hbraces. by apply bare_join_locations.
  - assert (Hchars : chars (brace_encoding tokens)
                     = lbrace :: (chars (join "," tokens) ++ [rbrace])).
    { unfold brace_encoding. by rewrite !chars_app. }
    assert (Hbstrip : strip (brace_encoding tokens) = brace_encoding tokens).
    { rewrite <- (of_chars_chars (brace_encoding tokens)), Hchars.
      apply strip_between; (vm_compute; lia) || reflexivity. }
    assert (Hbbraces : strip_braces (brace_encoding tokens) = join "," tokens)
      by by apply strip_braces_wrapped.
    assert (String.eqb (brace_encoding tokens) "" = false) as ->.
    { apply String.eqb_neq. intros Heq. by rewrite Heq in Hchars. }
    assert (String.eqb (brace_encoding tokens) "nan" = false) as ->.
    { apply String.eqb_neq. intros Heq. by rewrite Heq in Hchars. }
    cbn [orb]. rewrite Hbstrip, Hbbraces. by apply bare_join_locations.
Qed.

End Encodings.

(** ** The two resolvers *)

Section Resolvers.
Context `{PyRuntime} `{Catalogue}.

Import PyStr.

Lemma fold_metadata_lookup (rows : list MetaRow) (m0 : gmap string MetaRow) p :
  is_Some (fold_left (fun metadata row => <[meta_product_id row := row]> metadata)
             rows m0 !! p)
  <-> is_Some (m0 !! p) \/ exists m, m ∈ rows /\ meta_product_id m = p.
Proof.
  revert m0. induction rows as [|r rows IH]; intros m0; simpl.
  - split; [auto|]. intros [?|(m & Hm & _)]; [done|]. inversion Hm.
  - rewrite IH. rewrite lookup_insert_is_Some. split.
    + intros [[Heq|[_ ?]]|(m & Hm & <-)]; [right|left|right].
      * exists r. split; [apply list_elem_of_here|done].
      * done.
      * exists m. split; [by apply list_elem_of_further|done].
    + intros [Hm0|(m & Hm & <-)].
      * left. destruct (decide (meta_product_id r = p)); [by left|by right].
      * apply elem_of_cons in Hm as [->|Hm]; [left; by left|].
        right. by exists m.
Qed.

(** A requested product id is found exactly when the reference table
    has a record for it. *)
Lemma get_metadata_batch_found st product_ids p :
  p ∈ product_ids ->
  is_Some (get_metadata_batch st false product_ids !! p)
  <-> exists m, m ∈ original_all_products st /\ meta_product_id m = p.
Proof.
  intros Hp. unfold get_metadata_batch.
  destruct product_ids as [|q ids]; [inversion Hp|].
  rewrite fold_metadata_lookup, lookup_empty. unfold select_metadata.
  split.
  - intros [[? ?]|(m & Hm & <-)]; [done|].
    apply list_elem_of_filter in Hm as [_ Hm]. by exists m.
  - intros (m & Hm & <-). right. exists m. split; [|done].
    apply list_elem_of_filter. by split.
Qed.

(** On a connection whose transaction has failed the query fails and
    the handler returns the empty mapping. *)
Lemma get_metadata_batch_failed st product_ids :
  get_metadata_batch st true product_ids = ∅.
Proof. unfold get_metadata_batch. by destruct product_ids. Qed.

Lemma kept_codes_cons code codes :
  kept_codes (code :: codes)
  = (if truthy code && truthy (strip code) then [strip code] else [])
    ++ kept_codes codes.
Proof.
  unfold kept_codes, omap. simpl.
  destruct (truthy code && truthy (strip code)); reflexivity.
Qed.

Lemma clean_codes_fold codes cm l :
  fold_left add_clean_code codes (cm, l)
  = (fold_left (fun m c => <[lower c := c]> m) (kept_codes codes) cm,
     l ++ map lower (kept_codes codes)).
Proof.
  revert cm l. induction codes as [|code codes IH]; intros cm l.
  - simpl. by rewrite app_nil_r.
  - rewrite kept_codes_cons. cbn [fold_left]. unfold add_clean_code at 2.
    destruct (truthy code && truthy (strip code)).
    + rewrite IH. simpl. by rewrite <- app_assoc.
    + rewrite IH. reflexivity.
Qed.

(** A binding of the code mapping comes from a kept code. *)
Lemma code_mapping_Some (codes : list string) (cm : gmap string string) k c :
  fold_left (fun m c => <[lower c := c]> m) codes cm !! k = Some c ->
  cm !! k = Some c \/ (c ∈ codes /\ lower c = k).
Proof.
  revert cm. induction codes as [|a codes IH]; intros cm; simpl; [auto|].
  intros Hl. apply IH in Hl as [Hl|[Hin Hk]].
  - apply lookup_insert_Some in Hl as [[<- <-]|[_ Hl]]; [right|by left].
    split; [apply list_elem_of_here|done].
  - right. split; [by apply list_elem_of_further|done].
Qed.

Lemma code_mapping_stable (codes : list string) (cm : gmap string string) k c :
  (forall c', c' ∈ codes -> lower c' = k -> c' = c) ->
  cm !! k = Some c ->
  fold_left (fun m c => <[lower c := c]> m) codes cm !! k = Some c.
Proof.
  revert cm. induction codes as [|a codes IH]; intros cm Hsame Hl; simpl; [done|].
  apply IH.
  - intros c' Hc'. apply Hsame. by apply list_elem_of_further.
  - destruct (decide (lower a = k)) as [Heq|Hne].
    + assert (a = c) as -> by (apply Hsame; [apply list_elem_of_here|done]).
      subst k. apply lookup_insert_eq.
    + by rewrite lookup_insert_ne.
Qed.

(** With case-consistent codes each kept code is bound to itself. *)
Lemma code_mapping_kept (codes : list string) (cm : gmap string string) c :
  case_consistent codes -> c ∈ codes ->
  fold_left (fun m c => <[lower c := c]> m) codes cm !! lower c = Some c.
Proof.
  revert cm. induction codes as [|a codes IH]; intros cm Hcons Hc;
    [inversion Hc|].
  simpl. destruct (decide (c ∈ codes)) as [Hin|Hnotin].
  - apply IH; [|done]. intros x y Hx Hy. apply Hcons; by apply list_elem_of_further.
  - apply elem_of_cons in Hc as [->|?]; [|done].
    apply code_mapping_stable; [|by rewrite lookup_insert_eq].
    intros c' Hc' Heq. apply Hcons; [by apply list_elem_of_further| |done].
    apply list_elem_of_here.
Qed.

Lemma map_code_field_lookup cm row (pd : gmap string PriceRecord) field k :
  is_Some (map_code_field cm row pd field !! k)
  <-> is_Some (pd !! k)
      \/ exists f, field = Some f /\ truthy f = true
                   /\ cm !! lower f = Some k /\ truthy k = true.
Proof.
  split.
  - unfold map_code_field. destruct field as [f|]; [|by left].
    destruct (truthy f) eqn:Hf; [|by left].
    destruct (cm !! lower f) as [orig|] eqn:Hcm; [|by left].
    destruct (truthy orig) eqn:Horig; [|by left].
    rewrite lookup_insert_is_Some. intros [<-|[_ ?]]; [right|by left].
    by exists f.
  - intros [Hpd|(f & -> & Hf & Hcm & Hk)]; unfold map_code_field.
    + repeat case_match; try done.
      rewrite lookup_insert_is_Some.
      match goal with
      | |- ?a = k \/ _ => destruct (decide (a = k)); [by left|by right]
      end.
    + rewrite Hf, Hcm, Hk. rewrite lookup_insert_eq. eauto.
Qed.

Lemma fold_prices_lookup cm (rows : list PriceRow) (pd : gmap string PriceRecord) k :
  is_Some
    (fold_left
       (fun price_details row =>
          fold_left (map_code_field cm row)
            [pr_item_code row; pr_original_item_code row] price_details)
       rows pd !! k)
  <-> is_Some (pd !! k) \/ exists row, row ∈ rows /\ binds cm row k.
Proof.
  revert pd. induction rows as [|r rows IH]; intros pd.
  - simpl. split; [auto|]. intros [?|(row & Hrow & _)]; [done|inversion Hrow].
  - cbn [fold_left]. rewrite IH, !map_code_field_lookup. unfold binds. split.
    + intros [[[?|(f & Hf & ?)]|(f & Hf & ?)]|(row & Hrow & ?)].
      * by left.
      * right. exists r. split; [apply list_elem_of_here|]. exists f.
        split; [left; congruence|done].
      * right. exists r. split; [apply list_elem_of_here|]. exists f.
        split; [right; congruence|done].
      * right. exists row. split; [by apply list_elem_of_further|done].
    + intros [?|(row & Hrow & f & Hf & ?)]; [left; left; by left|].
      apply elem_of_cons in Hrow as [->|Hrow].
      * left. destruct Hf as [Hf|Hf]; [left; right|right]; by exists f.
      * right. exists row. split; [done|]. by exists f.
Qed.

Lemma truthy_true s : truthy s = true <-> s <> "".
Proof. destruct s; cbn; split; intros; done. Qed.

Lemma kept_codes_truthy codes k : k ∈ kept_codes codes -> truthy k = true.
Proof.
  unfold kept_codes. rewrite list_elem_of_omap. intros (c & _ & Hc).
  destruct (truthy c && truthy (strip c)) eqn:Ht; [|done].
  injection Hc as <-. by apply andb_true_iff in Ht as [_ ?].
Qed.

(** What [get_price_details_batch] computes, with the code mapping and
    the selected rows made explicit. *)
Lemma get_price_details_batch_lookup st item_codes k :
  let cm := fold_left (fun m c => <[lower c := c]> m) (kept_codes item_codes) ∅ in
  let results :=
    select_prices (distributor_master_list st)
      (map lower (kept_codes item_codes)) in
  is_Some (get_price_details_batch st item_codes !! k)
  <-> exists row, row ∈ results /\ binds cm row k.
Proof.
  intros cm results.
  assert (Hnone : kept_codes item_codes = [] ->
                  ~ exists row, row ∈ results /\ binds cm row k).
  { intros Hk (row & _ & f & _ & _ & Hcm & _). subst cm.
    rewrite Hk in Hcm. simpl in Hcm. by rewrite lookup_empty in Hcm. }
  destruct item_codes as [|code codes].
  { change (get_price_details_batch st [])
      with (@empty (gmap string PriceRecord) _).
    rewrite lookup_empty. split; [intros [? ?]; done|].
    intros Hex. by apply Hnone in Hex. }
  unfold get_price_details_batch, clean_codes.
  rewrite clean_codes_fold, app_nil_l.
  destruct (map lower (kept_codes (code :: codes))) as [|lc lcs] eqn:Hl.
  { rewrite lookup_empty. split; [intros [? ?]; done|].
    intros Hex. apply Hnone in Hex; [done|].
    by destruct (kept_codes (code :: codes)). }
  rewrite fold_prices_lookup, lookup_empty. subst cm results. rewrite ?Hl.
  split; [intros [[? ?]|?]; done | by right].
Qed.

(** A key that is not a kept code gets no record. *)
Lemma get_price_details_batch_absent st item_codes k :
  k ∉ kept_codes item_codes ->
  get_price_details_batch st item_codes !! k = None.
Proof.
  intros Hk. apply eq_None_not_Some. rewrite get_price_details_batch_lookup.
  intros (row & _ & f & _ & _ & Hcm & _).
  apply code_mapping_Some in Hcm as [Hcm|[Hin _]]; [|done].
  by rewrite lookup_empty in Hcm.
Qed.

(** With case-consistent codes, a kept code gets a record exactly when
    some record of the reference table answers to it, under its
    canonical or under its alternate code. *)
Lemma get_price_details_batch_found st item_codes k :
  case_consistent (kept_codes item_codes) ->
  k ∈ kept_codes item_codes ->
  is_Some (get_price_details_batch st item_codes !! k)
  <-> exists row, row ∈ distributor_master_list st /\ answers_to row k.
Proof.
  intros Hcons Hk. rewrite get_price_details_batch_lookup. split.
  - intros (row & Hrow & f & Hf & Ht & Hcm & _).
    apply list_elem_of_filter in Hrow as [_ Hrow].
    exists row. split; [done|]. exists f. split; [done|].
    split; [by apply truthy_true|].
    apply code_mapping_Some in Hcm as [Hcm|[_ Heq]]; [|done].
    by rewrite lookup_empty in Hcm.
  - intros (row & Hrow & f & Hf & Hne & Heq).
    exists row. split.
    + apply list_elem_of_filter. split; [|done].
      assert (Hin : lower f ∈ map lower (kept_codes item_codes)).
      { rewrite Heq. apply list_elem_of_fmap. by exists k. }
      unfold lower_matches.
      destruct Hf as [-> | ->]; rewrite bool_decide_true by done;
        [done|by rewrite orb_true_r].
    + exists f. split; [done|]. split; [by apply truthy_true|].
      split; [|by apply kept_codes_truthy with item_codes].
      rewrite Heq. by apply code_mapping_kept.
Qed.

End Resolvers.

(** ** The verdict on a row does not depend on its chunk *)

Section Verdicts.
Context `{PyRuntime} `{Catalogue}.

Import PyStr.

(** A row that has the column reads the same cell in the validator and
    in the keys of its chunk. *)
Lemma row_get_stripped_cell ir col default :
  is_Some (snd ir !! col) ->
  strip (Py.str (row_get (snd ir) col default)) = stripped_cell col ir.
Proof.
  intros [c Hc]. unfold row_get, stripped_cell. by rewrite Hc.
Qed.

Lemma row_identifier_present row col :
  strip (Py.str (row_get row col (VStr ""))) <> "" -> is_Some (row !! col).
Proof.
  unfold row_get. destruct (row !! col); [eauto|]. intros Hne. by destruct Hne.
Qed.

Lemma stripped_cell_strip col ir :
  strip (stripped_cell col ir) = stripped_cell col ir.
Proof. apply strip_idemp. Qed.

Lemma chunk_item_codes_elem c k :
  k ∈ chunk_item_codes c
  <-> k <> "" /\ k <> "nan" /\ exists ir, ir ∈ c /\ stripped_cell "item_code" ir = k.
Proof.
  unfold chunk_item_codes, stripped_column.
  rewrite list_elem_of_filter, list_elem_of_fmap.
  rewrite andb_True, negb_True, Is_true_true, truthy_true.
  rewrite Is_true_true, String.eqb_eq. split.
  - intros [[? ?] (ir & -> & ?)]. eauto.
  - intros (? & ? & ir & ? & <-). eauto.
Qed.

Lemma kept_codes_chunk c : kept_codes (chunk_item_codes c) = chunk_item_codes c.
Proof.
  assert (Hall : forall k, k ∈ chunk_item_codes c -> strip k = k /\ truthy k = true).
  { intros k Hk. apply chunk_item_codes_elem in Hk as (Hne & _ & ir & _ & <-).
    split; [apply stripped_cell_strip|by apply truthy_true]. }
  induction (chunk_item_codes c) as [|k l IH]; [reflexivity|].
  rewrite kept_codes_cons.
  destruct (Hall k (list_elem_of_here _ _)) as [-> ->]. simpl.
  f_equal. apply IH. intros k' Hk'. apply Hall. by apply list_elem_of_further.
Qed.

Lemma chunk_codes_consistent c :
  codes_case_consistent c -> case_consistent (kept_codes (chunk_item_codes c)).
Proof.
  intros Hcons. rewrite kept_codes_chunk. intros k k' Hk Hk'.
  apply chunk_item_codes_elem in Hk as (_ & _ & ir & Hir & <-).
  apply chunk_item_codes_elem in Hk' as (_ & _ & ir' & Hir' & <-).
  apply Hcons; by apply list_elem_of_fmap_2.
Qed.

(** The answer to a row of a chunk with case-consistent codes: the row is
    accepted exactly when it is eligible. *)
Lemma verdict_eligible st c ir :
  ir ∈ c -> codes_case_consistent c ->
  is_valid
    (verdict (get_metadata_batch st false (chunk_product_ids c))
       (get_price_details_batch st (chunk_item_codes c)) ir) = true
  <-> eligible st (snd ir).
Proof.
  intros Hir Hcons. unfold verdict, eligible.
  rewrite validate_and_collate_row_valid.
  split.
  - intros (Hp & Hc & Hm & Hpr & Hn). split_and!; try done.
    + apply row_identifier_present in Hp as Hkey.
      unfold row_product_id in *.
      rewrite (row_get_stripped_cell _ _ _ Hkey) in *.
      apply get_metadata_batch_found in Hm; [done|].
      by apply list_elem_of_fmap_2.
    + intros Hnan. rewrite get_price_details_batch_absent in Hpr;
        [by destruct Hpr|].
      rewrite kept_codes_chunk, chunk_item_codes_elem, Hnan.
      intros (_ & Hnn & _). by apply Hnn.
    + destruct (decide (row_item_code (snd ir) ∈ kept_codes (chunk_item_codes c)))
        as [Hin|Hnotin].
      * by apply get_price_details_batch_found in Hpr;
          [|apply chunk_codes_consistent|].
      * rewrite get_price_details_batch_absent in Hpr by done.
        by destruct Hpr.
  - intros (Hp & Hc & Hm & [Hnan Hpr] & Hn). split_and!; try done.
    + apply row_identifier_present in Hp as Hkey.
      unfold row_product_id in *.
      rewrite (row_get_stripped_cell _ _ _ Hkey) in *.
      apply get_metadata_batch_found; [|done].
      by apply list_elem_of_fmap_2.
    + apply get_price_details_batch_found; [by apply chunk_codes_consistent| |done].
      rewrite kept_codes_chunk, chunk_item_codes_elem.
      apply row_identifier_present in Hc as Hkey.
      split_and!; [done|done|]. exists ir. split; [done|].
      symmetry. by apply row_get_stripped_cell.
Qed.

(** On a connection whose transaction has failed no row is accepted. *)
Lemma verdict_failed st ids pd ir :
  is_valid (verdict (get_metadata_batch st true ids) pd ir) = false.
Proof.
  apply not_true_iff_false. unfold verdict.
  rewrite validate_and_collate_row_valid, get_metadata_batch_failed.
  intros (_ & _ & [m Hm] & _). by rewrite lookup_empty in Hm.
Qed.

Lemma singleton_consistent ir : codes_case_consistent [ir].
Proof.
  intros k k' Hk Hk' _. simpl in *.
  apply list_elem_of_singleton in Hk, Hk'. congruence.
Qed.

Lemma accepts_eligible st ir : accepts st ir = true <-> eligible st (snd ir).
Proof.
  unfold accepts. apply verdict_eligible;
    [apply list_elem_of_here|apply singleton_consistent].
Qed.

(** The answer in a chunk is the answer to the row alone. *)
Lemma verdict_accepts st c ir :
  ir ∈ c -> codes_case_consistent c ->
  is_valid
    (verdict (get_metadata_batch st false (chunk_product_ids c))
       (get_price_details_batch st (chunk_item_codes c)) ir)
  = accepts st ir.
Proof.
  intros Hir Hcons. apply eq_true_iff_eq.
  by rewrite verdict_eligible, accepts_eligible.
Qed.


End Verdicts.
(** ** Running the pipeline twice *)

Section Rerun.
Context `{PyRuntime} `{Catalogue}.

Import PyStr.





Lemma valid_dict_accepts md pd ir :
  is_Some (valid_dict md pd ir) <-> is_valid (verdict md pd ir) = true.
Proof.
  unfold valid_dict. destruct (verdict md pd ir); simpl.
  - split; eauto.
  - split; [intros [? ?]; done|done].
Qed.




Lemma batch_rows_length valid_data :
  length (batch_rows valid_data) = length valid_data.
Proof.
  unfold batch_rows. destruct valid_data; [reflexivity|].
  by rewrite length_map.
Qed.

(** Whatever happens in an iteration of the chunk loop, the destination
    grows by as many rows as are counted as inserted, and the reference
    tables stay. *)
Lemma process_chunk_written ls c :
  let ls' := process_chunk ls c in
  same_references (ls_collator ls) (ls_collator ls')
  /\ exists written,
       catalogue (ls_collator ls') = catalogue (ls_collator ls) ++ written
       /\ successful_inserts (ls_results ls')
          = successful_inserts (ls_results ls) + length written.
Proof.
  cbv zeta. destruct (ls_raised ls) as [e|] eqn:Hrun.
  { unfold process_chunk. rewrite Hrun. split; [done|]. exists [].
    rewrite app_nil_r. split; [done|]. simpl. lia. }
  destruct (collect_chunk_spec ls c)
    as (res & st & Hc & _ & _ & Hs & _ & _ & _ & Hcat & Href).
  destruct (process_chunk_spec ls c Hrun) as (res' & st' & Hc' & ->).
  rewrite Hc in Hc'. simplify_eq. cbv zeta.
  destruct (chunk_valid_data _ _ c) as [|d vd].
  { simpl. split; [done|]. exists []. rewrite app_nil_r. split; [done|].
    simpl. lia. }
  destruct (insert_batch (d :: vd) (ls_failed ls) st')
    as [[[[|] st''] failed']|e] eqn:Hins.
  - apply insert_batch_success in Hins as (-> & _ & _). simpl.
    split; [exact Href|]. exists (batch_rows (d :: vd)).
    rewrite Hcat. split; [done|]. rewrite batch_rows_length. simpl. lia.
  - apply insert_batch_failure in Hins as (-> & _). simpl.
    split; [exact Href|]. exists []. rewrite app_nil_r. split; [done|].
    simpl. lia.
  - simpl. split; [exact Href|]. exists []. rewrite app_nil_r.
    split; [done|]. simpl. lia.
Qed.

Lemma same_references_trans st1 st2 st3 :
  same_references st1 st2 -> same_references st2 st3 -> same_references st1 st3.
Proof. intros [? ?] [? ?]. split; congruence. Qed.

Lemma process_chunks_written cs ls :
  let ls' := fold_left process_chunk cs ls in
  same_references (ls_collator ls) (ls_collator ls')
  /\ exists written,
       catalogue (ls_collator ls') = catalogue (ls_collator ls) ++ written
       /\ successful_inserts (ls_results ls')
          = successful_inserts (ls_results ls) + length written.
Proof.
  revert ls. induction cs as [|c cs IH]; intros ls; cbv zeta.
  { simpl. split; [done|]. exists []. rewrite app_nil_r. split; [done|].
    simpl. lia. }
  cbn [fold_left].
  destruct (process_chunk_written ls c) as (Href & W & Hcat & Hsi).
  destruct (IH (process_chunk ls c)) as (Href' & W' & Hcat' & Hsi').
  split; [by eapply same_references_trans|].
  exists (W ++ W'). rewrite Hcat', Hcat, Hsi', Hsi, length_app, app_assoc.
  split; [done|lia].
Qed.

(** A run adds to the destination as many rows as it counts as
    inserted, and leaves the reference tables as they were. *)
Lemma collate_and_migrate_written csv connects batch_size st :
  let run := collate_and_migrate csv connects batch_size st in
  same_references st (snd run)
  /\ exists written,
       catalogue (snd run) = catalogue st ++ written
       /\ successful_inserts (fst run) = length written.
Proof.
  cbv zeta.
  destruct (collate_and_migrate_cases csv connects batch_size st)
    as [(r & -> & _ & Hsi & _)|(df & -> & -> & _ & _ & _ & ->)].
  { simpl. split; [done|]. exists []. by rewrite app_nil_r. }
  match goal with
  | |- context [fold_left process_chunk ?cs ?ls] =>
      destruct (process_chunks_written cs ls) as (Href & W & Hcat & Hsi);
      destruct (finish_keeps (fold_left process_chunk cs ls))
        as (_ & _ & _ & -> & _ & ->)
  end.
  simpl in Href, Hcat, Hsi. split; [exact Href|]. by exists W.
Qed.















Lemma drop_duplicate_rows_spec seen rows :
  NoDup (map row_key (drop_duplicate_rows seen rows))
  /\ forall ir, ir ∈ drop_duplicate_rows seen rows ->
               ir ∈ rows /\ row_key ir ∉ seen.
Proof.
  revert seen. induction rows as [|ir rows IH]; intros seen; simpl.
  - split; [constructor|inversion 1].
  - case_bool_decide as Hseen.
    + destruct (IH seen) as [Hnd Hin]. split; [done|].
      intros ir' Hir'. destruct (Hin ir' Hir'). split; [by right|done].
    + destruct (IH (row_key ir :: seen)) as [Hnd Hin]. split.
      * cbn [map]. apply NoDup_cons. split; [|done].
        intros Hk. apply list_elem_of_fmap in Hk as (ir' & Heq & Hir').
        destruct (Hin ir' Hir') as [_ Hnot]. apply Hnot. rewrite <- Heq.
        apply list_elem_of_here.
      * intros ir' Hir'. apply elem_of_cons in Hir' as [->|Hir'].
        { split; [apply list_elem_of_here|done]. }
        destruct (Hin ir' Hir') as [? Hnot]. split; [by right|].
        intros Hs. apply Hnot. by right.
Qed.











End Rerun.

(** ** Concrete runs *)

Section Runs.

Import Sample.

(** C1, counterexample: one row, accepted by the validator, whose chunk
    insert the destination refuses (its [name] is NULL): the row is in no
    counter, and the four counters add up to 0 against 1 row. *)
Lemma accounting_misses_failed_batch :
  let r := fst (@collate_and_migrate runtime name_not_null
                  (Some unnamed_row) true 50 references) in
  errors r = [FailedToInsertBatch 1]
  /\ successful_inserts r + validation_failures r + duplicate_failures r
     + existing_products r <> total_rows r.
Proof. vm_compute. split; [reflexivity|discriminate]. Qed.

Lemma accounting_identity_witness :
  (0 < 50)%Z
  /\ NoDup (stored_ids (catalogue references))
  /\ let r := fst (@collate_and_migrate runtime unconstrained
                     (Some four_rows) true 50 references) in
     errors r = []
     /\ successful_inserts r + validation_failures r + duplicate_failures r
        + existing_products r = total_rows r.
Proof.
  split; [lia|]. split; [constructor|]. split; [vm_compute; reflexivity|].
  apply (@accounting_identity runtime unconstrained
           (Some four_rows) true 50 references);
    [lia | constructor | vm_compute; reflexivity].
Defined.

(** C2, counterexample: a row with both identifiers, a metadata record
    and a price record, and the inventory [-5]: the note on the negative
    quantity makes the validator reject the row. *)
Lemma negative_inventory_is_rejected :
  let row := csv_row_with (Str "P1") (Str "x1") (Str "-5") NaN in
  let md : gmap string MetaRow := {["P1" := product "P1" "Paracetamol"]} in
  let pd : gmap string PriceRecord :=
    {["x1" := @price_record runtime (price "x1" None)]} in
  @row_product_id runtime row <> ""
  /\ @row_item_code runtime row <> ""
  /\ is_Some (md !! @row_product_id runtime row)
  /\ is_Some (pd !! @row_item_code runtime row)
  /\ fst (@validate_and_collate_row runtime row 0 md pd references)
     = Invalid ["Inventory quantity cannot be negative"]
         (@collate runtime "P1" "x1" (product "P1" "Paracetamol")
            (@price_record runtime (price "x1" None)) 0 None).
Proof.
  cbv zeta. split_and!; [done|done|vm_compute; eauto|vm_compute; eauto|].
  vm_compute. reflexivity.
Qed.

Lemma accepted_iff_no_note_witness :
  let row := csv_row_with (Str "P1") (Str "x1") (Str "-5") NaN in
  let md : gmap string MetaRow := {["P1" := product "P1" "Paracetamol"]} in
  let pd : gmap string PriceRecord :=
    {["x1" := @price_record runtime (price "x1" None)]} in
  @row_product_id runtime row <> ""
  /\ @row_item_code runtime row <> ""
  /\ md !! @row_product_id runtime row = Some (product "P1" "Paracetamol")
  /\ pd !! @row_item_code runtime row
     = Some (@price_record runtime (price "x1" None))
  /\ @inventory_notes runtime row ++ @location_notes runtime row
     = ["Inventory quantity cannot be negative"]
  /\ @process_row runtime md pd ([], empty_results, references) (0, row)
     = ([], add_validation_failure empty_results,
        with_validation_error references
          {| ve_row_index := 0;
             ve_product_id := VStr "P1";
             ve_errors := ["Inventory quantity cannot be negative"] |}).
Proof.
  cbv zeta. split; [done|]. split; [done|].
  split; [vm_compute; reflexivity|]. split; [vm_compute; reflexivity|].
  destruct (@accepted_iff_no_note runtime
              (csv_row_with (Str "P1") (Str "x1") (Str "-5") NaN) 0
              {["P1" := product "P1" "Paracetamol"]}
              {["x1" := @price_record runtime (price "x1" None)]} references
              (product "P1" "Paracetamol")
              (@price_record runtime (price "x1" None)))
    as (_ & _ & Hnotes & _);
    [done | done | vm_compute; reflexivity | vm_compute; reflexivity |].
  destruct (Hnotes 0%Z None ["Inventory quantity cannot be negative"])
    as (Heq & _ & _ & Hrow); [vm_compute; reflexivity|].
  split; [by rewrite <- Heq|].
  destruct Hrow as [_ Hrow]; [discriminate|].
  apply (Hrow [] empty_results).
Defined.

(** The notes of the two normalisers on particular cells: a text that
    is not a number, the text [nan], and a bracketed text nested too
    deep for [json.loads] are noted; a blank cell, an infinity and a
    bracketed text that is not JSON are not. *)
Example notes_on_particular_cells :
  @inventory_notes_of runtime (VStr "abc")
  = ["Invalid inventory quantity format: abc"]
  /\ @inventory_notes_of runtime (VStr "nan")
     = ["Invalid inventory quantity format: nan"]
  /\ @inventory_notes_of runtime (VStr "-0.5") = []
  /\ @inventory_notes_of runtime (VStr "  ") = []
  /\ @inventory_notes_of runtime (VStr "inf") = []
  /\ @location_notes_of runtime (VStr "[A, B]") = [].
Proof. vm_compute. auto 7. Qed.

(** The rounding instance on known doubles: [0.1] is
    [0x1.999999999999ap-4], [1e23] is [0x1.52d02c7e14af6p+76], and an
    odd integer above [2^53] rounds to its even neighbour. *)
Example binary64_round_known :
  Py.binary64_round false 1 (-1) = FNum 7205759403792794 (-56)
  /\ Py.binary64_round false 1 23 = FNum 5960464477539062 24
  /\ @_validate_inventory_quantity runtime (VStr "9007199254740993") []
     = Ok (9007199254740992%Z, [])
  /\ @_validate_inventory_quantity runtime (VStr " 12.9 ") []
     = Ok (12%Z, []).
Proof. vm_compute. auto. Qed.

(** A row without metadata is rejected with the missing-metadata reason,
    queued for the skipped-rows file and counted; nothing is inserted. *)
Example missing_metadata_is_skipped :
  let run := @collate_and_migrate runtime unconstrained
               (Some (frame [csv_row (Str "P1") (Str "X1")])) true 50
               (collator [] [] [price "x1" None]) in
  successful_inserts (fst run) = 0
  /\ validation_failures (fst run) = 1
  /\ skipped_no_metadata (snd run) = 1
  /\ map rej_error_type (error_queue (snd run)) = ["Missing Metadata"]
  /\ map ve_errors (validation_errors (snd run)) = [["Missing metadata"]].
Proof. vm_compute. auto 6. Qed.

(** A row with metadata and pricing and a blank inventory cell is merged
    with the quantity 0. *)
Example blank_inventory_is_zero :
  let row := csv_row_with (Str "P1") (Str "x1") NaN NaN in
  let md : gmap string MetaRow := {["P1" := product "P1" "Paracetamol"]} in
  let pd : gmap string PriceRecord :=
    {["x1" := @price_record runtime (price "x1" None)]} in
  match fst (@validate_and_collate_row runtime row 0 md pd references) with
  | Valid collated_data =>
      dict_get collated_data "inventory_quantity" = VInt 0
      /\ dict_get collated_data "location" = VNone
  | Invalid _ _ => False
  end.
Proof. vm_compute. auto. Qed.

(** The blanks of [str.strip] include those of several bytes: the
    no-break space after a product id is trimmed, and is skipped by
    [float] around a number, which the separator US is not. *)
Example strip_unicode_blanks :
  PyStr.strip padded_id = "P1"
  /\ @row_product_id runtime (csv_row (Str padded_id) (Str "X1")) = "P1"
  /\ @_validate_inventory_quantity runtime
       (VStr ("7" +:+ PyStr.of_chars (utf8 160))) []
     = Ok (7%Z, [])
  /\ @_validate_inventory_quantity runtime
       (VStr (PyStr.of_chars [ascii_of_nat 31] +:+ "7")) []
     = Ok (0%Z, ["Invalid inventory quantity format: "
                  +:+ PyStr.of_chars [ascii_of_nat 31] +:+ "7"]).
Proof. vm_compute. auto. Qed.

(** C3, counterexample: three rows in chunks of two, the second refused
    by the destination (its [name] is NULL) after the first was
    accepted, on a connection that is lost at the refusal, so that the
    rollback raises.  The exception leaves [insert_batch] and the chunk
    loop: the summary has a critical error and no batch-level entry, and
    the third row is never processed, neither inserted nor rejected.
    With a rollback that works, the same input gives the batch-level
    entry and the third row is inserted. *)
Lemma lost_connection_ends_the_run :
  let chunk := take 2 (df_rows refused_second) in
  let valid_data := @chunk_valid_data runtime references false chunk in
  let run := @collate_and_migrate runtime name_not_null_lost
               (Some refused_second) true 2 references in
  let run' := @collate_and_migrate runtime name_not_null
                (Some refused_second) true 2 references in
  length valid_data = 2
  /\ @insert_batch name_not_null_lost valid_data false references
     = Raise (mkExn OtherException "the connection is lost")
  /\ errors (fst run)
     = [CriticalError (mkExn OtherException "the connection is lost")]
  /\ total_rows (fst run) = 3
  /\ successful_inserts (fst run) + validation_failures (fst run) = 0
  /\ stored_ids (catalogue (snd run)) = []
  /\ errors (fst run') = [FailedToInsertBatch 1]
  /\ stored_ids (catalogue (snd run')) = ["P3"].
Proof. vm_compute. auto 9. Qed.

Lemma failed_batch_witness :
  let ls := mkLoop empty_results 0 references false None in
  let c := take 2 (df_rows refused_second) in
  let c2 := drop 2 (df_rows refused_second) in
  let valid_data := @chunk_valid_data runtime references false c in
  let ls' := @process_chunk runtime name_not_null ls c in
  let ls2 := @process_chunk runtime name_not_null ls' c2 in
  valid_data <> []
  /\ @batch_refused name_not_null valid_data false references
  /\ @rollback_raises name_not_null (catalogue references) valid_data = None
  /\ @row_accepted name_not_null (catalogue references) []
       (hd [] (batch_rows valid_data)) = true
  /\ @insert_batch name_not_null valid_data false references
     = Ok (false, references, false)
  /\ catalogue (ls_collator ls') = catalogue references
  /\ errors (ls_results ls') = [FailedToInsertBatch 1]
  /\ ls_raised ls' = None
  /\ stored_ids (catalogue (ls_collator ls2)) = ["P3"]
  /\ successful_inserts (ls_results ls2) = 1
  /\ errors (ls_results ls2) = [FailedToInsertBatch 1].
Proof.
  cbv zeta.
  set (ls := mkLoop empty_results 0 references false None).
  set (c := take 2 (df_rows refused_second)).
  set (c2 := drop 2 (df_rows refused_second)).
  set (valid_data := @chunk_valid_data runtime references false c).
  assert (Hne : valid_data <> []) by (vm_compute; discriminate).
  assert (Hrefused : @batch_refused name_not_null valid_data false references)
    by (right; left; vm_compute; reflexivity).
  assert (Hroll : @rollback_raises name_not_null (catalogue references)
                    valid_data = None) by reflexivity.
  split; [exact Hne|]. split; [exact Hrefused|]. split; [exact Hroll|].
  split; [vm_compute; reflexivity|].
  destruct (@failed_batch_is_rolled_back_and_recorded runtime name_not_null
              valid_data false references Hne Hrefused Hroll)
    as [Hins Hloop].
  split; [exact Hins|].
  assert (Hcollect : @collect_chunk runtime ls c
                     = (valid_data, empty_results, references))
    by (vm_compute; reflexivity).
  destruct (Hloop ls c empty_results eq_refl eq_refl Hcollect)
    as (Hcat & _ & Herr & _ & Hraised & _ & _ & Hnext).
  split; [exact Hcat|]. split; [exact Herr|]. split; [exact Hraised|].
  destruct (@collect_chunk runtime (@process_chunk runtime name_not_null ls c) c2)
    as [[vd2 res2] st2] eqn:Hcollect2.
  assert (Hvd2 : vd2 = @chunk_valid_data runtime references false c2).
  { apply (f_equal (fun o => fst (fst o))) in Hcollect2. cbn [fst] in Hcollect2.
    rewrite <- Hcollect2. vm_compute. reflexivity. }
  assert (Hst2 : catalogue st2 = []).
  { apply (f_equal (fun o => catalogue (snd o))) in Hcollect2.
    cbn [snd] in Hcollect2. rewrite <- Hcollect2. vm_compute. reflexivity. }
  destruct (Hnext c2 vd2 res2 st2 Hcollect2) as (Hcat2 & Hsi2 & Herr2 & _).
  - rewrite Hvd2. vm_compute. discriminate.
  - unfold batch_refused. rewrite Hst2, Hvd2.
    intros [Hf|[Hf|Hf]]; vm_compute in Hf; discriminate Hf.
  - split; [|split].
    + rewrite Hcat2, Hvd2. vm_compute. reflexivity.
    + rewrite Hsi2, Hvd2. vm_compute. reflexivity.
    + rewrite Herr2. reflexivity.
Defined.



Lemma three_rows_case_consistent :
  @codes_case_consistent runtime (df_rows three_rows).
Proof.
  intros c c' Hc Hc' Heq.
  unfold three_rows, frame in Hc, Hc'. simpl in Hc, Hc'.
  repeat (apply elem_of_cons in Hc as [->|Hc]);
    [| | |by apply elem_of_nil in Hc];
    (repeat (apply elem_of_cons in Hc' as [->|Hc']);
     [| | |by apply elem_of_nil in Hc']);
    first [reflexivity | vm_compute in Heq; discriminate Heq].
Qed.


(** The provisos of C4 on particular inputs.  A product id followed by
    a no-break space is written trimmed and looked for untrimmed: the
    second run inserts the row again.  Of two rows whose item codes
    differ by case only, the first run rejects one for want of a price
    and the second run, which meets it alone, inserts it.  After a run
    that an exception of the rollback ended, the second run inserts a
    row of the chunk that was lost. *)
Example second_run_inserts_outside_provisos :
  (let run1 := @collate_and_migrate runtime unconstrained
                 (Some padded_row) true 2 references in
   let run2 := @collate_and_migrate runtime unconstrained
                 (Some padded_row) true 2 (snd run1) in
   errors (fst run1) = []
   /\ successful_inserts (fst run2) = 1
   /\ stored_ids (catalogue (snd run2)) = ["P1"; "P1"])
  /\ (let run1 := @collate_and_migrate runtime unconstrained
                    (Some case_variants) true 2 references in
      let run2 := @collate_and_migrate runtime unconstrained
                    (Some case_variants) true 2 (snd run1) in
      errors (fst run1) = []
      /\ stored_ids (catalogue (snd run1)) = ["P3"]
      /\ successful_inserts (fst run2) = 1
      /\ stored_ids (catalogue (snd run2)) = ["P3"; "P1"])
  /\ (let run1 := @collate_and_migrate runtime name_not_null_lost
                    (Some refused_last) true 2 references in
      let run2 := @collate_and_migrate runtime name_not_null_lost
                    (Some refused_last) true 2 (snd run1) in
      errors (fst run1)
      = [CriticalError (mkExn OtherException "the connection is lost")]
      /\ stored_ids (catalogue (snd run1)) = ["P1"]
      /\ successful_inserts (fst run2) = 1
      /\ stored_ids (catalogue (snd run2)) = ["P1"; "P3"]).
Proof. vm_compute. auto 12. Qed.

(** A run that ends before the chunk loop is repeated as it was: with a
    batch size of 0, or without the column of the item codes, the second
    run inserts nothing. *)
Example second_run_after_early_end :
  (let run1 := @collate_and_migrate runtime unconstrained
                 (Some three_rows) true 0 references in
   let run2 := @collate_and_migrate runtime unconstrained
                 (Some three_rows) true 0 (snd run1) in
   successful_inserts (fst run2) = 0 /\ fst run2 = fst run1)
  /\ (let df := mkDataFrame ["product_id"] (df_rows three_rows) in
      let run1 := @collate_and_migrate runtime unconstrained
                    (Some df) true 2 references in
      let run2 := @collate_and_migrate runtime unconstrained
                    (Some df) true 2 (snd run1) in
      successful_inserts (fst run2) = 0 /\ fst run2 = fst run1).
Proof. vm_compute. auto. Qed.

(** C7, counterexample: the sequence of the single token [nan].  Its
    comma-separated string is the text [nan], which the guard at the top
    of the function reads as a missing value; its brace-wrapped string
    normalises to the sequence. *)
Lemma nan_token_encodings_differ :
  @_validate_location_array runtime (VStr (comma_encoding ["nan"])) []
  = Ok (None, [])
  /\ @_validate_location_array runtime (VStr (brace_encoding ["nan"])) []
     = Ok (Some ["nan"], [])
  /\ @_validate_location_array runtime (VStr (comma_encoding ["nan"])) []
     <> @_validate_location_array runtime (VStr (brace_encoding ["nan"])) [].
Proof. vm_compute. split_and!; [reflexivity|reflexivity|discriminate]. Qed.

Lemma encodings_agree_witness :
  let tokens := ["Rack 1"; "Rack 2"] in
  tokens <> []
  /\ Forall trimmed_token tokens
  /\ tokens <> ["nan"]
  /\ @bare runtime (comma_encoding tokens)
  /\ @json_loads runtime (json_encoding tokens) = Ok (VList (map VStr tokens))
  /\ @_validate_location_array runtime (VStr (json_encoding tokens)) []
     = Ok (Some tokens, [])
  /\ @_validate_location_array runtime (VStr (comma_encoding tokens)) []
     = Ok (Some tokens, [])
  /\ @_validate_location_array runtime (VStr (brace_encoding tokens)) []
     = Ok (Some tokens, []).
Proof.
  cbv zeta.
  assert (Htrimmed : Forall trimmed_token ["Rack 1"; "Rack 2"]).
  { repeat constructor; try discriminate; vm_compute; reflexivity. }
  assert (Hbare : @bare runtime (comma_encoding ["Rack 1"; "Rack 2"])).
  { split; [vm_compute; reflexivity|].
    intros Hb. vm_compute in Hb. discriminate Hb. }
  split; [discriminate|]. split; [exact Htrimmed|]. split; [discriminate|].
  split; [exact Hbare|]. split; [vm_compute; reflexivity|].
  apply (@encodings_agree runtime ["Rack 1"; "Rack 2"] []);
    [discriminate | exact Htrimmed | discriminate | exact Hbare
    | vm_compute; reflexivity].
Defined.

(** The provisos of C7 on particular sequences: a token with a blank
    before it, a token in braces, a token in brackets that is a JSON
    array, a token with a comma and the empty token are each read in
    two ways by the encodings. *)
Example encodings_differ_outside_provisos :
  map (fun tokens =>
         (@_validate_location_array runtime (VStr (json_encoding tokens)) [],
          @_validate_location_array runtime (VStr (comma_encoding tokens)) []))
    [[" A"]; ["{A}"]; ["[1]"]; ["A,B"]; [""]]
  = [(Ok (Some ["A"], []), Ok (Some ["A"], []));
     (Ok (Some ["{A}"], []), Ok (Some ["A"], []));
     (Ok (Some ["[1]"], []), Ok (Some ["1"], []));
     (Ok (Some ["A,B"], []), Ok (Some ["A"; "B"], []));
     (Ok (Some [], []), Ok (None, []))].
Proof. vm_compute. reflexivity. Qed.

End Runs.

(** * Further properties of the code *)

(** ** The connection string *)

Section Conninfo.

Import PyStr.

Lemma conninfo_part_insert_empty cfg k key :
  conninfo_part (<[k := ""]> cfg) key = conninfo_part (delete k cfg) key.
Proof.
  unfold conninfo_part. destruct (decide (k = key)) as [->|Hne].
  - by rewrite lookup_insert_eq, lookup_delete_eq.
  - by rewrite lookup_insert_ne, lookup_delete_ne.
Qed.

Lemma conninfo_part_other cfg k v key :
  k <> key -> conninfo_part (<[k := v]> cfg) key = conninfo_part cfg key.
Proof. intros Hne. unfold conninfo_part. by rewrite lookup_insert_ne. Qed.

Lemma conninfo_part_delete_other cfg k key :
  k <> key -> conninfo_part (delete k cfg) key = conninfo_part cfg key.
Proof. intros Hne. unfold conninfo_part. by rewrite lookup_delete_ne. Qed.

(** X1: a non-empty [dbname] takes precedence over [database], and a
    configuration that names the database only under [database] gives
    the connection string of the one naming it under [dbname]. *)
Theorem build_conninfo_dbname_or_database cfg d :
  d <> "" ->
  build_conninfo (<["dbname" := d]> cfg)
  = build_conninfo (<["dbname" := d]> (delete "database" cfg))
  /\ build_conninfo (<["database" := d]> (delete "dbname" cfg))
     = build_conninfo (<["dbname" := d]> (delete "database" cfg)).
Proof.
  intros Hd. assert (Ht : truthy d = true) by (by destruct d).
  unfold build_conninfo.
  rewrite !conninfo_part_other, !conninfo_part_delete_other by done.
  rewrite !lookup_insert_eq. unfold or_get. rewrite Ht.
  split; [done|].
  rewrite lookup_insert_ne, lookup_delete_eq by done.
  by rewrite Ht.
Qed.

(** X2: a key with an empty value is read as an absent key. *)
Theorem build_conninfo_empty_value cfg k :
  build_conninfo (<[k := ""]> cfg) = build_conninfo (delete k cfg).
Proof.
  unfold build_conninfo. rewrite !conninfo_part_insert_empty.
  do 3 f_equal. f_equal.
  destruct (decide (k = "dbname")) as [E1|Hn];
    destruct (decide (k = "database")) as [E2|Hd].
  - congruence.
  - subst k. rewrite lookup_insert_eq, lookup_delete_eq.
    by rewrite lookup_insert_ne, lookup_delete_ne.
  - subst k. rewrite lookup_insert_eq, lookup_delete_eq.
    rewrite lookup_insert_ne, lookup_delete_ne by done.
    unfold or_get. destruct (cfg !! "dbname") as [v|]; [|done].
    by destruct (truthy v).
  - by rewrite !lookup_insert_ne, !lookup_delete_ne.
Qed.

End Conninfo.

(** ** The skipped-rows file *)

Section SkippedRows.

Lemma write_to_csv_fold dicts lines :
  fold_left _write_to_csv dicts (Some lines)
  = Some (lines ++ map error_line dicts).
Proof.
  revert lines. induction dicts as [|e dicts IH]; intros lines; simpl.
  - by rewrite app_nil_r.
  - rewrite IH. fold (error_line e). by rewrite <- app_assoc.
Qed.

Lemma write_to_csv_file dicts :
  fold_left _write_to_csv dicts None = error_file dicts.
Proof.
  destruct dicts as [|e dicts]; [reflexivity|].
  simpl. rewrite write_to_csv_fold. reflexivity.
Qed.

(** X3: writing dictionaries one after the other to a file that does not
    exist yet gives the header once and then one line per dictionary, in
    order; on an existing file the lines are appended and nothing else
    changes; the dictionary [add_error] queues has the columns of the
    file in their order, so its line holds its values. *)
Theorem write_to_csv_lines dicts lines r :
  fold_left _write_to_csv dicts None = error_file dicts
  /\ fold_left _write_to_csv dicts (Some lines)
     = Some (lines ++ map error_line dicts)
  /\ error_line (rejection_dict r) = Data (map snd (rejection_dict r)).
Proof.
  split; [apply write_to_csv_file|]. split; [apply write_to_csv_fold|].
  reflexivity.
Qed.

Lemma write_to_csv_snoc written e :
  _write_to_csv (error_file written) e = error_file (written ++ [e]).
Proof.
  rewrite <- !write_to_csv_file, fold_left_app. reflexivity.
Qed.

Lemma puts_snoc schedule a :
  puts (schedule ++ [a])
  = puts schedule ++ match a with Put e => [e] | _ => [] end.
Proof.
  unfold puts. rewrite omap_app. by destruct a.
Qed.

Lemma logger_run_snoc lg schedule a :
  logger_run lg (schedule ++ [a])
  = match logger_run lg schedule with
    | Some lg' => logger_step lg' a
    | None => None
    end.
Proof.
  revert lg. induction schedule as [|b schedule IH]; intros lg; simpl.
  - by destruct (logger_step lg a).
  - destruct (logger_step lg b); [apply IH|reflexivity].
Qed.

(** X4: along every schedule of the logger's steps, the file holds the
    lines of a prefix of the dictionaries put on the queue and the queue
    holds the rest, in order: nothing is lost, repeated or reordered, and
    when the queue is empty the file holds them all.  The rows the worker
    remembers are the written ones until it exits, and a prefix of them
    afterwards. *)
Theorem logger_keeps_every_rejection schedule lg :
  logger_run new_logger schedule = Some lg ->
  exists written,
    lg_file lg = error_file written
    /\ written ++ lg_queue lg = puts schedule
    /\ lg_error_rows lg `prefix_of` written
    /\ (lg_worker_alive lg = true -> lg_error_rows lg = written)
    /\ (lg_queue lg = [] -> lg_file lg = error_file (puts schedule)).
Proof.
  assert (Hlast : forall file (queue w all : list Dict),
             file = error_file w -> w ++ queue = all ->
             queue = [] -> file = error_file all).
  { intros file queue w all Hf Hw Hnil. rewrite Hnil, app_nil_r in Hw.
    by subst. }
  revert lg. induction schedule as [|a schedule IH] using rev_ind; intros lg.
  - intros [= <-]. exists []. simpl. split_and!; done.
  - rewrite logger_run_snoc, puts_snoc.
    destruct (logger_run new_logger schedule) as [lg0|]; [|discriminate].
    destruct (IH lg0 eq_refl) as (written & Hfile & Hq & Hrows & Halive & _).
    destruct a; simpl.
    + intros [= <-]. exists written. simpl.
      split_and!; [done|by rewrite app_assoc, Hq|done|done|].
      intros Hnil. by apply app_eq_nil in Hnil as [_ ?].
    + destruct (lg_worker_alive lg0) eqn:Hal; [|discriminate].
      destruct (lg_queue lg0) as [|e rest] eqn:Hqueue; [discriminate|].
      intros [= <-]. exists (written ++ [e]).
      assert (Hw : (written ++ [e]) ++ rest = puts schedule ++ [])
        by (by rewrite <- app_assoc, app_nil_r).
      assert (Hf : _write_to_csv (lg_file lg0) e = error_file (written ++ [e]))
        by (by rewrite Hfile, write_to_csv_snoc).
      simpl. split_and!; [exact Hf|exact Hw| | |].
      * by rewrite Halive.
      * by rewrite Halive.
      * by apply Hlast with (written ++ [e]).
    + intros [= <-]. exists written. simpl. rewrite app_nil_r.
      split_and!; [done|done|done|done|]. by apply Hlast with written.
    + destruct (lg_worker_alive lg0 && lg_stop_event lg0); [|discriminate].
      destruct (lg_queue lg0) as [|e rest] eqn:Hqueue; [|discriminate].
      intros [= <-]. exists written. simpl. rewrite !app_nil_r in *.
      split_and!; [done|done|done|done|]. intros _. by rewrite <- Hq.
    + destruct (negb (lg_worker_alive lg0) && lg_stop_event lg0); [|discriminate].
      destruct (lg_queue lg0) as [|e rest] eqn:Hqueue; [discriminate|].
      intros [= <-]. exists (written ++ [e]).
      assert (Hw : (written ++ [e]) ++ rest = puts schedule ++ [])
        by (by rewrite <- app_assoc, app_nil_r).
      assert (Hf : _write_to_csv (lg_file lg0) e = error_file (written ++ [e]))
        by (by rewrite Hfile, write_to_csv_snoc).
      simpl. split_and!; [exact Hf|exact Hw| |done|].
      * by apply prefix_app_r.
      * by apply Hlast with (written ++ [e]).
Qed.

End SkippedRows.

(** ** Duplicates, existing rows and chunks *)

Section Tables.
Context `{PyRuntime} `{Catalogue}.

Lemma drop_duplicate_rows_first seen rows ir :
  ir ∈ drop_duplicate_rows seen rows ->
  (row_key ir ∉ seen) /\ first_with_key rows ir.
Proof.
  revert seen. induction rows as [|a rows IH]; intros seen; simpl.
  - inversion 1.
  - case_bool_decide as Hseen.
    + intros Hir. destruct (IH _ Hir) as (Hnot & l1 & l2 & -> & Hl1).
      split; [done|]. exists (a :: l1), l2. split; [done|].
      cbn [map]. rewrite not_elem_of_cons. split; [|done]. congruence.
    + intros Hir. apply elem_of_cons in Hir as [->|Hir].
      * split; [done|]. exists [], rows. split; [done|]. apply not_elem_of_nil.
      * destruct (IH _ Hir) as (Hnot & l1 & l2 & -> & Hl1).
        apply not_elem_of_cons in Hnot as [Hne Hnot].
        split; [done|]. exists (a :: l1), l2. split; [done|].
        cbn [map]. rewrite not_elem_of_cons. done.
Qed.

Lemma drop_duplicate_rows_covers seen rows ir :
  ir ∈ rows ->
  row_key ir ∈ seen \/ row_key ir ∈ map row_key (drop_duplicate_rows seen rows).
Proof.
  revert seen. induction rows as [|a rows IH]; intros seen; simpl.
  - inversion 1.
  - intros Hir. case_bool_decide as Hseen.
    + apply elem_of_cons in Hir as [->|Hir]; [by left|by apply IH].
    + cbn [map]. apply elem_of_cons in Hir as [->|Hir].
      * right. apply list_elem_of_here.
      * destruct (IH (row_key a :: seen) Hir) as [Hin|Hin].
        -- apply elem_of_cons in Hin as [->|Hin]; [right|by left].
           apply list_elem_of_here.
        -- right. by apply list_elem_of_further.
Qed.

Lemma drop_duplicate_rows_sublist seen rows :
  drop_duplicate_rows seen rows `sublist_of` rows.
Proof.
  revert seen. induction rows as [|a rows IH]; intros seen; simpl.
  - constructor.
  - case_bool_decide; [apply sublist_cons|apply sublist_skip]; apply IH.
Qed.

(** X5: [drop_duplicates] keeps, in their order, the rows that are the
    first of their key: the keys left are pairwise distinct, every kept
    row is the first row of the frame with its key, and every key of the
    frame is still there. *)
Theorem drop_duplicates_keeps_first_rows df :
  let kept := df_rows (drop_duplicates df) in
  df_columns (drop_duplicates df) = df_columns df
  /\ kept `sublist_of` df_rows df
  /\ NoDup (map row_key kept)
  /\ (forall ir, ir ∈ kept -> first_with_key (df_rows df) ir)
  /\ (forall ir, ir ∈ df_rows df -> row_key ir ∈ map row_key kept).
Proof.
  simpl. split_and!.
  - reflexivity.
  - apply drop_duplicate_rows_sublist.
  - apply drop_duplicate_rows_spec.
  - intros ir Hir. by apply drop_duplicate_rows_first in Hir as [_ ?].
  - intros ir Hir.
    destruct (drop_duplicate_rows_covers [] _ _ Hir) as [Hin|Hin]; [|done].
    inversion Hin.
Qed.

Lemma drop_duplicate_rows_id seen rows :
  NoDup (map row_key rows) ->
  (forall ir, ir ∈ rows -> row_key ir ∉ seen) ->
  drop_duplicate_rows seen rows = rows.
Proof.
  revert seen. induction rows as [|a rows IH]; intros seen Hnd Hseen; simpl.
  - reflexivity.
  - cbn [map] in Hnd. apply NoDup_cons in Hnd as [Ha Hnd].
    rewrite bool_decide_false by (apply Hseen, list_elem_of_here).
    f_equal. apply IH; [done|].
    intros ir Hir. rewrite not_elem_of_cons. split.
    + intros Heq. apply Ha. rewrite <- Heq. apply list_elem_of_fmap. eauto.
    + apply Hseen. by apply list_elem_of_further.
Qed.

Lemma occurrences_NoDup k (keys : list Cell) :
  NoDup keys -> occurrences k keys <= 1.
Proof.
  induction 1 as [|a keys Ha _ IH]; [unfold occurrences; simpl; lia|].
  rewrite occurrences_cons. destruct (decide (a = k)) as [->|]; [|lia].
  destruct (decide (0 < occurrences k keys)) as [Hpos|]; [|lia].
  exfalso. apply Ha. unfold occurrences in Hpos.
  destruct (filter _ keys) as [|x l] eqn:Hf; [simpl in Hpos; lia|].
  assert (Hx : x ∈ filter (fun k' => k' = k) keys)
    by (rewrite Hf; apply list_elem_of_here).
  apply list_elem_of_filter in Hx as [-> ?]. done.
Qed.

Lemma filter_none {A} (P : A -> Prop) `{!forall x, Decision (P x)} (l : list A) :
  (forall x, x ∈ l -> ~ P x) -> filter P l = [].
Proof.
  induction l as [|a l IH]; intros Hall; [reflexivity|].
  rewrite filter_cons, decide_False by (apply Hall, list_elem_of_here).
  apply IH. intros x Hx. apply Hall. by apply list_elem_of_further.
Qed.

Lemma NoDup_no_duplicates (keys : list Cell) :
  NoDup keys -> filter (fun k => 1 < occurrences k keys) keys = [].
Proof.
  intros Hnd. apply filter_none. intros k _.
  pose proof (occurrences_NoDup k keys Hnd). lia.
Qed.

(** X6: after [drop_duplicates] the duplicate check reports nothing, and
    dropping duplicates a second time changes nothing. *)
Theorem no_duplicates_after_drop df :
  "product_id" ∈ df_columns df ->
  check_duplicate_products (drop_duplicates df) = Ok []
  /\ drop_duplicates (drop_duplicates df) = drop_duplicates df.
Proof.
  intros Hcol.
  pose proof (drop_duplicate_rows_spec [] (df_rows df)) as [Hnd _].
  split.
  - rewrite check_duplicate_products_keys by done.
    unfold duplicated_keys. simpl. by rewrite NoDup_no_duplicates.
  - unfold drop_duplicates. simpl. f_equal.
    apply drop_duplicate_rows_id; [done|]. intros ir _. apply not_elem_of_nil.
Qed.

Lemma occurrences_duplicated k (all keys : list Cell) :
  occurrences k (filter (fun k => 1 < occurrences k all) keys)
  = if decide (1 < occurrences k all) then occurrences k keys else 0.
Proof.
  induction keys as [|a keys IH].
  - unfold occurrences. simpl. by destruct (decide _).
  - rewrite filter_cons. destruct (decide (1 < occurrences a all)) as [Ha|Ha].
    + rewrite !occurrences_cons, IH.
      destruct (decide (1 < occurrences k all)); [done|].
      rewrite decide_False by congruence. done.
    + rewrite IH, occurrences_cons.
      destruct (decide (1 < occurrences k all)); [|done].
      rewrite decide_False by congruence. done.
Qed.

(** X7: the duplicate check reports a key as many times as it occurs in
    the frame when it occurs more than once, and not at all otherwise;
    it reports nothing exactly when the keys are pairwise distinct, and
    [drop_duplicates] then leaves the frame as it is. *)
Theorem check_duplicate_products_reports_every_occurrence df duplicates :
  check_duplicate_products df = Ok duplicates ->
  let keys := map row_key (df_rows df) in
  (forall k, occurrences k duplicates
             = if decide (1 < occurrences k keys) then occurrences k keys
               else 0)
  /\ (duplicates = [] <-> NoDup keys)
  /\ (duplicates = [] -> drop_duplicates df = df).
Proof.
  unfold check_duplicate_products.
  case_bool_decide; [|discriminate]. intros [= <-]. cbv zeta.
  split_and!.
  - intros k. apply occurrences_duplicated.
  - split; [apply no_duplicates_NoDup|apply NoDup_no_duplicates].
  - intros Hnone. apply no_duplicates_NoDup in Hnone.
    destruct df as [cols rows]. unfold drop_duplicates. simpl in *. f_equal.
    apply drop_duplicate_rows_id; [done|]. intros ir _. apply not_elem_of_nil.
Qed.

(** X8: once the rows whose product id the existence check returned are
    dropped, the existence check on the remaining rows, made on the same
    connection, returns nothing. *)
Theorem no_existing_after_drop st failed df :
  let checked := check_existing_products st failed (map row_key (df_rows df)) in
  fst (check_existing_products st (snd checked)
         (map row_key (df_rows (drop_existing df (fst checked))))) = [].
Proof.
  cbv zeta. destruct failed; [by destruct (map row_key (df_rows df))|].
  rewrite check_existing_products_new. cbn [fst snd].
  destruct (query_fails (map row_key (df_rows df))) eqn:Hq.
  { unfold check_existing_products. reflexivity. }
  rewrite check_existing_products_new. cbn [fst].
  match goal with
  | |- existing_ids _ ?keys = [] =>
      destruct (query_fails keys) eqn:Hq'; [by apply existing_ids_fails|]
  end.
  rewrite !existing_ids_filter by done.
  apply filter_none. intros p Hstored Hp.
  apply list_elem_of_fmap in Hp as (ir & Hkey & Hir).
  unfold drop_existing in Hir. simpl in Hir.
  apply list_elem_of_filter in Hir as [Hnot Hir].
  rewrite <- Hkey in Hnot. simpl in Hnot. apply bool_decide_eq_false in Hnot.
  apply Hnot. apply list_elem_of_filter. split.
  - rewrite Hkey. apply list_elem_of_fmap. eauto.
  - exact Hstored.
Qed.

(** X9: for a positive batch size the chunks partition the rows in
    order, none is empty, none has more than [batch_size] rows, and
    there are as many as the rows need. *)
Theorem chunks_sizes (rows : list (nat * Row)) n :
  0 < n ->
  concat (chunks rows n) = rows
  /\ length (chunks rows n) = (length rows + n - 1) / n
  /\ forall c, c ∈ chunks rows n -> 0 < length c <= n.
Proof.
  intros Hn. split; [by apply chunks_concat|].
  unfold chunks, range_step. rewrite map_map. split.
  - by rewrite length_map, length_seq.
  - intros c Hc. apply list_elem_of_fmap in Hc as (i & -> & Hi).
    rewrite iloc_chunk, length_take, length_drop.
    apply list_elem_of_In, in_seq in Hi.
    pose proof (Nat.div_mod_eq (length rows + n - 1) n) as Hdiv.
    pose proof (Nat.mod_upper_bound (length rows + n - 1) n) as Hmod.
    nia.
Qed.

End Tables.

(** ** The two resolvers: what a lookup returns *)

Section Lookups.
Context `{PyRuntime} `{Catalogue}.

Import PyStr.

Lemma fold_metadata_value (rows : list MetaRow) (m0 : gmap string MetaRow) p m :
  fold_left (fun metadata row => <[meta_product_id row := row]> metadata)
    rows m0 !! p = Some m ->
  m0 !! p = Some m \/ (m ∈ rows /\ meta_product_id m = p).
Proof.
  revert m0. induction rows as [|r rows IH]; intros m0; simpl; [auto|].
  intros Hl. apply IH in Hl as [Hl|[Hin Hp]].
  - apply lookup_insert_Some in Hl as [[<- <-]|[_ Hl]]; [right|by left].
    split; [apply list_elem_of_here|done].
  - right. split; [by apply list_elem_of_further|done].
Qed.

(** X10: [get_metadata_batch] has an entry for a product id exactly when
    the transaction open on the connection has not failed, the id was
    requested and the reference table has a record for it; the entry is
    a record of the table with that product id.  An id without record is
    simply absent; and once a statement has failed on the connection
    (the existence query, which is not rolled back) the query fails and
    the handler returns the empty mapping, whatever the table holds. *)
Theorem get_metadata_batch_entries st failed product_ids p :
  (is_Some (get_metadata_batch st failed product_ids !! p)
   <-> failed = false
       /\ p ∈ product_ids
       /\ exists m, m ∈ original_all_products st /\ meta_product_id m = p)
  /\ (forall m, get_metadata_batch st failed product_ids !! p = Some m ->
        m ∈ original_all_products st /\ meta_product_id m = p)
  /\ (failed = true -> get_metadata_batch st failed product_ids = ∅).
Proof.
  assert (Hval : forall m, get_metadata_batch st failed product_ids !! p = Some m ->
                   failed = false
                   /\ p ∈ product_ids
                   /\ m ∈ original_all_products st /\ meta_product_id m = p).
  { intros m. unfold get_metadata_batch.
    destruct product_ids as [|q ids]; [by rewrite lookup_empty|].
    destruct failed; [by rewrite lookup_empty|].
    intros Hl. apply fold_metadata_value in Hl as [Hl|[Hin Hp]].
    - by rewrite lookup_empty in Hl.
    - unfold select_metadata in Hin.
      apply list_elem_of_filter in Hin as [Hid Hin]. by rewrite Hp in Hid. }
  split; [|split].
  - split.
    + intros [m Hm]. destruct (Hval m Hm) as (? & ? & ? & ?). eauto.
    + intros (-> & Hp & Hm). by apply get_metadata_batch_found.
  - intros m Hm. by destruct (Hval m Hm) as (_ & _ & ? & ?).
  - intros ->. apply get_metadata_batch_failed.
Qed.

Lemma map_code_field_value cm row (pd : gmap string PriceRecord) field k v :
  map_code_field cm row pd field !! k = Some v ->
  pd !! k = Some v
  \/ (v = price_record row
      /\ exists f, field = Some f /\ truthy f = true
                   /\ cm !! lower f = Some k /\ truthy k = true).
Proof.
  unfold map_code_field. destruct field as [f|]; [|by left].
  destruct (truthy f) eqn:Hf; [|by left].
  destruct (cm !! lower f) as [orig|] eqn:Hcm; [|by left].
  destruct (truthy orig) eqn:Horig; [|by left].
  intros Hl. apply lookup_insert_Some in Hl as [[<- <-]|[_ Hl]]; [right|by left].
  split; [done|]. by exists f.
Qed.

Lemma fold_prices_value cm (rows : list PriceRow) (pd : gmap string PriceRecord)
    k v :
  fold_left
    (fun price_details row =>
       fold_left (map_code_field cm row)
         [pr_item_code row; pr_original_item_code row] price_details)
    rows pd !! k = Some v ->
  pd !! k = Some v
  \/ exists row, row ∈ rows /\ binds cm row k /\ v = price_record row.
Proof.
  revert pd. induction rows as [|r rows IH]; intros pd; [by left|].
  cbn [fold_left]. intros Hl. apply IH in Hl as [Hl|(row & Hrow & Hb & Hv)].
  - apply map_code_field_value in Hl as [Hl|(-> & f & Hf & ?)].
    + apply map_code_field_value in Hl as [Hl|(-> & f & Hf & ?)]; [by left|].
      right. exists r. split; [apply list_elem_of_here|]. split; [|done].
      exists f. split; [left; congruence|done].
    + right. exists r. split; [apply list_elem_of_here|]. split; [|done].
      exists f. split; [right; congruence|done].
  - right. exists row. split; [by apply list_elem_of_further|done].
Qed.

(** X11: every entry of [get_price_details_batch] is keyed by one of the
    requested codes, trimmed and not empty, and holds the prices of a
    record of the reference table whose canonical or alternate code
    equals the key up to letter case. *)
Theorem get_price_details_batch_entries st item_codes k v :
  get_price_details_batch st item_codes !! k = Some v ->
  k ∈ kept_codes item_codes
  /\ exists row, row ∈ distributor_master_list st
                 /\ answers_to row k /\ v = price_record row.
Proof.
  intros Hl.
  assert (Hk : k ∈ kept_codes item_codes).
  { destruct (decide (k ∈ kept_codes item_codes)) as [|Hnot]; [done|].
    rewrite get_price_details_batch_absent in Hl by done. discriminate. }
  split; [done|].
  unfold get_price_details_batch in Hl.
  destruct item_codes as [|code codes]; [by rewrite lookup_empty in Hl|].
  unfold clean_codes in Hl. rewrite clean_codes_fold, app_nil_l in Hl.
  destruct (map lower (kept_codes (code :: codes))) as [|lc lcs] eqn:Hlow;
    [by rewrite lookup_empty in Hl|].
  apply fold_prices_value in Hl as [Hl|(row & Hrow & Hb & ->)];
    [by rewrite lookup_empty in Hl|].
  apply list_elem_of_filter in Hrow as [_ Hrow].
  exists row. split; [done|]. split; [|done].
  destruct Hb as (f & Hf & Ht & Hcm & _).
  exists f. split; [done|]. split; [by apply truthy_true|].
  apply code_mapping_Some in Hcm as [Hcm|[_ Heq]]; [|done].
  by rewrite lookup_empty in Hcm.
Qed.

(** X12: when no two requested codes differ only by letter case, a
    requested code gets an entry exactly when a record of the reference
    table answers to it under its canonical or its alternate code; a key
    that was not requested never gets one. *)
Theorem get_price_details_batch_case_consistent st item_codes k :
  case_consistent (kept_codes item_codes) ->
  is_Some (get_price_details_batch st item_codes !! k)
  <-> k ∈ kept_codes item_codes
      /\ exists row, row ∈ distributor_master_list st /\ answers_to row k.
Proof.
  intros Hcons. split.
  - intros Hsome.
    assert (Hk : k ∈ kept_codes item_codes).
    { destruct (decide (k ∈ kept_codes item_codes)) as [|Hnot]; [done|].
      rewrite get_price_details_batch_absent in Hsome by done.
      by destruct Hsome. }
    split; [done|]. by apply get_price_details_batch_found in Hsome.
  - intros [Hk Hrow]. by apply get_price_details_batch_found.
Qed.

End Lookups.

(** ** The two normalisers: what they return *)

Section Normalised.
Context `{PyRuntime} `{Catalogue}.

Import PyStr.

(** X13: when [_validate_inventory_quantity] returns, the quantity is
    not negative, and the list of errors is either unchanged or longer
    by one note, in which case the quantity is 0. *)
Theorem inventory_quantity_result value errs q errs' :
  _validate_inventory_quantity value errs = Ok (q, errs') ->
  (0 <= q)%Z
  /\ (errs' = errs \/ (q = 0%Z /\ exists note, errs' = errs ++ [note])).
Proof.
  unfold _validate_inventory_quantity, bind.
  repeat case_match; intros; simplify_eq; split; eauto; lia.
Qed.

(** X14: the only exception [_validate_inventory_quantity] lets through
    is the [OverflowError] of the conversion of an infinity. *)
Theorem inventory_quantity_raises_overflow_only value errs e :
  _validate_inventory_quantity value errs = Raise e ->
  exn_kind e = OverflowError
  /\ exists neg, Py.float_of_str (Py.str value) = Ok (FInf neg).
Proof.
  unfold _validate_inventory_quantity, bind.
  destruct (Py.isna_truth value) as [na|e0] eqn:Hna.
  2:{ assert (exn_kind e0 = ValueError) as Hk.
      { unfold Py.isna_truth in Hna. destruct value; try discriminate.
        destruct (Py.array_cells 63 l) as [|x [|y r]]; by simplify_eq. }
      unfold is_value_or_type_error. rewrite Hk. discriminate. }
  destruct (na || Py.eq_str value "" || is_empty (strip (Py.str value)));
    [discriminate|].
  destruct (Py.float_of_str (Py.str value)) as [f|e0] eqn:Hf.
  2:{ assert (exn_kind e0 = ValueError) as Hk.
      { unfold Py.float_of_str in Hf. repeat case_match; by simplify_eq. }
      unfold is_value_or_type_error. rewrite Hk. discriminate. }
  destruct f as [|neg|m ex]; simpl.
  - discriminate.
  - intros [= <-]. split; [done|]. by exists neg.
  - destruct (Z.ltb _ _); discriminate.
Qed.

Lemma clean_locations_trimmed l x :
  x ∈ clean_locations l -> x <> "" /\ strip x = x.
Proof.
  unfold clean_locations. rewrite list_elem_of_omap. intros (v & _ & Hv).
  destruct (Py.truthy v && truthy (strip (Py.str v))) eqn:Ht; [|done].
  apply andb_true_iff in Ht as [_ Ht]. injection Hv as <-.
  split; [by apply truthy_true|apply strip_idemp].
Qed.

Lemma plain_locations_trimmed s l x :
  plain_locations s = Some l -> x ∈ l -> x <> "" /\ strip x = x.
Proof.
  unfold plain_locations. destruct (contains comma s).
  - intros [= <-]. unfold split_locations. rewrite list_elem_of_omap.
    intros (t & _ & Ht). destruct (truthy (strip t)) eqn:Htr; [|done].
    injection Ht as <-. split; [by apply truthy_true|apply strip_idemp].
  - destruct (truthy (strip s)) eqn:Htr; [|done]. intros [= <-] Hx.
    apply list_elem_of_singleton in Hx as ->.
    split; [by apply truthy_true|apply strip_idemp].
Qed.

(** X15: when [_validate_location_array] returns a sequence, each of its
    elements is a trimmed, non-empty string; the list of errors is
    either unchanged or longer by one note, in which case no location
    is returned. *)
Theorem location_array_result value errs location errs' :
  _validate_location_array value errs = Ok (location, errs') ->
  (forall l x, location = Some l -> x ∈ l -> x <> "" /\ strip x = x)
  /\ (errs' = errs \/ (location = None /\ exists note, errs' = errs ++ [note])).
Proof.
  unfold _validate_location_array, bind.
  destruct (Py.isna_truth value) as [na|e0]; [|discriminate].
  destruct (na || Py.eq_str value "" || Py.eq_str value "nan").
  { intros [= <- <-]. split; [done|by left]. }
  assert (Hscalar : forall s,
             Ok (if truthy (strip s) then Some [strip s] else None, errs)
             = Ok (location, errs') ->
             (forall l x, location = Some l -> x ∈ l -> x <> "" /\ strip x = x)
             /\ (errs' = errs
                 \/ (location = None /\ exists note, errs' = errs ++ [note]))).
  { intros s Heq. destruct (truthy (strip s)) eqn:Ht; injection Heq as <- <-;
      (split; [|by left]); [|done].
    intros l x [= <-] Hx. apply list_elem_of_singleton in Hx as ->.
    split; [by apply truthy_true|apply strip_idemp]. }
  assert (Hplain : forall s,
             Ok (plain_locations s, errs) = Ok (location, errs') ->
             (forall l x, location = Some l -> x ∈ l -> x <> "" /\ strip x = x)
             /\ (errs' = errs
                 \/ (location = None /\ exists note, errs' = errs ++ [note]))).
  { intros s [= <- <-]. split; [|by left]. intros l x Hl Hx.
    by eapply plain_locations_trimmed. }
  assert (Hclean : forall l0,
             Ok (Some (clean_locations l0), errs) = Ok (location, errs') ->
             (forall l x, location = Some l -> x ∈ l -> x <> "" /\ strip x = x)
             /\ (errs' = errs
                 \/ (location = None /\ exists note, errs' = errs ++ [note]))).
  { intros l0 [= <- <-]. split; [|by left]. intros l x [= <-] Hx.
    by eapply clean_locations_trimmed. }
  destruct value as [|b|z|f|s|l0|r t]; try apply Hscalar.
  - repeat case_match; try apply Hplain; try apply Hclean;
      intros [= <- <-]; (split; [done|]); right; eauto.
  - apply Hclean.
Qed.

(** X16: on a value that is not a list [_validate_location_array]
    always returns; the values read as missing give no location and no
    note. *)
Theorem location_array_returns_on_scalars value errs :
  (forall l, value <> VList l) ->
  (exists r, _validate_location_array value errs = Ok r)
  /\ (Py.isna_scalar value = true \/ value = VStr "" \/ value = VStr "nan" ->
      _validate_location_array value errs = Ok (None, errs)).
Proof.
  intros Hnot. split.
  - unfold _validate_location_array, bind.
    destruct value as [|b|z|f|s|l0|r t]; simpl;
      try (by destruct (Hnot l0)); repeat case_match; eauto.
  - intros [Hna|[->| ->]]; [|reflexivity|reflexivity].
    unfold _validate_location_array, bind.
    destruct value as [|b|z|f|s|l0|r t]; simpl in *;
      try discriminate; try reflexivity;
      first [by rewrite Hna | by destruct (Hnot l0)].
Qed.

End Normalised.

(** ** The validator and the writer together *)

Section Records.
Context `{PyRuntime} `{Catalogue}.

Import PyStr.

(** X17: a row whose product id or item code is blank once trimmed (an
    absent column included) is rejected with the message of the first
    identifier that is blank, without data, before any lookup, and the
    collator is left as it was: nothing is queued or counted as
    skipped. *)
Theorem blank_identifier_is_rejected row idx md pd st :
  row_product_id row = "" \/ row_item_code row = "" ->
  validate_and_collate_row row idx md pd st
  = (Invalid [if is_empty (row_product_id row) then "Product ID is required"
              else "Item code is required"] [], st).
Proof.
  unfold validate_and_collate_row.
  fold (row_product_id row). fold (row_item_code row).
  intros [Hp|Hc].
  - by rewrite Hp.
  - rewrite Hc. by destruct (is_empty (row_product_id row)).
Qed.

(** X18: in a chunk whose item codes do not differ only by letter case,
    a row is accepted exactly when the transaction open on the
    connection has not failed and the row is eligible, so the answer is
    the same in every such chunk the row is part of; after a failed
    statement on the connection (the existence query) every row is
    rejected, its metadata lookup returning nothing. *)
Theorem verdict_is_the_same_in_every_chunk st failed c c' ir :
  ir ∈ c -> ir ∈ c' ->
  codes_case_consistent c -> codes_case_consistent c' ->
  let answer chunk :=
    is_valid
      (verdict (get_metadata_batch st failed (chunk_product_ids chunk))
         (get_price_details_batch st (chunk_item_codes chunk)) ir) in
  answer c = answer c'
  /\ (answer c = true <-> failed = false /\ eligible st (snd ir)).
Proof.
  intros Hc Hc' Hcons Hcons'. cbv zeta. destruct failed.
  - rewrite !verdict_failed. split; [done|]. split; [done|by intros [? _]].
  - split.
    + by rewrite !verdict_accepts.
    + rewrite verdict_eligible by done. tauto.
Qed.

Lemma collate_columns p c m pr q l :
  map fst (collate p c m pr q l) = merged_columns.
Proof.
  reflexivity.
Qed.

Lemma merged_columns_NoDup : NoDup merged_columns.
Proof. apply (bool_decide_unpack _). by vm_compute. Qed.

Lemma verdict_Valid_columns md pd ir d :
  verdict md pd ir = Valid d -> map fst d = merged_columns.
Proof.
  unfold verdict, validate_and_collate_row.
  repeat case_match; simpl; intros Hv; try discriminate.
  injection Hv as <-. apply collate_columns.
Qed.

Lemma dict_get_cons_ne k v (d : Dict) col :
  col <> k -> dict_get ((k, v) :: d) col = dict_get d col.
Proof.
  intros Hne. unfold dict_get, dict_get_default. simpl.
  destruct (String.eqb_spec k col); [congruence|done].
Qed.

(** Reading a dictionary along its own keys gives it back. *)
Lemma dict_reorder_id (d : Dict) :
  NoDup (map fst d) -> map (fun col => (col, dict_get d col)) (map fst d) = d.
Proof.
  induction d as [|[k v] d IH]; [done|]. cbn [map fst].
  intros Hnd. apply NoDup_cons in Hnd as [Hk Hnd]. f_equal.
  - unfold dict_get, dict_get_default. simpl. by rewrite String.eqb_refl.
  - rewrite <- (IH Hnd) at 2. apply map_ext_in. intros col Hcol.
    rewrite dict_get_cons_ne; [done|]. intros ->. apply Hk.
    by apply list_elem_of_In.
Qed.

Lemma batch_rows_same_columns (valid_data : list Dict) cols :
  NoDup cols -> (forall d, d ∈ valid_data -> map fst d = cols) ->
  batch_rows valid_data = valid_data.
Proof.
  intros Hnd Hcols. unfold batch_rows.
  destruct valid_data as [|first rest]; [done|].
  rewrite (Hcols first) by apply list_elem_of_here.
  rewrite <- (map_id (first :: rest)) at 2.
  apply map_ext_in. intros d Hd. apply list_elem_of_In in Hd.
  rewrite <- (Hcols d Hd). apply dict_reorder_id. by rewrite (Hcols d Hd).
Qed.

(** X19: every record the validator accepts has the same columns, in
    the same order and without repetition, so the rows the writer builds
    along the columns of the first record of a chunk are the records
    themselves: a successful insert adds the merged records of the chunk
    to the destination table, unchanged and in row order. *)
Theorem merged_records_are_written_unchanged st failed c st' :
  let valid_data := chunk_valid_data st failed c in
  NoDup merged_columns
  /\ (forall d, d ∈ valid_data -> map fst d = merged_columns)
  /\ batch_rows valid_data = valid_data
  /\ (forall failed1 st1 failed2,
        insert_batch valid_data failed1 st' = Ok (true, st1, failed2) ->
        catalogue st1 = catalogue st' ++ valid_data).
Proof.
  cbv zeta.
  assert (Hcols : forall d, d ∈ chunk_valid_data st failed c ->
                    map fst d = merged_columns).
  { intros d Hd. unfold chunk_valid_data in Hd.
    apply list_elem_of_omap in Hd as (ir & _ & Hd). unfold valid_dict in Hd.
    destruct (verdict _ _ ir) eqn:Hv; [|done]. injection Hd as ->.
    by apply verdict_Valid_columns in Hv. }
  assert (Hrows : batch_rows (chunk_valid_data st failed c)
                  = chunk_valid_data st failed c)
    by (apply (batch_rows_same_columns _ _ merged_columns_NoDup Hcols)).
  split_and!; [apply merged_columns_NoDup|done|done|].
  intros failed1 st1 failed2 Hok.
  apply insert_batch_success in Hok as (-> & _ & _). simpl. by rewrite Hrows.
Qed.


End Records.

(** ** What a run leaves behind *)

Section Bookkeeping.
Context `{PyRuntime} `{Catalogue}.

Lemma validate_and_collate_row_bookkeeping row idx md pd st :
  let r := fst (validate_and_collate_row row idx md pd st) in
  let st' := snd (validate_and_collate_row row idx md pd st) in
  validation_errors st' = validation_errors st
  /\ exists k, k <= 1 /\ (is_valid r = true -> k = 0)
               /\ length (error_queue st') = length (error_queue st) + k
               /\ skipped st' = skipped st + k.
Proof.
  unfold validate_and_collate_row, skipped.
  repeat case_match; simpl; (split; [done|]);
    first [ by (exists 0; split_and!; [lia|done|lia|lia])
          | exists 1; rewrite length_app; simpl;
            split_and!; [lia|done|lia|lia] ].
Qed.

Lemma process_rows_bookkeeping md pd rows vd res st :
  let '(_, res', st') := fold_left (process_row md pd) rows (vd, res, st) in
  length (validation_errors st') + validation_failures res
  = length (validation_errors st) + validation_failures res'
  /\ exists k, k + validation_failures res <= validation_failures res'
               /\ length (error_queue st') = length (error_queue st) + k
               /\ skipped st' = skipped st + k.
Proof.
  revert vd res st. induction rows as [|[idx row] rows IH]; intros vd res st.
  - simpl. split; [done|]. exists 0. lia.
  - simpl fold_left.
    pose proof (validate_and_collate_row_bookkeeping row idx md pd st) as Hb.
    destruct (validate_and_collate_row row idx md pd st) as [r st1].
    simpl in Hb. destruct Hb as (Hve & k & Hk & Hvalid & Hq & Hs).
    destruct r as [d|notes d].
    + specialize (IH (vd ++ [d]) res st1).
      destruct (fold_left _ rows _) as [[vd' res'] st'].
      destruct IH as (Hve' & k' & Hk' & Hq' & Hs').
      rewrite (Hvalid eq_refl) in *. split; [congruence|].
      exists k'. split_and!; lia.
    + specialize (IH vd (add_validation_failure res)
                    (with_validation_error st1
                       {| ve_row_index := idx;
                          ve_product_id := row_get row "product_id" (VStr "Unknown");
                          ve_errors := notes |})).
      destruct (fold_left _ rows _) as [[vd' res'] st'].
      destruct IH as (Hve' & k' & Hk' & Hq' & Hs').
      unfold skipped in *. simpl in *.
      rewrite length_app, Hve in Hve'. simpl in Hve'.
      split; [lia|]. exists (k + k'). split_and!; lia.
Qed.

Lemma process_chunk_bookkeeping ls c :
  let ls' := process_chunk ls c in
  let r := ls_results ls in
  let r' := ls_results ls' in
  let st := ls_collator ls in
  let st' := ls_collator ls' in
  length (validation_errors st') + validation_failures r
  = length (validation_errors st) + validation_failures r'
  /\ (exists k, k + validation_failures r <= validation_failures r'
                /\ length (error_queue st') = length (error_queue st) + k
                /\ skipped st' = skipped st + k)
  /\ successful_inserts r' + validation_failures r'
     <= successful_inserts r + validation_failures r + length c.
Proof.
  cbv zeta. destruct (ls_raised ls) as [e|] eqn:Hrun.
  { unfold process_chunk. rewrite Hrun. split_and!; [done| |lia].
    exists 0. lia. }
  destruct (collect_chunk_spec ls c)
    as (res & st & Hc & Hvf & _ & Hsi & _ & _ & _ & Hcat & _).
  destruct (process_chunk_spec ls c Hrun) as (res' & st' & Hc' & ->).
  rewrite Hc in Hc'. simplify_eq.
  assert (Hbook :
            length (validation_errors st') + validation_failures (ls_results ls)
            = length (validation_errors (ls_collator ls))
              + validation_failures res'
            /\ exists k, k + validation_failures (ls_results ls)
                         <= validation_failures res'
                         /\ length (error_queue st')
                            = length (error_queue (ls_collator ls)) + k
                         /\ skipped st' = skipped (ls_collator ls) + k).
  { unfold collect_chunk in Hc.
    match type of Hc with
    | fold_left (process_row ?md ?pd) _ _ = _ =>
        pose proof (process_rows_bookkeeping md pd c [] (ls_results ls)
                      (ls_collator ls)) as Hrows
    end.
    rewrite Hc in Hrows. exact Hrows. }
  destruct Hbook as (Hve & Hskip). cbv zeta.
  destruct (chunk_valid_data (ls_collator ls) (ls_failed ls) c) as [|d vd] eqn:Hvd.
  - simpl in *. split_and!; [done|done|lia].
  - destruct (insert_batch (d :: vd) (ls_failed ls) st')
      as [[[[|] st1] failed']|e] eqn:Hins.
    + apply insert_batch_success in Hins as (-> & _ & _). simpl.
      split_and!; [done|done|simpl in Hvf; lia].
    + apply insert_batch_failure in Hins as (-> & _). simpl.
      split_and!; [done|done|simpl in Hvf; lia].
    + simpl. split_and!; [done|done|simpl in Hvf; lia].
Qed.

Lemma process_chunks_bookkeeping cs ls :
  let ls' := fold_left process_chunk cs ls in
  let r := ls_results ls in
  let r' := ls_results ls' in
  let st := ls_collator ls in
  let st' := ls_collator ls' in
  length (validation_errors st') + validation_failures r
  = length (validation_errors st) + validation_failures r'
  /\ (exists k, k + validation_failures r <= validation_failures r'
                /\ length (error_queue st') = length (error_queue st) + k
                /\ skipped st' = skipped st + k)
  /\ successful_inserts r' + validation_failures r'
     <= successful_inserts r + validation_failures r + length (concat cs).
Proof.
  revert ls. induction cs as [|c cs IH]; intros ls; simpl.
  - split_and!; [done| |lia]. exists 0. lia.
  - destruct (IH (process_chunk ls c))
      as (Hve & (k & Hk & Hq & Hs) & Hsum).
    destruct (process_chunk_bookkeeping ls c)
      as (Hve1 & (k1 & Hk1 & Hq1 & Hs1) & Hsum1).
    cbv zeta in *. split_and!.
    + lia.
    + exists (k1 + k). lia.
    + rewrite length_app. lia.
Qed.

(** Every run is the end of a fold of the chunk loop over some chunks
    (none when the run ends before the loop), from results whose insert
    and failure counters are 0. *)
Lemma collate_and_migrate_loop csv connects batch_size st :
  exists cs res0 failed,
    collate_and_migrate csv connects batch_size st
    = finish (fold_left process_chunk cs (mkLoop res0 0 st failed None))
    /\ successful_inserts res0 = 0
    /\ validation_failures res0 = 0
    /\ length (concat cs) <= total_rows res0
    /\ ((batch_size <= 0)%Z -> cs = [])
    /\ total_rows res0 = match csv with
                         | Some df => length (df_rows df)
                         | None => 0
                         end.
Proof.
  destruct (collate_and_migrate_cases csv connects batch_size st)
    as [(r & -> & _ & Hsi & Hvf & Ht)
       |(df & -> & -> & _ & Hnz & _ & ->)].
  { exists [], r, false. split; [reflexivity|]. split_and!; simpl; try done. lia. }
  eexists _, _, _. split; [reflexivity|].
  split_and!; try done; cbn [total_rows].
  - destruct (Z.ltb_spec batch_size 0) as [|Hpos]; [simpl; lia|].
    rewrite chunks_concat by lia. unfold surviving.
    etrans; [apply length_filter|].
    unfold deduplicated. destruct (duplicated_keys df); [done|].
    apply sublist_length, drop_duplicate_rows_sublist.
  - intros Hbs. destruct (Z.ltb_spec batch_size 0); [done|lia].
Qed.

(** X21: over a whole run, the list of validation errors of the
    collator grows by exactly the number of validation failures
    reported, and the queue of rejections for the skipped-rows file
    grows by exactly the growth of the two skip counters, which is at
    most the number of validation failures. *)
Theorem run_records_every_validation_failure csv connects batch_size st :
  let r := fst (collate_and_migrate csv connects batch_size st) in
  let st' := snd (collate_and_migrate csv connects batch_size st) in
  length (validation_errors st')
  = length (validation_errors st) + validation_failures r
  /\ exists k, k <= validation_failures r
               /\ length (error_queue st') = length (error_queue st) + k
               /\ skipped st' = skipped st + k.
Proof.
  cbv zeta.
  destruct (collate_and_migrate_loop csv connects batch_size st)
    as (cs & res0 & failed & -> & Hsi & Hvf & _).
  destruct (process_chunks_bookkeeping cs (mkLoop res0 0 st failed None))
    as (Hve & (k & Hk & Hq & Hs) & _).
  destruct (finish_keeps (fold_left process_chunk cs
                            (mkLoop res0 0 st failed None)))
    as (_ & _ & _ & _ & -> & ->).
  simpl in *. split; [lia|]. exists k. split_and!; [lia|done|done].
Qed.

(** X22: a run only appends to the destination table, the number of
    rows it appends is the number of successful inserts it reports, and
    it leaves the two reference tables as they were. *)
Theorem run_appends_the_reported_inserts csv connects batch_size st :
  let r := fst (collate_and_migrate csv connects batch_size st) in
  let st' := snd (collate_and_migrate csv connects batch_size st) in
  (exists written,
     catalogue st' = catalogue st ++ written
     /\ length written = successful_inserts r)
  /\ same_references st st'.
Proof.
  cbv zeta.
  destruct (collate_and_migrate_written csv connects batch_size st)
    as (Href & w & Hcat & Hw).
  split; [by exists w|done].
Qed.

(** X23: whatever happens during a run, the rows reported as inserted
    and as validation failures are together at most the rows read. *)
Theorem run_counters_are_bounded csv connects batch_size st :
  let r := fst (collate_and_migrate csv connects batch_size st) in
  successful_inserts r + validation_failures r <= total_rows r
  /\ total_rows r = match csv with
                    | Some df => length (df_rows df)
                    | None => 0
                    end.
Proof.
  cbv zeta.
  destruct (collate_and_migrate_loop csv connects batch_size st)
    as (cs & res0 & failed & Hrun & Hsi & Hvf & Hlen & _ & Htotal).
  destruct (process_chunks_bookkeeping cs (mkLoop res0 0 st failed None))
    as (_ & _ & Hsum).
  destruct (process_chunks_counts cs (mkLoop res0 0 st failed None)) as (Ht & _).
  destruct (finish_keeps (fold_left process_chunk cs
                            (mkLoop res0 0 st failed None)))
    as (Hft & _ & _ & Hfs & Hfv & _).
  rewrite Hrun, Hft, Hfs, Hfv. simpl in *. split; [lia|congruence].
Qed.

(** X24: with a batch size that is not positive the run validates and
    inserts nothing and leaves the collator as it was; a negative one
    does so without recording any error when the input loads, the stores
    connect and no product id is duplicated. *)
Theorem nonpositive_batch_size_processes_nothing csv connects batch_size st :
  (batch_size <= 0)%Z ->
  let r := fst (collate_and_migrate csv connects batch_size st) in
  successful_inserts r = 0
  /\ validation_failures r = 0
  /\ snd (collate_and_migrate csv connects batch_size st) = st
  /\ ((batch_size < 0)%Z -> connects = true ->
      forall df, csv = Some df -> check_duplicate_products df = Ok [] ->
                 errors r = []).
Proof.
  intros Hbs. cbv zeta. split_and!.
  1-3: destruct (collate_and_migrate_loop csv connects batch_size st)
         as (cs & res0 & failed & -> & Hsi & Hvf & _ & Hcs & _);
       rewrite (Hcs Hbs); simpl; done.
  intros Hneg -> df -> Hdup. unfold collate_and_migrate. rewrite Hdup.
  cbn [negb]. unfold duplicate_step.
  destruct (check_existing_products st false _) as [existing failed].
  unfold existence_step, run_chunks.
  destruct (Z.eqb_spec batch_size 0); [lia|].
  destruct (Z.ltb_spec batch_size 0); [|lia].
  by destruct existing.
Qed.

End Bookkeeping.

(** ** The further properties on sample data *)

Section FurtherRuns.

Import Sample.

Lemma build_conninfo_dbname_or_database_witness :
  "defaultdb" <> ""
  /\ build_conninfo (<["database" := "defaultdb"]> (delete "dbname" sample_config))
     = "host=127.0.0.1 port=5433 dbname=defaultdb user=postgres sslmode=verify-ca".
Proof.
  split; [done|].
  destruct (build_conninfo_dbname_or_database sample_config "defaultdb")
    as [_ ->]; [done|].
  vm_compute. reflexivity.
Defined.

Lemma logger_keeps_every_rejection_witness :
  exists lg,
    logger_run new_logger sample_schedule = Some lg
    /\ lg_queue lg = []
    /\ lg_file lg
       = error_file [rejection_dict (sample_rejection "P1");
                     rejection_dict (sample_rejection "P2")].
Proof.
  eexists. split; [vm_compute; reflexivity|]. split; [reflexivity|].
  destruct (logger_keeps_every_rejection sample_schedule _ eq_refl)
    as (written & _ & _ & _ & _ & Hall).
  exact (Hall eq_refl).
Defined.

Lemma no_duplicates_after_drop_witness :
  "product_id" ∈ df_columns repeated_rows
  /\ check_duplicate_products (drop_duplicates repeated_rows) = Ok [].
Proof.
  split; [apply list_elem_of_here|].
  apply (no_duplicates_after_drop repeated_rows), list_elem_of_here.
Defined.

Lemma check_duplicate_products_reports_every_occurrence_witness :
  check_duplicate_products repeated_rows = Ok [Str "P1"; Str "P1"]
  /\ occurrences (Str "P1") [Str "P1"; Str "P1"] = 2.
Proof.
  split; [vm_compute; reflexivity|].
  destruct (check_duplicate_products_reports_every_occurrence repeated_rows
              [Str "P1"; Str "P1"]) as (Hocc & _).
  - vm_compute. reflexivity.
  - rewrite Hocc. vm_compute. reflexivity.
Defined.

Lemma chunks_sizes_witness :
  0 < 2 /\ length (chunks (df_rows three_rows) 2) = 2.
Proof.
  split; [lia|].
  destruct (chunks_sizes (df_rows three_rows) 2) as (_ & -> & _); [lia|].
  reflexivity.
Defined.

Lemma get_price_details_batch_entries_witness :
  @get_price_details_batch runtime references ["ALT3"] !! "ALT3"
  = Some (@price_record runtime (price "x3" (Some "alt3")))
  /\ "ALT3" ∈ kept_codes ["ALT3"].
Proof.
  split; [vm_compute; reflexivity|].
  apply (@get_price_details_batch_entries runtime references ["ALT3"] "ALT3"
           (@price_record runtime (price "x3" (Some "alt3")))).
  vm_compute. reflexivity.
Defined.

Lemma get_price_details_batch_case_consistent_witness :
  @case_consistent runtime (kept_codes ["X1"; " ALT3 "])
  /\ is_Some (@get_price_details_batch runtime references ["X1"; " ALT3 "]
              !! "ALT3").
Proof.
  assert (Hcons : @case_consistent runtime (kept_codes ["X1"; " ALT3 "])).
  { intros c c' Hc Hc' Heq.
    change (kept_codes ["X1"; " ALT3 "]) with ["X1"; "ALT3"] in Hc, Hc'.
    repeat (apply elem_of_cons in Hc as [->|Hc]);
      [| |by apply elem_of_nil in Hc];
      (repeat (apply elem_of_cons in Hc' as [->|Hc']);
       [| |by apply elem_of_nil in Hc']);
      first [reflexivity | vm_compute in Heq; discriminate Heq]. }
  split; [exact Hcons|].
  apply (@get_price_details_batch_case_consistent runtime references
           ["X1"; " ALT3 "] "ALT3" Hcons).
  split.
  - change (kept_codes ["X1"; " ALT3 "]) with ["X1"; "ALT3"].
    apply list_elem_of_further, list_elem_of_here.
  - exists (price "x3" (Some "alt3")). split.
    + apply list_elem_of_further, list_elem_of_further, list_elem_of_here.
    + exists "alt3". split; [by right|]. split; [done|]. reflexivity.
Defined.

Lemma inventory_quantity_result_witness :
  @_validate_inventory_quantity runtime (VStr "-5") []
  = Ok (0%Z, ["Inventory quantity cannot be negative"])
  /\ (0 <= 0)%Z.
Proof.
  split; [vm_compute; reflexivity|].
  apply (@inventory_quantity_result runtime (VStr "-5") [] 0
           ["Inventory quantity cannot be negative"]).
  vm_compute. reflexivity.
Defined.

Lemma inventory_quantity_raises_overflow_only_witness :
  let e := mkExn OverflowError "cannot convert float infinity to integer" in
  @_validate_inventory_quantity runtime (VStr "1e999") [] = Raise e
  /\ exn_kind e = OverflowError.
Proof.
  cbv zeta. split; [vm_compute; reflexivity|].
  apply (@inventory_quantity_raises_overflow_only runtime (VStr "1e999") []).
  vm_compute. reflexivity.
Defined.

Lemma location_array_result_witness :
  @_validate_location_array runtime (VStr "{ A1 , ,B2 }") []
  = Ok (Some ["A1"; "B2"], [])
  /\ "A1" <> "" /\ PyStr.strip "A1" = "A1".
Proof.
  split; [vm_compute; reflexivity|].
  destruct (@location_array_result runtime (VStr "{ A1 , ,B2 }") []
              (Some ["A1"; "B2"]) []) as [Helems _].
  - vm_compute. reflexivity.
  - apply (Helems ["A1"; "B2"]); [reflexivity|apply list_elem_of_here].
Defined.

Lemma location_array_returns_on_scalars_witness :
  (forall l, VInt 7 <> VList l)
  /\ exists r, @_validate_location_array runtime (VInt 7) [] = Ok r.
Proof.
  split; [discriminate|].
  apply (@location_array_returns_on_scalars runtime (VInt 7) []).
  discriminate.
Defined.

Lemma blank_identifier_is_rejected_witness :
  let row := csv_row (Str "P1") (Str "  ") in
  (@row_product_id runtime row = "" \/ @row_item_code runtime row = "")
  /\ @validate_and_collate_row runtime row 0 ∅ ∅ references
     = (Invalid ["Item code is required"] [], references).
Proof.
  cbv zeta. split; [right; vm_compute; reflexivity|].
  rewrite (@blank_identifier_is_rejected runtime
             (csv_row (Str "P1") (Str "  ")) 0 ∅ ∅ references)
    by (right; vm_compute; reflexivity).
  reflexivity.
Defined.

Lemma verdict_is_the_same_in_every_chunk_witness :
  let ir := (1, csv_row (Str "P1") (Str "X1")) in
  ir ∈ df_rows three_rows
  /\ ir ∈ [ir]
  /\ @codes_case_consistent runtime (df_rows three_rows)
  /\ @codes_case_consistent runtime [ir]
  /\ @eligible runtime references (snd ir).
Proof.
  cbv zeta.
  assert (Hin : (1, csv_row (Str "P1") (Str "X1")) ∈ df_rows three_rows)
    by apply list_elem_of_further, list_elem_of_here.
  split; [exact Hin|]. split; [apply list_elem_of_here|].
  split; [exact three_rows_case_consistent|].
  split; [apply singleton_consistent|].
  destruct (@verdict_is_the_same_in_every_chunk runtime references false
              (df_rows three_rows) [(1, csv_row (Str "P1") (Str "X1"))]
              (1, csv_row (Str "P1") (Str "X1")) Hin)
    as [_ Helig].
  - apply list_elem_of_here.
  - exact three_rows_case_consistent.
  - apply singleton_consistent.
  - apply Helig. vm_compute. reflexivity.
Defined.


Lemma nonpositive_batch_size_processes_nothing_witness :
  (-1 <= 0)%Z
  /\ let run := @collate_and_migrate runtime unconstrained
                  (Some three_rows) true (-1) references in
     successful_inserts (fst run) = 0 /\ errors (fst run) = [].
Proof.
  split; [lia|]. cbv zeta.
  destruct (@nonpositive_batch_size_processes_nothing runtime unconstrained
              (Some three_rows) true (-1) references)
    as (Hsi & _ & _ & Herr); [lia|].
  split; [exact Hsi|].
  apply (Herr ltac:(lia) eq_refl three_rows eq_refl).
  vm_compute. reflexivity.
Defined.

End FurtherRuns.
